(** * Versioned agent system: registry and router

    A shallow embedding of [core/agent-registry.ts] (class [AgentRegistry]),
    [core/version-router.ts] (class [VersionRouter]) and the parts of
    [core/types.ts] they use, followed by the properties proved about them.

    Conventions of the embedding:
    - a TypeScript [Map<string, V>] is an association list in insertion
      order ([JsMap]); the order is observable through [keys()],
      [entries()] and [versions[0]];
    - a method that may [throw] runs in the monad [M S A = S -> result A * S]:
      the state reached when the exception is raised is part of the outcome;
    - JavaScript truthiness of an optional string is [truthy]: [undefined]
      and the empty string are both falsy;
    - a finite JavaScript number is the rational it holds; what
      [parseInt] and a subtraction return is rounded to the nearest
      double;
    - a key of an object that is optional is absent, or holds [undefined]
      or a value, where an object spread tells these apart;
    - [new Date()] reads the system clock; the reading is an explicit
      argument of the operations that perform it. *)

From Stdlib Require Import String Ascii List Bool ZArith NArith QArith Lia.
From Stdlib Require DecimalString Qcanon.
Import ListNotations.
Close Scope Q_scope.
Open Scope list_scope.
Open Scope string_scope.

(* ================================================================== *)
(** * JavaScript values *)

(** A JavaScript [number]. *)
Inductive number : Type :=
| NaN
| NegInfinity
| Finite (q : Q)
| PosInfinity.

(** A JavaScript [Date]: a time value in milliseconds, or an invalid date. *)
Inductive Date : Type :=
| ValidDate (ms : Z)
| InvalidDate.

(** Values of type [unknown] stored in free-form records. *)
#[local] Unset Elimination Schemes.
Inductive unknown : Type :=
| JsUndefined
| JsNull
| JsBoolean (b : bool)
| JsNumber (n : number)
| JsString (s : string)
| JsArray (items : list unknown)
| JsObject (fields : list (string * unknown)).
#[local] Set Elimination Schemes.

(** [x >= lo], [x <= hi] and [x > lo] on numbers, as JavaScript compares
    them: every comparison with [NaN] is false. *)
Definition number_geq (x : number) (lo : Q) : bool :=
  match x with
  | NaN | NegInfinity => false
  | Finite q => Qle_bool lo q
  | PosInfinity => true
  end.

Definition number_leq (x : number) (hi : Q) : bool :=
  match x with
  | NaN | PosInfinity => false
  | Finite q => Qle_bool q hi
  | NegInfinity => true
  end.

Definition number_gt (x : number) (lo : Q) : bool :=
  match x with
  | NaN | NegInfinity => false
  | Finite q => negb (Qle_bool q lo)
  | PosInfinity => true
  end.

(** ** Rounding

    A finite number is kept as the rational it holds. Where the program
    computes with numbers that need not be held exactly, the result is
    rounded as the language does it: to the nearest double, a tie going
    to the one with an even significand, with gradual underflow, and to
    an infinity from [2^1024 - 2^970]. The sign of zero is not kept. *)

(** [a / b] for [0 <= a] and [0 < b], rounded to the nearest integer, a
    tie going to the even one. *)
Definition div_nearest_even (a b : Z) : Z :=
  let q := (a / b)%Z in
  let r := (a mod b)%Z in
  match (2 * r ?= b)%Z with
  | Lt => q
  | Gt => (q + 1)%Z
  | Eq => if Z.even q then q else (q + 1)%Z
  end.

(** The exponent [e] with [2^e <= n/d < 2^(e+1)]. *)
Definition binade (n d : positive) : Z :=
  let e := (Z.log2 (Zpos n) - Z.log2 (Zpos d))%Z in
  if (if 0 <=? e then Zpos d * 2 ^ e <=? Zpos n
      else Zpos d <=? Zpos n * 2 ^ (- e))%Z
  then e else (e - 1)%Z.

(** The double nearest to [n/d]: a multiple of [2^u], where [u] is the
    exponent of the last place of a 53-bit significand, and at least
    that of the subnormal numbers. *)
Definition round_positive (n d : positive) : number :=
  let u := Z.max (binade n d - 52) (-1074) in
  if (0 <=? u)%Z then
    let m := div_nearest_even (Zpos n) (Zpos d * 2 ^ u) in
    if (2 ^ 1024 <=? m * 2 ^ u)%Z then PosInfinity
    else Finite (inject_Z (m * 2 ^ u))
  else
    Finite (Qred (Qmake (div_nearest_even (Zpos n * 2 ^ (- u)) (Zpos d))
                        (Z.to_pos (2 ^ (- u))))).

(** [-x] *)
Definition number_opp (x : number) : number :=
  match x with
  | NaN => NaN
  | NegInfinity => PosInfinity
  | Finite q => Finite (Qopp q)
  | PosInfinity => NegInfinity
  end.

(** The number value of a rational. *)
Definition round_to_double (q : Q) : number :=
  match Qnum q with
  | Z0 => Finite (inject_Z 0)
  | Zpos n => round_positive n (Qden q)
  | Zneg n => number_opp (round_positive n (Qden q))
  end.

(** [x - y] *)
Definition number_sub (x y : number) : number :=
  match x, y with
  | NaN, _ | _, NaN => NaN
  | PosInfinity, PosInfinity | NegInfinity, NegInfinity => NaN
  | PosInfinity, _ | _, NegInfinity => PosInfinity
  | NegInfinity, _ | _, PosInfinity => NegInfinity
  | Finite a, Finite b => round_to_double (Qminus a b)
  end.

(** [x !== y]: [NaN] differs from every number, itself included. *)
Definition number_differs (x y : number) : bool :=
  match x, y with
  | Finite a, Finite b => negb (Qeq_bool a b)
  | PosInfinity, PosInfinity | NegInfinity, NegInfinity => false
  | _, _ => true
  end.

(** What an object can hold under a key whose type is optional,
    [k?: A]: the key is absent, or it is present and holds [undefined] or
    a value. Reading the key gives [undefined] in the first two cases; an
    object spread copies the key in the last two. *)
Inductive property (A : Type) : Type :=
| Absent
| Undefined
| Value (a : A).
Arguments Absent {A}.
Arguments Undefined {A}.
Arguments Value {A} a.

(** The field [k] of [{...target, ...source}], from the field of
    [target] and what [source] holds under [k]. *)
Definition overwrite {A : Type} (field : option A) (p : property A) : option A :=
  match p with
  | Absent => field
  | Undefined => None
  | Value a => Some a
  end.

(** Truthiness of a value of type [string | undefined | null]: the value
    when it is a non-empty string, nothing otherwise. *)
Definition truthy (o : option string) : option string :=
  match o with
  | Some s => if (s =? "")%string then None else Some s
  | None => None
  end.

Definition is_truthy (o : option string) : bool :=
  match truthy o with Some _ => true | None => false end.

(* ================================================================== *)
(** * [Map<string, V>]: insertion-ordered association lists *)

Module JsMap.

Definition t (V : Type) : Type := list (string * V).

Section Operations.
Context {V : Type}.

Definition empty : t V := [].

(** [m.get(k)] *)
Fixpoint get (k : string) (m : t V) : option V :=
  match m with
  | [] => None
  | (k', v) :: m' => if (k =? k')%string then Some v else get k m'
  end.

(** [m.has(k)] *)
Definition has (k : string) (m : t V) : bool :=
  match get k m with Some _ => true | None => false end.

(** [m.set(k, v)]: an existing key keeps its position, a new key is
    appended. *)
Fixpoint set (k : string) (v : V) (m : t V) : t V :=
  match m with
  | [] => [(k, v)]
  | (k', v') :: m' =>
      if (k =? k')%string then (k, v) :: m' else (k', v') :: set k v m'
  end.

(** The map left by [m.delete(k)]; the call returns [has k m]. *)
Definition delete (k : string) (m : t V) : t V :=
  filter (fun e => negb (k =? fst e)%string) m.

(** [Array.from(m.keys())], [Array.from(m.values())], [m.entries()] *)
Definition keys (m : t V) : list string := map fst m.
Definition values (m : t V) : list V := map snd m.
Definition entries (m : t V) : list (string * V) := m.
End Operations.

(** A list of keys without repetition (decidable form). *)
Fixpoint distinct (ks : list string) : bool :=
  match ks with
  | [] => true
  | k :: ks' => negb (existsb (String.eqb k) ks') && distinct ks'
  end.

(** The representation invariant of a [Map]: each key occurs once. *)
Definition wf {V : Type} (m : t V) : bool := distinct (keys m).

End JsMap.

(* ================================================================== *)
(** * Exceptions and the state-and-exception monad *)

(** One constructor per [throw] site of the two classes (and one for the
    [ZodError] raised by [AgentConfigSchema.parse]). *)
Inductive Error : Type :=
| ZodError (issues : list string)
| VersionNotFound (version : string)
| CannotRemoveDefault (version : string)
| DefaultVersionNotFound (version : string)
| TenantDefaultVersionNotFound (version : string)
| RequestedVersionNotFound (version : string)
| NoVersionsAvailable
| UnknownRoutingStrategy (strategy : string)
| TargetVersionNotFound (version : string).

(** The message carried by the thrown [Error] (for a [ZodError], the paths
    of the offending fields). *)
Definition message (e : Error) : string :=
  match e with
  | ZodError issues => String.concat ", " issues
  | VersionNotFound v => "Version " ++ v ++ " not found in registry"
  | CannotRemoveDefault v =>
      "Cannot remove default version " ++ v ++ ". Set a new default first."
  | DefaultVersionNotFound v =>
      "Default version " ++ v ++ " not found in registry"
  | TenantDefaultVersionNotFound v =>
      "Tenant default version " ++ v ++ " not found in registry"
  | RequestedVersionNotFound v =>
      "Requested version " ++ v ++ " not found in registry"
  | NoVersionsAvailable => "No agent versions available in registry"
  | UnknownRoutingStrategy s => "Unknown routing strategy: " ++ s
  | TargetVersionNotFound v =>
      "Target version " ++ v ++ " not found in registry"
  end.

(** The error taxonomy under which the throw sites are documented. *)
Inductive ErrorKind : Type :=
| ValidationError
| NotFoundError
| InvalidOperationError
| InvalidArgumentError.

Definition kind (e : Error) : ErrorKind :=
  match e with
  | ZodError _ => ValidationError
  | CannotRemoveDefault _ => InvalidOperationError
  | UnknownRoutingStrategy _ => InvalidArgumentError
  | VersionNotFound _ | DefaultVersionNotFound _
  | TenantDefaultVersionNotFound _ | RequestedVersionNotFound _
  | NoVersionsAvailable | TargetVersionNotFound _ => NotFoundError
  end.

(** Outcome of a call: a returned value or a thrown error. *)
Inductive result (A : Type) : Type :=
| Ok (a : A)
| Throw (e : Error).
Arguments Ok {A} a.
Arguments Throw {A} e.

Definition is_throw {A : Type} (r : result A) : bool :=
  match r with Throw _ => true | Ok _ => false end.

(** A method acting on an object of state [S]: it yields an outcome and
    the state in which the call ended, also when it threw. *)
Definition M (S A : Type) : Type := S -> result A * S.

Definition ret {S A : Type} (a : A) : M S A := fun s => (Ok a, s).

Definition throw {S A : Type} (e : Error) : M S A := fun s => (Throw e, s).

Definition bind {S A B : Type} (m : M S A) (f : A -> M S B) : M S B :=
  fun s =>
    match m s with
    | (Ok a, s') => f a s'
    | (Throw e, s') => (Throw e, s')
    end.

Definition get_state {S : Type} : M S S := fun s => (Ok s, s).
Definition modify {S : Type} (f : S -> S) : M S unit := fun s => (Ok tt, f s).

(** A call whose returned value is dropped. *)
Definition forget {S A : Type} (m : M S A) : M S unit :=
  bind m (fun _ => ret tt).

(** [when c m]: [if (c) { m }] *)
Definition when {S : Type} (c : bool) (m : M S unit) : M S unit :=
  if c then m else ret tt.

Declare Scope js_scope.
Delimit Scope js_scope with js.
Notation "x <- m ;; k" := (bind m (fun x => k))
  (at level 61, m at next level, right associativity) : js_scope.
Notation "m ;; k" := (bind m (fun _ => k))
  (at level 61, right associativity) : js_scope.
Open Scope js_scope.

(* ================================================================== *)
(** * [core/types.ts] *)

(** The identifier types are aliases of [string]. *)
Abbreviation AgentVersion := string (only parsing).
Abbreviation UserId := string (only parsing).
Abbreviation TenantId := string (only parsing).
Abbreviation ModelId := string (only parsing).

(** [ModelProvider] is a union of string literals: a string at run time. *)
Abbreviation ModelProvider := string (only parsing).

Module AgentConfig.
Record Metadata : Type := {
  description : option string;
  createdAt : option Date;
  createdBy : option string;
  tags : option (list string)
}.

Record t : Type := {
  version : AgentVersion;
  prompt : string;
  provider : ModelProvider;
  model : ModelId;
  temperature : number;
  maxTokens : option number;
  parameters : option (list (string * unknown));
  metadata : option Metadata
}.
End AgentConfig.

Module ExecutionContext.
Record t : Type := {
  userId : UserId;
  tenantId : option TenantId;
  version : option AgentVersion;
  input : string;
  context : option (list (string * unknown))
}.
End ExecutionContext.

Module UserVersionPin.
Record t : Type := {
  userId : UserId;
  version : AgentVersion;
  pinnedAt : Date;
  reason : option string
}.
End UserVersionPin.

Record Limits : Type := {
  daily : option number;
  monthly : option number
}.

Module TenantConfig.
(** [Partial<Pick<AgentConfig, 'temperature' | 'maxTokens' | 'model'>>] *)
Record PromptOverrides : Type := {
  temperature : property number;
  maxTokens : property number;
  model : property ModelId
}.

Record t : Type := {
  tenantId : TenantId;
  defaultVersion : option AgentVersion;
  promptOverrides : option PromptOverrides;
  costLimits : option Limits;
  features : option (list (string * bool))
}.
End TenantConfig.

(** The object that [applyTenantOverrides] returns and a provider
    receives. Its declared type is [AgentConfig]; the spread of the
    tenant's overrides copies a key that holds [undefined], so [model]
    and [temperature] can be [undefined] at run time. *)
Module FinalConfig.
Record t : Type := {
  version : AgentVersion;
  prompt : string;
  provider : ModelProvider;
  model : option ModelId;
  temperature : option number;
  maxTokens : option number;
  parameters : option (list (string * unknown));
  metadata : option AgentConfig.Metadata
}.

(** A configuration of the registry, as that object. *)
Definition of_config (config : AgentConfig.t) : t :=
  {| version := AgentConfig.version config;
     prompt := AgentConfig.prompt config;
     provider := AgentConfig.provider config;
     model := Some (AgentConfig.model config);
     temperature := Some (AgentConfig.temperature config);
     maxTokens := AgentConfig.maxTokens config;
     parameters := AgentConfig.parameters config;
     metadata := AgentConfig.metadata config |}.
End FinalConfig.

Module GlobalConfig.
Record t : Type := {
  defaultVersion : AgentVersion;
  availableVersions : list AgentVersion;
  globalCostLimits : option Limits
}.
End GlobalConfig.

(** [AgentConfigSchema]: the paths of the fields that violate it.
    [z.string().min(1)], [z.enum], [z.number().min(0).max(2)],
    [z.number().positive().optional()], [z.date().optional()];
    [z.number()] rejects [NaN] and [z.date()] an invalid date. *)
Definition AgentConfigSchema_issues (config : AgentConfig.t) : list string :=
  (if (AgentConfig.version config =? "")%string then ["version"] else [])
  ++ (if (AgentConfig.prompt config =? "")%string then ["prompt"] else [])
  ++ (if (AgentConfig.provider config =? "openai")%string
         || (AgentConfig.provider config =? "anthropic")%string
      then [] else ["provider"])
  ++ (if (AgentConfig.model config =? "")%string then ["model"] else [])
  ++ (if number_geq (AgentConfig.temperature config) 0
         && number_leq (AgentConfig.temperature config) 2
      then [] else ["temperature"])
  ++ (match AgentConfig.maxTokens config with
      | Some n => if number_gt n 0 then [] else ["maxTokens"]
      | None => []
      end)
  ++ (match AgentConfig.metadata config with
      | Some md =>
          match AgentConfig.createdAt md with
          | Some InvalidDate => ["metadata.createdAt"]
          | _ => []
          end
      | None => []
      end).

(** [AgentConfigSchema.parse(config)]: throws unless the schema holds. *)
Definition AgentConfigSchema_parse {S : Type} (config : AgentConfig.t)
  : M S unit :=
  match AgentConfigSchema_issues config with
  | [] => ret tt
  | issues => throw (ZodError issues)
  end.

(* ================================================================== *)
(** * [core/agent-registry.ts]: class [AgentRegistry] *)

Module AgentRegistry.

(** The private fields [configs] and [defaultVersion]. *)
Record t : Type := {
  configs : JsMap.t AgentConfig.t;
  defaultVersion : option AgentVersion
}.

(** [new AgentRegistry()] *)
Definition new : t := {| configs := JsMap.empty; defaultVersion := None |}.

Definition set_configs (f : JsMap.t AgentConfig.t -> JsMap.t AgentConfig.t)
  (r : t) : t :=
  {| configs := f (configs r); defaultVersion := defaultVersion r |}.

Definition set_defaultVersion (d : option AgentVersion) (r : t) : t :=
  {| configs := configs r; defaultVersion := d |}.

(** [register(config)] *)
Definition register (config : AgentConfig.t) : M t unit :=
  AgentConfigSchema_parse config ;;
  modify (set_configs (JsMap.set (AgentConfig.version config) config)) ;;
  r <- get_state ;;
  when (negb (is_truthy (defaultVersion r)))
       (modify (set_defaultVersion (Some (AgentConfig.version config)))).

(** [get(version)] *)
Definition get (version : AgentVersion) (r : t) : option AgentConfig.t :=
  JsMap.get version (configs r).

(** [getVersions()] *)
Definition getVersions (r : t) : list AgentVersion :=
  JsMap.keys (configs r).

(** [has(version)] *)
Definition has (version : AgentVersion) (r : t) : bool :=
  JsMap.has version (configs r).

(** [setDefaultVersion(version)] *)
Definition setDefaultVersion (version : AgentVersion) : M t unit :=
  r <- get_state ;;
  if negb (JsMap.has version (configs r))
  then throw (VersionNotFound version)
  else modify (set_defaultVersion (Some version)).

(** [getDefaultVersion()] *)
Definition getDefaultVersion (r : t) : option AgentVersion :=
  defaultVersion r.

(** ** [getLatestVersion()] *)

(** [\d] *)
Definition is_digit (c : ascii) : bool :=
  (48 <=? nat_of_ascii c)%nat && (nat_of_ascii c <=? 57)%nat.

(** The longest prefix of digits ([\d+], when non-empty) and the rest. *)
Fixpoint span_digits (s : string) : string * string :=
  match s with
  | EmptyString => (EmptyString, EmptyString)
  | String c s' =>
      if is_digit c
      then let (ds, rest) := span_digits s' in (String c ds, rest)
      else (EmptyString, s)
  end.

(** [v?]: the input without a leading "v", if it has one. *)
Definition optional_v (s : string) : string :=
  match s with
  | String c s' => if (c =? "v")%char then s' else s
  | EmptyString => s
  end.

(** [\.]: the input after a leading ".", if it has one. *)
Definition literal_dot (s : string) : option string :=
  match s with
  | String c s' => if (c =? ".")%char then Some s' else None
  | EmptyString => None
  end.

(** [v.match(/^v?(\d+)\.(\d+)(?:\.(\d+))?/)]: the capture groups 1, 2
    and 3 ([None] for a group that did not take part), or [None] when
    the identifier does not match. The pattern is anchored at the start
    only, and each of its choices is forced by the next character, so
    the match is found without backtracking. *)
Definition semver_match (v : string)
  : option (string * string * option string) :=
  let (g1, s1) := span_digits (optional_v v) in
  if (g1 =? "")%string then None
  else
    match literal_dot s1 with
    | None => None
    | Some s2 =>
        let (g2, s3) := span_digits s2 in
        if (g2 =? "")%string then None
        else
          match literal_dot s3 with
          | None => Some (g1, g2, None)
          | Some s4 =>
              let (g3, _) := span_digits s4 in
              if (g3 =? "")%string then Some (g1, g2, None)
              else Some (g1, g2, Some g3)
          end
    end.

(** [parseInt(digits, 10)] on a string of decimal digits: the integer
    that the digits write, read from the left, as a number. From 2^53 on
    not every integer is a number, and the result is the nearest one:
    [parseInt("9007199254740993", 10)] is 9007199254740992. (Beyond
    twenty significant digits the language lets an engine read the
    further digits as zeros; the integer is taken as written.) *)
Definition digit_value (c : ascii) : N := N.of_nat (nat_of_ascii c - 48).

Fixpoint parseInt_from (acc : N) (digits : string) : N :=
  match digits with
  | EmptyString => acc
  | String c s' => parseInt_from (10 * acc + digit_value c)%N s'
  end.

Definition parseInt (digits : string) : number :=
  round_to_double (inject_Z (Z.of_N (parseInt_from 0%N digits))).

(** The objects built by the [map] callback. *)
Record SemVer : Type := {
  version : AgentVersion;
  major : number;
  minor : number;
  patch : number
}.

(** The [map] callback: a parsed version, or [null]. *)
Definition parse_semver (v : AgentVersion) : option SemVer :=
  match semver_match v with
  | Some (g1, g2, g3) =>
      Some {| version := v;
              major := parseInt g1;
              minor := parseInt g2;
              patch := parseInt (match g3 with Some g => g | None => "0" end) |}
  | None => None
  end.

(** [.filter(v => v !== null)] *)
Fixpoint non_null {A : Type} (l : list (option A)) : list A :=
  match l with
  | [] => []
  | Some a :: l' => a :: non_null l'
  | None :: l' => non_null l'
  end.

(** The comparator passed to [sort]: negative when [a] goes first. *)
Definition compare_semver (a b : SemVer) : number :=
  if number_differs (major a) (major b) then number_sub (major b) (major a)
  else if number_differs (minor a) (minor b) then number_sub (minor b) (minor a)
  else number_sub (patch b) (patch a).

(** [Array.prototype.sort(cmp)]. The sort is stable, so for a consistent
    comparator its result is determined; it is computed here by
    insertion, an element going before the first one it does not
    follow: [x] follows [y] when [cmp(x, y) > 0], and a result that is
    [NaN] counts as zero. *)
Fixpoint insert_sorted {A : Type} (cmp : A -> A -> number) (x : A) (l : list A)
  : list A :=
  match l with
  | [] => [x]
  | y :: l' =>
      if number_gt (cmp x y) 0 then y :: insert_sorted cmp x l' else x :: y :: l'
  end.

Definition sort {A : Type} (cmp : A -> A -> number) (l : list A) : list A :=
  fold_right (insert_sorted cmp) [] l.

Definition semanticVersions (versions : list AgentVersion) : list SemVer :=
  sort compare_semver (non_null (map parse_semver versions)).

Definition getLatestVersion (r : t) : option AgentVersion :=
  let versions := getVersions r in
  match versions with
  | [] => None
  | first :: _ =>
      match semanticVersions versions with
      | best :: _ => Some (version best)
      | [] =>
          match truthy (defaultVersion r) with
          | Some d => Some d
          | None => Some first
          end
      end
  end.

(** [remove(version)] *)
Definition remove (version : AgentVersion) : M t bool :=
  r <- get_state ;;
  if match defaultVersion r with
     | Some d => (d =? version)%string
     | None => false
     end
  then throw (CannotRemoveDefault version)
  else
    modify (set_configs (JsMap.delete version)) ;;
    ret (JsMap.has version (configs r)).

(** [list()] *)
Definition list (r : t) : list AgentConfig.t := JsMap.values (configs r).

(** [clear()] *)
Definition clear : M t unit :=
  modify (set_configs (fun _ => JsMap.empty)) ;;
  modify (set_defaultVersion None).

(** The calls that change a registry, and a run of such calls on one
    registry object; a call that throws leaves the state it reached. *)
Inductive Call : Type :=
| Register (config : AgentConfig.t)
| SetDefaultVersion (version : AgentVersion)
| Remove (version : AgentVersion)
| Clear.

Definition call (c : Call) : M t unit :=
  match c with
  | Register config => register config
  | SetDefaultVersion v => setDefaultVersion v
  | Remove v => forget (remove v)
  | Clear => clear
  end.

Definition exec (c : Call) (r : t) : t := snd (call c r).

Definition run (calls : Datatypes.list Call) (r : t) : t :=
  fold_left (fun r c => exec c r) calls r.

End AgentRegistry.

(* ================================================================== *)
(** * [core/version-router.ts]: class [VersionRouter] *)

Module VersionRouter.

(** The private fields. [registry] is a reference to a registry object
    that the caller also holds: the state of that one object is kept
    here, and calls made on the registry directly go through
    [on_registry]. *)
Record t : Type := {
  registry : AgentRegistry.t;
  userPins : JsMap.t UserVersionPin.t;
  tenantConfigs : JsMap.t TenantConfig.t;
  globalConfig : option GlobalConfig.t
}.

(** [new VersionRouter(registry)] *)
Definition new (registry : AgentRegistry.t) : t :=
  {| registry := registry;
     userPins := JsMap.empty;
     tenantConfigs := JsMap.empty;
     globalConfig := None |}.

Definition set_registry (reg : AgentRegistry.t) (r : t) : t :=
  {| registry := reg; userPins := userPins r;
     tenantConfigs := tenantConfigs r; globalConfig := globalConfig r |}.

Definition set_userPins
  (f : JsMap.t UserVersionPin.t -> JsMap.t UserVersionPin.t) (r : t) : t :=
  {| registry := registry r; userPins := f (userPins r);
     tenantConfigs := tenantConfigs r; globalConfig := globalConfig r |}.

Definition set_tenantConfigs
  (f : JsMap.t TenantConfig.t -> JsMap.t TenantConfig.t) (r : t) : t :=
  {| registry := registry r; userPins := userPins r;
     tenantConfigs := f (tenantConfigs r); globalConfig := globalConfig r |}.

Definition set_globalConfig (g : option GlobalConfig.t) (r : t) : t :=
  {| registry := registry r; userPins := userPins r;
     tenantConfigs := tenantConfigs r; globalConfig := g |}.

(** A method of the registry called on [this.registry]. *)
Definition on_registry {A : Type} (m : M AgentRegistry.t A) : M t A :=
  fun r =>
    let (res, reg') := m (registry r) in (res, set_registry reg' r).

(** [setGlobalConfig(config)] *)
Definition setGlobalConfig (config : GlobalConfig.t) : M t unit :=
  modify (set_globalConfig (Some config)) ;;
  r <- get_state ;;
  if negb (AgentRegistry.has (GlobalConfig.defaultVersion config) (registry r))
  then throw (DefaultVersionNotFound (GlobalConfig.defaultVersion config))
  else on_registry
         (AgentRegistry.setDefaultVersion (GlobalConfig.defaultVersion config)).

(** [getGlobalConfig()] *)
Definition getGlobalConfig (r : t) : option GlobalConfig.t := globalConfig r.

(** [pinUser(userId, version, reason)]; [now] is the reading of
    [new Date()]. *)
Definition pinUser (now : Z) (userId : UserId) (version : AgentVersion)
  (reason : option string) : M t unit :=
  r <- get_state ;;
  if negb (AgentRegistry.has version (registry r))
  then throw (VersionNotFound version)
  else modify (set_userPins (JsMap.set userId
         {| UserVersionPin.userId := userId;
            UserVersionPin.version := version;
            UserVersionPin.pinnedAt := ValidDate now;
            UserVersionPin.reason := reason |})).

(** [unpinUser(userId)] *)
Definition unpinUser (userId : UserId) : M t bool :=
  r <- get_state ;;
  modify (set_userPins (JsMap.delete userId)) ;;
  ret (JsMap.has userId (userPins r)).

(** [getUserPin(userId)] *)
Definition getUserPin (userId : UserId) (r : t) : option UserVersionPin.t :=
  JsMap.get userId (userPins r).

(** [setTenantConfig(tenantId, config)] *)
Definition setTenantConfig (tenantId : TenantId) (config : TenantConfig.t)
  : M t unit :=
  modify (set_tenantConfigs (JsMap.set tenantId config)) ;;
  r <- get_state ;;
  match truthy (TenantConfig.defaultVersion config) with
  | Some v =>
      if negb (AgentRegistry.has v (registry r))
      then throw (TenantDefaultVersionNotFound v)
      else ret tt
  | None => ret tt
  end.

(** [getTenantConfig(tenantId)] *)
Definition getTenantConfig (tenantId : TenantId) (r : t)
  : option TenantConfig.t :=
  JsMap.get tenantId (tenantConfigs r).

(** ** [resolveVersion(context, strategy)]

    The body is a sequence of [if] blocks, each of which either returns
    (or throws) or falls through to the next: a block yields [Some] of
    its outcome, or [None] when control leaves it at the bottom. *)

Definition block_explicit (context : ExecutionContext.t) (r : t)
  : option (result AgentVersion) :=
  match truthy (ExecutionContext.version context) with
  | Some v =>
      if negb (AgentRegistry.has v (registry r))
      then Some (Throw (RequestedVersionNotFound v))
      else Some (Ok v)
  | None => None
  end.

Definition block_pin (routingStrategy : string)
  (context : ExecutionContext.t) (r : t) : option (result AgentVersion) :=
  if (routingStrategy =? "pin")%string then
    match JsMap.get (ExecutionContext.userId context) (userPins r) with
    | Some userPin => Some (Ok (UserVersionPin.version userPin))
    | None => None
    end
  else None.

Definition block_tenant (routingStrategy : string)
  (context : ExecutionContext.t) (r : t) : option (result AgentVersion) :=
  if (routingStrategy =? "pin")%string
     || (routingStrategy =? "tenant-default")%string then
    match truthy (ExecutionContext.tenantId context) with
    | Some tenantId =>
        match JsMap.get tenantId (tenantConfigs r) with
        | Some tenantConfig =>
            match truthy (TenantConfig.defaultVersion tenantConfig) with
            | Some v => Some (Ok v)
            | None => None
            end
        | None => None
        end
    | None => None
    end
  else None.

Definition block_global (routingStrategy : string) (r : t)
  : option (result AgentVersion) :=
  if (routingStrategy =? "pin")%string
     || (routingStrategy =? "tenant-default")%string
     || (routingStrategy =? "global-default")%string then
    match globalConfig r with
    | Some g =>
        match truthy (Some (GlobalConfig.defaultVersion g)) with
        | Some v => Some (Ok v)
        | None => None
        end
    | None => None
    end
  else None.

Definition block_latest (routingStrategy : string) (r : t)
  : option (result AgentVersion) :=
  if (routingStrategy =? "latest")%string
     || (routingStrategy =? "pin")%string
     || (routingStrategy =? "tenant-default")%string
     || (routingStrategy =? "global-default")%string then
    match truthy (AgentRegistry.getLatestVersion (registry r)) with
    | Some latest => Some (Ok latest)
    | None => Some (Throw NoVersionsAvailable)
    end
  else None.

(** [b ?? k]: the outcome of block [b] when it returned, else [k]. *)
Definition or_next {A : Type} (b : option A) (k : A) : A :=
  match b with Some a => a | None => k end.

Definition resolveVersion (context : ExecutionContext.t)
  (strategy : option string) (r : t) : result AgentVersion :=
  or_next (block_explicit context r)
    (let routingStrategy :=
       match truthy strategy with Some s => s | None => "pin" end in
     or_next (block_pin routingStrategy context r)
    (or_next (block_tenant routingStrategy context r)
    (or_next (block_global routingStrategy r)
    (or_next (block_latest routingStrategy r)
       (Throw (UnknownRoutingStrategy routingStrategy)))))).

(** [getUsersPinnedToVersion(version)] *)
Definition getUsersPinnedToVersion (version : AgentVersion) (r : t)
  : list UserId :=
  map fst
    (filter (fun e => (UserVersionPin.version (snd e) =? version)%string)
            (JsMap.entries (userPins r))).

(** The [for ... of users] loop of [migrateUsers]: [clock i] is the
    reading of [new Date()] in the [i]-th call of [pinUser]. *)
Fixpoint migrate_loop (clock : nat -> Z) (i : nat)
  (fromVersion toVersion : AgentVersion) (users : list UserId)
  (migrated : nat) : M t nat :=
  match users with
  | [] => ret migrated
  | userId :: users' =>
      pinUser (clock i) userId toVersion
              (Some ("Migrated from " ++ fromVersion)%string) ;;
      migrate_loop clock (S i) fromVersion toVersion users' (migrated + 1)
  end.

(** [migrateUsers(fromVersion, toVersion)] *)
Definition migrateUsers (clock : nat -> Z)
  (fromVersion toVersion : AgentVersion) : M t nat :=
  r <- get_state ;;
  if negb (AgentRegistry.has toVersion (registry r))
  then throw (TargetVersionNotFound toVersion)
  else
    let users := getUsersPinnedToVersion fromVersion r in
    migrate_loop clock 0 fromVersion toVersion users 0.

(** [rollback(fromVersion, toVersion)] *)
Definition rollback (clock : nat -> Z)
  (fromVersion toVersion : AgentVersion) : M t nat :=
  migrateUsers clock fromVersion toVersion.

(** The calls that change a router or its registry, and a run of such
    calls; [OnRegistry c] is a call made on the registry object itself. *)
Inductive Call : Type :=
| OnRegistry (c : AgentRegistry.Call)
| SetGlobalConfig (config : GlobalConfig.t)
| SetTenantConfig (tenantId : TenantId) (config : TenantConfig.t)
| PinUser (now : Z) (userId : UserId) (version : AgentVersion)
          (reason : option string)
| UnpinUser (userId : UserId)
| MigrateUsers (clock : nat -> Z) (fromVersion toVersion : AgentVersion).

Definition call (c : Call) : M t unit :=
  match c with
  | OnRegistry c' => on_registry (AgentRegistry.call c')
  | SetGlobalConfig config => setGlobalConfig config
  | SetTenantConfig tenantId config => setTenantConfig tenantId config
  | PinUser now userId version reason => pinUser now userId version reason
  | UnpinUser userId => forget (unpinUser userId)
  | MigrateUsers clock fromVersion toVersion =>
      forget (migrateUsers clock fromVersion toVersion)
  end.

Definition exec (c : Call) (r : t) : t := snd (call c r).

Definition throws (c : Call) (r : t) : bool := is_throw (fst (call c r)).

Definition run (calls : list Call) (r : t) : t :=
  fold_left (fun r c => exec c r) calls r.

End VersionRouter.

(* ================================================================== *)
(** * Invariants and documented behaviour used in the statements *)

(** The class invariant of a registry: [configs] is a [Map] (each key
    once), every key passed the schema ([version] is non-empty), and the
    default version, once set, is a key. *)
Definition registry_invariant (r : AgentRegistry.t) : bool :=
  JsMap.wf (AgentRegistry.configs r)
  && forallb (fun k => negb (k =? "")%string) (AgentRegistry.getVersions r)
  && match AgentRegistry.defaultVersion r with
     | Some d => AgentRegistry.has d r
     | None => true
     end.

(** The three numbers of a parsed version, and those that the [map]
    callback gives an identifier, if any. *)
Definition triple_of (sv : AgentRegistry.SemVer) : number * number * number :=
  (AgentRegistry.major sv, AgentRegistry.minor sv, AgentRegistry.patch sv).

Definition semver_triple (v : AgentVersion)
  : option (number * number * number) :=
  match AgentRegistry.parse_semver v with
  | Some sv => Some (triple_of sv)
  | None => None
  end.

(** Numeric order on triples: major first, then minor, then patch. *)
Definition triple_le (a b : N * N * N) : Prop :=
  let '(a1, a2, a3) := a in
  let '(b1, b2, b3) := b in
  (a1 < b1 \/ (a1 = b1 /\ (a2 < b2 \/ (a2 = b2 /\ a3 <= b3))))%N.

(** A decimal digit: one of the ten characters "0" to "9". *)
Definition decimal_digit (c : ascii) : bool :=
  existsb (Ascii.eqb c) ["0"; "1"; "2"; "3"; "4"; "5"; "6"; "7"; "8"; "9"]%char.

(** A string of decimal digits. *)
Fixpoint digits_only (s : string) : bool :=
  match s with
  | EmptyString => true
  | String c s' => decimal_digit c && digits_only s'
  end.

(** Whether the next character is a digit. *)
Definition starts_with_digit (s : string) : bool :=
  match s with
  | String c _ => decimal_digit c
  | EmptyString => false
  end.

(** A text matched by [\d+]: one digit or more. *)
Definition number_text (g : string) : Prop := g <> "" /\ digits_only g = true.

(** The version pattern, read declaratively: an optional "v", the major
    number, ".", the minor number and, optionally, "." and the patch
    number, at the start of the identifier; each number extends over
    all the digits there are, and what follows is not looked at. *)
Inductive matches_pattern : string -> string -> string -> option string -> Prop :=
| matches_with_patch pre g1 g2 g3 rest :
    pre = "" \/ pre = "v" ->
    number_text g1 -> number_text g2 -> number_text g3 ->
    starts_with_digit rest = false ->
    matches_pattern (pre ++ g1 ++ "." ++ g2 ++ "." ++ g3 ++ rest) g1 g2 (Some g3)
| matches_without_patch pre g1 g2 rest :
    pre = "" \/ pre = "v" ->
    number_text g1 -> number_text g2 ->
    starts_with_digit rest = false ->
    (forall rest', rest = "." ++ rest' -> starts_with_digit rest' = false) ->
    matches_pattern (pre ++ g1 ++ "." ++ g2 ++ rest) g1 g2 None.

(** The digit that a character writes. *)
Definition digit_of (c : ascii) : N :=
  if (c =? "1")%char then 1
  else if (c =? "2")%char then 2
  else if (c =? "3")%char then 3
  else if (c =? "4")%char then 4
  else if (c =? "5")%char then 5
  else if (c =? "6")%char then 6
  else if (c =? "7")%char then 7
  else if (c =? "8")%char then 8
  else if (c =? "9")%char then 9
  else 0.

(** The number that a numeral writes in base ten: each digit counts for
    the power of ten of its place. *)
Fixpoint numeral_value (s : string) : N :=
  match s with
  | EmptyString => 0
  | String c s' =>
      (digit_of c * 10 ^ N.of_nat (String.length s') + numeral_value s')%N
  end.

(** The (major, minor, patch) triple that an identifier writes when it
    begins with the version pattern; the patch number is 0 when the
    identifier has none. *)
Definition version_triple (g1 g2 : string) (g3 : option string) : N * N * N :=
  (numeral_value g1, numeral_value g2,
   match g3 with Some g => numeral_value g | None => 0%N end).

Definition has_triple (v : AgentVersion) (t : N * N * N) : Prop :=
  exists g1 g2 g3, matches_pattern v g1 g2 g3 /\ t = version_triple g1 g2 g3.

(** A triple of safe integers: each number is below 2^53, so that it is
    held exactly by a number of the language. *)
Definition safe_triple (t : N * N * N) : Prop :=
  let '(major, minor, patch) := t in
  (major < 2 ^ 53 /\ minor < 2 ^ 53 /\ patch < 2 ^ 53)%N.

(** A parsed version whose three numbers are those of the triple. *)
Definition holds_triple (sv : AgentRegistry.SemVer) (t : N * N * N) : Prop :=
  let '(major, minor, patch) := t in
  AgentRegistry.major sv = Finite (inject_Z (Z.of_N major))
  /\ AgentRegistry.minor sv = Finite (inject_Z (Z.of_N minor))
  /\ AgentRegistry.patch sv = Finite (inject_Z (Z.of_N patch)).

(** The routing strategies, and the token that names each. *)
Inductive RoutingStrategy : Type :=
| Pin
| Latest
| TenantDefault
| GlobalDefault.

Definition strategy_token (s : RoutingStrategy) : string :=
  match s with
  | Pin => "pin"
  | Latest => "latest"
  | TenantDefault => "tenant-default"
  | GlobalDefault => "global-default"
  end.

(** The resolution chain as documented: explicit version, then, from the
    floor named by the strategy, user pin, tenant default, global
    default, latest registered version. *)
Module Chain.

Definition from_latest (r : VersionRouter.t) : result AgentVersion :=
  match AgentRegistry.getLatestVersion (VersionRouter.registry r) with
  | Some v => Ok v
  | None => Throw NoVersionsAvailable
  end.

(** The configured global default version, if any. *)
Definition global_default (r : VersionRouter.t) : option AgentVersion :=
  match VersionRouter.getGlobalConfig r with
  | Some g => truthy (Some (GlobalConfig.defaultVersion g))
  | None => None
  end.

Definition from_global (r : VersionRouter.t) : result AgentVersion :=
  match global_default r with
  | Some v => Ok v
  | None => from_latest r
  end.

(** The default version configured for the tenant of the context, if
    any. *)
Definition tenant_default (context : ExecutionContext.t)
  (r : VersionRouter.t) : option AgentVersion :=
  match truthy (ExecutionContext.tenantId context) with
  | Some tenantId =>
      match VersionRouter.getTenantConfig tenantId r with
      | Some c => truthy (TenantConfig.defaultVersion c)
      | None => None
      end
  | None => None
  end.

Definition from_tenant (context : ExecutionContext.t)
  (r : VersionRouter.t) : result AgentVersion :=
  match tenant_default context r with
  | Some v => Ok v
  | None => from_global r
  end.

Definition from_pin (context : ExecutionContext.t)
  (r : VersionRouter.t) : result AgentVersion :=
  match VersionRouter.getUserPin (ExecutionContext.userId context) r with
  | Some p => Ok (UserVersionPin.version p)
  | None => from_tenant context r
  end.

Definition from_floor (s : RoutingStrategy) (context : ExecutionContext.t)
  (r : VersionRouter.t) : result AgentVersion :=
  match s with
  | Pin => from_pin context r
  | TenantDefault => from_tenant context r
  | GlobalDefault => from_global r
  | Latest => from_latest r
  end.

Definition resolve (context : ExecutionContext.t)
  (strategy : option RoutingStrategy) (r : VersionRouter.t)
  : result AgentVersion :=
  match truthy (ExecutionContext.version context) with
  | Some v =>
      if AgentRegistry.has v (VersionRouter.registry r)
      then Ok v
      else Throw (RequestedVersionNotFound v)
  | None =>
      from_floor (match strategy with Some s => s | None => Pin end)
                 context r
  end.

End Chain.

(** The global configuration [g] with another list of available
    versions. *)
Definition with_availableVersions (available : list AgentVersion)
  (g : GlobalConfig.t) : GlobalConfig.t :=
  {| GlobalConfig.defaultVersion := GlobalConfig.defaultVersion g;
     GlobalConfig.availableVersions := available;
     GlobalConfig.globalCostLimits := GlobalConfig.globalCostLimits g |}.

(** The pin written by the migration for [userId], at time [now]. *)
Definition migrated_pin (now : Z) (userId : UserId)
  (fromVersion toVersion : AgentVersion) : UserVersionPin.t :=
  {| UserVersionPin.userId := userId;
     UserVersionPin.version := toVersion;
     UserVersionPin.pinnedAt := ValidDate now;
     UserVersionPin.reason := Some ("Migrated from " ++ fromVersion)%string |}.

(** Every version named by the router is registered: the version of each
    pin, the default version of each tenant configuration, and the
    default version of the global configuration. *)
Definition references_registered (r : VersionRouter.t) : bool :=
  forallb (fun e => AgentRegistry.has (UserVersionPin.version (snd e))
                                      (VersionRouter.registry r))
          (JsMap.entries (VersionRouter.userPins r))
  && forallb (fun e =>
                match truthy (TenantConfig.defaultVersion (snd e)) with
                | Some v => AgentRegistry.has v (VersionRouter.registry r)
                | None => true
                end)
             (JsMap.entries (VersionRouter.tenantConfigs r))
  && match VersionRouter.globalConfig r with
     | Some g => AgentRegistry.has (GlobalConfig.defaultVersion g)
                                   (VersionRouter.registry r)
     | None => true
     end.

(** The invariant of a router and its registry under careful use. *)
Definition router_invariant (r : VersionRouter.t) : bool :=
  registry_invariant (VersionRouter.registry r) && references_registered r.

(** Whether the router names [version] in a pin, a tenant default or the
    global default. *)
Definition referenced (version : AgentVersion) (r : VersionRouter.t) : bool :=
  existsb (fun e => (UserVersionPin.version (snd e) =? version)%string)
          (JsMap.entries (VersionRouter.userPins r))
  || existsb (fun e =>
                match truthy (TenantConfig.defaultVersion (snd e)) with
                | Some v => (v =? version)%string
                | None => false
                end)
             (JsMap.entries (VersionRouter.tenantConfigs r))
  || match VersionRouter.globalConfig r with
     | Some g => (GlobalConfig.defaultVersion g =? version)%string
     | None => false
     end.

(** A call that keeps the router's references registered: [remove] and
    [clear] do not delete a version the router still names, and
    [setGlobalConfig] and [setTenantConfig] return. [remove(v)] deletes
    [v] when [v] is registered and the call does not throw; [clear()]
    deletes every registered version. *)
Definition keeps_references (c : VersionRouter.Call) (r : VersionRouter.t)
  : bool :=
  match c with
  | VersionRouter.OnRegistry (AgentRegistry.Remove v) =>
      negb (referenced v r
            && AgentRegistry.has v (VersionRouter.registry r)
            && negb (VersionRouter.throws c r))
  | VersionRouter.OnRegistry AgentRegistry.Clear =>
      forallb (fun v => negb (referenced v r))
              (AgentRegistry.getVersions (VersionRouter.registry r))
  | VersionRouter.SetGlobalConfig _ | VersionRouter.SetTenantConfig _ _ =>
      negb (VersionRouter.throws c r)
  | _ => true
  end.

(** A run in which every call keeps the references registered. *)
Fixpoint careful_run (calls : list VersionRouter.Call) (r : VersionRouter.t)
  : bool :=
  match calls with
  | [] => true
  | c :: calls' => keeps_references c r && careful_run calls' (VersionRouter.exec c r)
  end.

(* ================================================================== *)
(** * Sample objects *)

Module Sample.

Definition config (v : AgentVersion) : AgentConfig.t :=
  {| AgentConfig.version := v;
     AgentConfig.prompt := "You are a helpful assistant.";
     AgentConfig.provider := "openai";
     AgentConfig.model := "gpt-4";
     AgentConfig.temperature := Finite (7 # 10);
     AgentConfig.maxTokens := None;
     AgentConfig.parameters := None;
     AgentConfig.metadata := None |}.

(** A registry on which the given versions were registered in order. *)
Definition registry_of (versions : list AgentVersion) : AgentRegistry.t :=
  AgentRegistry.run (map (fun v => AgentRegistry.Register (config v)) versions)
                    AgentRegistry.new.

Definition global (v : AgentVersion) (available : list AgentVersion)
  : GlobalConfig.t :=
  {| GlobalConfig.defaultVersion := v;
     GlobalConfig.availableVersions := available;
     GlobalConfig.globalCostLimits := None |}.

Definition tenant (tenantId : TenantId) (v : option AgentVersion)
  : TenantConfig.t :=
  {| TenantConfig.tenantId := tenantId;
     TenantConfig.defaultVersion := v;
     TenantConfig.promptOverrides := None;
     TenantConfig.costLimits := None;
     TenantConfig.features := None |}.

Definition context (userId : UserId) (tenantId : option TenantId)
  (v : option AgentVersion) : ExecutionContext.t :=
  {| ExecutionContext.userId := userId;
     ExecutionContext.tenantId := tenantId;
     ExecutionContext.version := v;
     ExecutionContext.input := "hi";
     ExecutionContext.context := None |}.

(** The clock whose [i]-th reading is [i] milliseconds. *)
Definition clock (i : nat) : Z := Z.of_nat i.

(** A router over a fresh registry, after the given calls. *)
Definition router_after (calls : list VersionRouter.Call) : VersionRouter.t :=
  VersionRouter.run calls (VersionRouter.new AgentRegistry.new).

Definition register (v : AgentVersion) : VersionRouter.Call :=
  VersionRouter.OnRegistry (AgentRegistry.Register (config v)).

End Sample.

(* ================================================================== *)
(** * [core/types.ts]: records of an execution *)

(** An integer held by a JavaScript number, such as a reading of
    [Date.now()] or a difference of two. *)
Definition number_of_Z (z : Z) : number := Finite (inject_Z z).

Module ExecutionCost.
Record t : Type := {
  amount : number;
  inputTokens : number;
  outputTokens : number;
  model : ModelId;
  provider : ModelProvider
}.
End ExecutionCost.

Module AgentExecutionResult.
Record Metadata : Type := {
  timestamp : Date;
  duration : number;
  guardrailsTriggered : option bool;
  warnings : option (list string)
}.

Record t : Type := {
  output : string;
  version : AgentVersion;
  cost : ExecutionCost.t;
  metadata : Metadata;
  rawResponse : option unknown
}.
End AgentExecutionResult.

Module ExecuteRequest.
Record t : Type := {
  context : ExecutionContext.t;
  routingStrategy : option string;
  forceVersion : option AgentVersion
}.
End ExecuteRequest.

Module AgentLogEntry.
Record t : Type := {
  id : string;
  timestamp : Date;
  userId : UserId;
  tenantId : option TenantId;
  version : AgentVersion;
  input : string;
  output : string;
  cost : ExecutionCost.t;
  duration : number;
  error : option string;
  metadata : option (list (string * unknown))
}.
End AgentLogEntry.

(* ================================================================== *)
(** * [core/logger.ts] *)

(** [a < b] on two [Date] objects: the comparison of their time values,
    false when either is invalid. *)
Definition date_lt (a b : Date) : bool :=
  match a, b with
  | ValidDate x, ValidDate y => (x <? y)%Z
  | _, _ => false
  end.

(** [a !== b] for [a : string | undefined] and a string [b]. *)
Definition differs (a : option string) (b : string) : bool :=
  match a with
  | Some s => negb (s =? b)%string
  | None => true
  end.

(** Class [InMemoryLogger]. *)
Module InMemoryLogger.

(** The argument of [queryLogs]. *)
Record Filters : Type := {
  userId : option string;
  tenantId : option string;
  version : option string;
  startTime : option Date;
  endTime : option Date
}.

(** The private field [logs]. *)
Definition t : Type := list AgentLogEntry.t.

Definition new : t := [].

(** [logExecution(entry)] *)
Definition logExecution (entry : AgentLogEntry.t) (logs : t) : t :=
  (logs ++ [entry])%list.

(** The callback of [filter] in [queryLogs]: a [Date] is an object, so a
    time filter that is present is truthy also when the date is
    invalid. *)
Definition keeps (filters : Filters) (log : AgentLogEntry.t) : bool :=
  if match truthy (userId filters) with
     | Some u => differs (Some (AgentLogEntry.userId log)) u
     | None => false
     end then false
  else if match truthy (tenantId filters) with
          | Some t => differs (AgentLogEntry.tenantId log) t
          | None => false
          end then false
  else if match truthy (version filters) with
          | Some v => differs (Some (AgentLogEntry.version log)) v
          | None => false
          end then false
  else if match startTime filters with
          | Some s => date_lt (AgentLogEntry.timestamp log) s
          | None => false
          end then false
  else if match endTime filters with
          | Some e => date_lt e (AgentLogEntry.timestamp log)
          | None => false
          end then false
  else true.

(** [queryLogs(filters)] *)
Definition queryLogs (filters : Filters) (logs : t) : list AgentLogEntry.t :=
  filter (keeps filters) logs.

(** [getAllLogs()] *)
Definition getAllLogs (logs : t) : list AgentLogEntry.t := logs.

(** [clear()] *)
Definition clear (logs : t) : t := [].

End InMemoryLogger.

(* ================================================================== *)
(** * [core/llm-provider.ts] and [core/agent-executor.ts] *)

Module AgentExecutor.

(** The two classes that implement [ILLMProvider]. *)
Inductive Provider : Type := OpenAIProvider | AnthropicProvider.

(** What [execute] can throw: an error of [resolveVersion], one of the
    errors raised in the executor, the factory and the providers, or an
    error coming out of a provider's SDK. *)
Inductive ExecError : Type :=
| RoutingError (e : Error)
| AgentVersionNotFound (version : AgentVersion)
| UnsupportedProvider (provider : string)
| OpenAIOnly
| AnthropicOnly
| SdkError (message : string).

(** [error.message] *)
Definition error_message (e : ExecError) : string :=
  match e with
  | RoutingError e' => message e'
  | AgentVersionNotFound v => "Agent version " ++ v ++ " not found"
  | UnsupportedProvider p => "Unsupported provider: " ++ p
  | OpenAIOnly => "OpenAIProvider can only handle OpenAI models"
  | AnthropicOnly => "AnthropicProvider can only handle Anthropic models"
  | SdkError m => m
  end.

(** The entries passed to [ILogger.log]. *)
Inductive Level : Type := info | warn | error.

Record LogLine : Type := {
  level : Level;
  message : string;
  data : option (list (string * unknown))
}.

(** [LLMResult] *)
Record LLMResult : Type := {
  text : string;
  cost : ExecutionCost.t;
  rawResponse : unknown
}.

(** What one call of [execute] takes from outside the program: the two
    readings of [Date.now()] in [execute], the reading of [new Date()],
    the reading of [Date.now()] and the value of
    [Math.random().toString(36).substr(2, 9)] in [createLogEntry];
    whether the SDK client built by a provider's constructor throws (the
    message, if it does); and, for a provider's [complete] once its guard
    has passed, the outcome of the request to the SDK and of assembling
    the result (the message of the rejection, or the result). *)
Record Env : Type := {
  startTime : Z;
  endTime : Z;
  timestamp : Z;
  entryTime : Z;
  random : string;
  client : Provider -> option string;
  request : Provider -> FinalConfig.t -> string -> string + LLMResult
}.

(** A promise that has settled. *)
Inductive settled (A : Type) : Type :=
| Resolved (a : A)
| Rejected (e : ExecError).
Arguments Resolved {A} a.
Arguments Rejected {A} e.

(** [LLMProviderFactory.create(provider)] *)
Definition create (env : Env) (provider : ModelProvider) : settled Provider :=
  if (provider =? "openai")%string then
    match client env OpenAIProvider with
    | Some m => Rejected (SdkError m)
    | None => Resolved OpenAIProvider
    end
  else if (provider =? "anthropic")%string then
    match client env AnthropicProvider with
    | Some m => Rejected (SdkError m)
    | None => Resolved AnthropicProvider
    end
  else Rejected (UnsupportedProvider provider).

(** [provider.complete(config, input)]: the guard of the provider's
    class, then the request. *)
Definition complete (env : Env) (provider : Provider) (config : FinalConfig.t)
  (input : string) : settled LLMResult :=
  if match provider with
     | OpenAIProvider => negb (FinalConfig.provider config =? "openai")%string
     | AnthropicProvider =>
         negb (FinalConfig.provider config =? "anthropic")%string
     end
  then Rejected (match provider with
                 | OpenAIProvider => OpenAIOnly
                 | AnthropicProvider => AnthropicOnly
                 end)
  else match request env provider config input with
       | inl m => Rejected (SdkError m)
       | inr llmResult => Resolved llmResult
       end.

(** [createLogEntry(context, result, error)] of [core/logger.ts]. *)
Definition createLogEntry (env : Env) (context : ExecutionContext.t)
  (result : AgentExecutionResult.t) (err : option ExecError) : AgentLogEntry.t :=
  {| AgentLogEntry.id :=
       "exec_" ++ DecimalString.NilZero.string_of_int (Z.to_int (entryTime env))
       ++ "_" ++ random env;
     AgentLogEntry.timestamp :=
       AgentExecutionResult.timestamp (AgentExecutionResult.metadata result);
     AgentLogEntry.userId := ExecutionContext.userId context;
     AgentLogEntry.tenantId := ExecutionContext.tenantId context;
     AgentLogEntry.version := AgentExecutionResult.version result;
     AgentLogEntry.input := ExecutionContext.input context;
     AgentLogEntry.output := AgentExecutionResult.output result;
     AgentLogEntry.cost := AgentExecutionResult.cost result;
     AgentLogEntry.duration :=
       AgentExecutionResult.duration (AgentExecutionResult.metadata result);
     AgentLogEntry.error := option_map error_message err;
     AgentLogEntry.metadata :=
       Some (match ExecutionContext.context context with
             | Some fields => fields
             | None => []
             end) |}.

(** The state of an executor: the private map [providers], and the
    entries passed so far to [logger.log] and to
    [structuredLogger.logExecution] (both taken to return normally, as
    the loggers of the repository do). The executor's [registry] is the
    registry of its [router], as [createAgentSystem] builds them. *)
Record t : Type := {
  providers : JsMap.t Provider;
  logger : list LogLine;
  structuredLogger : list AgentLogEntry.t
}.

(** [new AgentExecutor(registry, router)] *)
Definition new : t :=
  {| providers := JsMap.empty; logger := []; structuredLogger := [] |}.

(** [{...config, ...overrides}]: each key of the overrides that is
    present, also one that holds [undefined], is written over the
    configuration's. *)
Definition spread (config : FinalConfig.t) (overrides : TenantConfig.PromptOverrides)
  : FinalConfig.t :=
  {| FinalConfig.version := FinalConfig.version config;
     FinalConfig.prompt := FinalConfig.prompt config;
     FinalConfig.provider := FinalConfig.provider config;
     FinalConfig.model :=
       overwrite (FinalConfig.model config) (TenantConfig.model overrides);
     FinalConfig.temperature :=
       overwrite (FinalConfig.temperature config)
                 (TenantConfig.temperature overrides);
     FinalConfig.maxTokens :=
       overwrite (FinalConfig.maxTokens config) (TenantConfig.maxTokens overrides);
     FinalConfig.parameters := FinalConfig.parameters config;
     FinalConfig.metadata := FinalConfig.metadata config |}.

(** [applyTenantOverrides(config, context)] *)
Definition applyTenantOverrides (router : VersionRouter.t)
  (config : AgentConfig.t) (context : ExecutionContext.t) : FinalConfig.t :=
  match truthy (ExecutionContext.tenantId context) with
  | None => FinalConfig.of_config config
  | Some tenantId =>
      match VersionRouter.getTenantConfig tenantId router with
      | None => FinalConfig.of_config config
      | Some tenantConfig =>
          match TenantConfig.promptOverrides tenantConfig with
          | None => FinalConfig.of_config config
          | Some overrides => spread (FinalConfig.of_config config) overrides
          end
      end
  end.

(** A step of [execute]: it resolves or rejects, in a new state of the
    executor. *)
Definition X (A : Type) : Type := t -> settled A * t.

Definition resolve {A : Type} (a : A) : X A := fun ex => (Resolved a, ex).

Definition reject {A : Type} (e : ExecError) : X A := fun ex => (Rejected e, ex).

Definition settle {A : Type} (s : settled A) : X A := fun ex => (s, ex).

Definition and_then {A B : Type} (m : X A) (f : A -> X B) : X B :=
  fun ex =>
    match m ex with
    | (Resolved a, ex') => f a ex'
    | (Rejected e, ex') => (Rejected e, ex')
    end.

(** [this.logger.log(line)] and [this.structuredLogger.logExecution(entry)] *)
Definition log (line : LogLine) : X unit :=
  fun ex =>
    (Resolved tt,
     {| providers := providers ex;
        logger := (logger ex ++ [line])%list;
        structuredLogger := structuredLogger ex |}).

Definition logExecution (entry : AgentLogEntry.t) : X unit :=
  fun ex =>
    (Resolved tt,
     {| providers := providers ex;
        logger := logger ex;
        structuredLogger := (structuredLogger ex ++ [entry])%list |}).

(** "Get or create provider": the instance cached under the key, or a
    new one from the factory, which is then cached. *)
Definition provider_for (env : Env) (config : AgentConfig.t) : X Provider :=
  fun ex =>
    let providerKey :=
      AgentConfig.provider config ++ "-" ++ AgentConfig.model config in
    match JsMap.get providerKey (providers ex) with
    | Some provider => (Resolved provider, ex)
    | None =>
        match create env (AgentConfig.provider config) with
        | Resolved provider =>
            (Resolved provider,
             {| providers := JsMap.set providerKey provider (providers ex);
                logger := logger ex;
                structuredLogger := structuredLogger ex |})
        | Rejected e => (Rejected e, ex)
        end
    end.

Definition optional_string (o : option string) : unknown :=
  match o with Some s => JsString s | None => JsUndefined end.

(** The version an execution runs: [forceVersion || resolveVersion(...)]. *)
Definition select_version (router : VersionRouter.t) (req : ExecuteRequest.t)
  : settled AgentVersion :=
  match truthy (ExecuteRequest.forceVersion req) with
  | Some v => Resolved v
  | None =>
      match VersionRouter.resolveVersion (ExecuteRequest.context req)
              (ExecuteRequest.routingStrategy req) router with
      | Ok v => Resolved v
      | Throw e => Rejected (RoutingError e)
      end
  end.

(** The [try] block of [execute]. *)
Definition attempt (env : Env) (router : VersionRouter.t)
  (req : ExecuteRequest.t) : X AgentExecutionResult.t :=
  let context := ExecuteRequest.context req in
  and_then (settle (select_version router req)) (fun version =>
  and_then (log
    {| level := info;
       message := "Executing agent request";
       data := Some
         [("userId", JsString (ExecutionContext.userId context));
          ("tenantId", optional_string (ExecutionContext.tenantId context));
          ("version", JsString version);
          ("routingStrategy",
           JsString (match truthy (ExecuteRequest.routingStrategy req) with
                     | Some s => s
                     | None => "pin"
                     end))] |}) (fun _ =>
  and_then (settle (match AgentRegistry.get version (VersionRouter.registry router) with
                    | Some config => Resolved config
                    | None => Rejected (AgentVersionNotFound version)
                    end)) (fun config =>
  and_then (provider_for env config) (fun provider =>
  let finalConfig := applyTenantOverrides router config context in
  and_then (settle (complete env provider finalConfig
                      (ExecutionContext.input context))) (fun llmResult =>
  let duration := number_of_Z (endTime env - startTime env) in
  let result :=
    {| AgentExecutionResult.output := text llmResult;
       AgentExecutionResult.version := version;
       AgentExecutionResult.cost := cost llmResult;
       AgentExecutionResult.metadata :=
         {| AgentExecutionResult.timestamp := ValidDate (timestamp env);
            AgentExecutionResult.duration := duration;
            AgentExecutionResult.guardrailsTriggered := None;
            AgentExecutionResult.warnings := None |};
       AgentExecutionResult.rawResponse := Some (rawResponse llmResult) |} in
  and_then (log
    {| level := info;
       message := "Agent execution completed";
       data := Some
         [("userId", JsString (ExecutionContext.userId context));
          ("tenantId", optional_string (ExecutionContext.tenantId context));
          ("version", JsString version);
          ("cost", JsNumber (ExecutionCost.amount (cost llmResult)));
          ("duration", JsNumber duration);
          ("inputTokens", JsNumber (ExecutionCost.inputTokens (cost llmResult)));
          ("outputTokens",
           JsNumber (ExecutionCost.outputTokens (cost llmResult)))] |}) (fun _ =>
  and_then (logExecution (createLogEntry env context result None)) (fun _ =>
  resolve result))))))).

(** The result logged for a failed execution. *)
Definition errorResult (env : Env) : AgentExecutionResult.t :=
  {| AgentExecutionResult.output := "";
     AgentExecutionResult.version := "unknown";
     AgentExecutionResult.cost :=
       {| ExecutionCost.amount := number_of_Z 0;
          ExecutionCost.inputTokens := number_of_Z 0;
          ExecutionCost.outputTokens := number_of_Z 0;
          ExecutionCost.model := "unknown";
          ExecutionCost.provider := "openai" |};
     AgentExecutionResult.metadata :=
       {| AgentExecutionResult.timestamp := ValidDate (timestamp env);
          AgentExecutionResult.duration :=
            number_of_Z (endTime env - startTime env);
          AgentExecutionResult.guardrailsTriggered := None;
          AgentExecutionResult.warnings := None |};
     AgentExecutionResult.rawResponse := None |}.

(** The [catch] block of [execute]: it logs the failure and throws the
    error again. *)
Definition handler (env : Env) (req : ExecuteRequest.t) (e : ExecError)
  : X AgentExecutionResult.t :=
  let context := ExecuteRequest.context req in
  and_then (log
    {| level := error;
       message := "Agent execution failed";
       data := Some
         [("userId", JsString (ExecutionContext.userId context));
          ("tenantId", optional_string (ExecutionContext.tenantId context));
          ("duration", JsNumber (number_of_Z (endTime env - startTime env)));
          ("error", JsString (error_message e))] |}) (fun _ =>
  and_then (logExecution (createLogEntry env context (errorResult env) (Some e)))
    (fun _ => reject e)).

(** [execute(request)], run to the settlement of the promise it
    returns. *)
Definition execute (env : Env) (router : VersionRouter.t)
  (req : ExecuteRequest.t) : X AgentExecutionResult.t :=
  fun ex =>
    match attempt env router req ex with
    | (Resolved result, ex') => (Resolved result, ex')
    | (Rejected e, ex') => handler env req e ex'
    end.

End AgentExecutor.

(* ================================================================== *)
(** * [core/config-builder.ts]: class [ConfigBuilder] *)

(** The builder holds the registry and the router it was given; each
    method calls one of theirs and returns the builder, so a chain of
    calls is a sequence in the monad, over the state of the two
    objects. *)
Module ConfigBuilder.

(** [createAgentSystem()] *)
Definition createAgentSystem : VersionRouter.t :=
  VersionRouter.new AgentRegistry.new.

(** [withGlobalDefaults(config)] *)
Definition withGlobalDefaults (config : GlobalConfig.t)
  : M VersionRouter.t unit :=
  VersionRouter.setGlobalConfig config.

(** [registerAgent(config)] *)
Definition registerAgent (config : AgentConfig.t) : M VersionRouter.t unit :=
  VersionRouter.on_registry (AgentRegistry.register config).

(** [applyTenantOverrides(tenantId, config)] *)
Definition applyTenantOverrides (tenantId : TenantId) (config : TenantConfig.t)
  : M VersionRouter.t unit :=
  VersionRouter.setTenantConfig tenantId config.

(** [pinUser(userId, version, reason)] *)
Definition pinUser (now : Z) (userId : UserId) (version : AgentVersion)
  (reason : option string) : M VersionRouter.t unit :=
  VersionRouter.pinUser now userId version reason.

(** [build()]: the registry and the router. *)
Definition build (system : VersionRouter.t)
  : AgentRegistry.t * VersionRouter.t :=
  (VersionRouter.registry system, system).

(** The methods that return [this], and a chain
    [builder.m1(...).m2(...)...]: each call is made on the builder the
    call before it returned, and a call that throws ends the chain. *)
Inductive Step : Type :=
| WithGlobalDefaults (config : GlobalConfig.t)
| RegisterAgent (config : AgentConfig.t)
| ApplyTenantOverrides (tenantId : TenantId) (config : TenantConfig.t)
| PinUser (now : Z) (userId : UserId) (version : AgentVersion)
          (reason : option string).

Definition step (s : Step) : M VersionRouter.t unit :=
  match s with
  | WithGlobalDefaults config => withGlobalDefaults config
  | RegisterAgent config => registerAgent config
  | ApplyTenantOverrides tenantId config => applyTenantOverrides tenantId config
  | PinUser now userId version reason => pinUser now userId version reason
  end.

Fixpoint chain (steps : list Step) : M VersionRouter.t unit :=
  match steps with
  | [] => ret tt
  | s :: steps' => step s ;; chain steps'
  end.

End ConfigBuilder.

(** The invariant of the executor's map of providers: the instance
    cached under a key is of the class that the key names first. *)
Definition cache_consistent (providers : JsMap.t AgentExecutor.Provider) : bool :=
  forallb (fun e =>
             match snd e with
             | AgentExecutor.OpenAIProvider => String.prefix "openai-" (fst e)
             | AgentExecutor.AnthropicProvider =>
                 String.prefix "anthropic-" (fst e)
             end)
          (JsMap.entries providers).

(* ================================================================== *)
(** * Properties of [JsMap] *)

Ltac run_monad :=
  unfold forget, when, bind, ret, throw, modify, get_state in *;
  cbn [fst snd] in *.

Section JsMapFacts.
Context {V : Type}.
Implicit Types (m : JsMap.t V) (k : string) (v : V).

Lemma has_true_iff k m : JsMap.has k m = true <-> exists v, JsMap.get k m = Some v.
Proof.
  unfold JsMap.has. destruct (JsMap.get k m) as [v|].
  - split; [eauto | reflexivity].
  - split; [discriminate | intros [v H]; discriminate].
Qed.

Lemma has_in_keys k m : JsMap.has k m = true <-> In k (JsMap.keys m).
Proof.
  unfold JsMap.has. induction m as [|[k' v'] m IH]; cbn.
  - split; [discriminate | tauto].
  - destruct (String.eqb_spec k k') as [->|Hne].
    + split; auto.
    + rewrite IH. split; [auto | intros [H|H]; [congruence | exact H]].
Qed.

Lemma get_set_same k v m : JsMap.get k (JsMap.set k v m) = Some v.
Proof.
  induction m as [|[k' v'] m IH]; cbn.
  - now rewrite String.eqb_refl.
  - destruct (String.eqb_spec k k') as [->|Hne]; cbn.
    + now rewrite String.eqb_refl.
    + destruct (String.eqb_spec k k'); [contradiction | exact IH].
Qed.

Lemma get_set_other k k' v m :
  k' <> k -> JsMap.get k' (JsMap.set k v m) = JsMap.get k' m.
Proof.
  intros Hne. induction m as [|[k0 v0] m IH]; cbn.
  - destruct (String.eqb_spec k' k); [contradiction | reflexivity].
  - destruct (String.eqb_spec k k0) as [->|Hk]; cbn.
    + destruct (String.eqb_spec k' k0); [contradiction | reflexivity].
    + destruct (String.eqb_spec k' k0); [reflexivity | exact IH].
Qed.

Lemma has_set k k' v m :
  JsMap.has k' (JsMap.set k v m) = (k' =? k)%string || JsMap.has k' m.
Proof.
  unfold JsMap.has. destruct (String.eqb_spec k' k) as [->|Hne].
  - now rewrite get_set_same.
  - now rewrite get_set_other.
Qed.

Lemma keys_set k v m :
  JsMap.keys (JsMap.set k v m)
  = if JsMap.has k m then JsMap.keys m else (JsMap.keys m ++ [k])%list.
Proof.
  unfold JsMap.has, JsMap.keys.
  induction m as [|[k' v'] m IH]; cbn; [reflexivity|].
  destruct (String.eqb_spec k k') as [->|Hne]; cbn; [reflexivity|].
  rewrite IH. now destruct (JsMap.get k m).
Qed.

Lemma get_delete_same k m : JsMap.get k (JsMap.delete k m) = None.
Proof.
  unfold JsMap.delete. induction m as [|[k' v'] m IH]; cbn; [reflexivity|].
  destruct (String.eqb_spec k k') as [->|Hne]; cbn; [exact IH|].
  destruct (String.eqb_spec k k'); [contradiction | exact IH].
Qed.

Lemma get_delete_other k k' m :
  k' <> k -> JsMap.get k' (JsMap.delete k m) = JsMap.get k' m.
Proof.
  intros Hne. unfold JsMap.delete.
  induction m as [|[k0 v0] m IH]; cbn; [reflexivity|].
  destruct (String.eqb_spec k k0) as [->|Hk]; cbn.
  - destruct (String.eqb_spec k' k0); [contradiction | exact IH].
  - destruct (String.eqb_spec k' k0); [reflexivity | exact IH].
Qed.

Lemma has_delete k k' m :
  JsMap.has k' (JsMap.delete k m) = negb (k' =? k)%string && JsMap.has k' m.
Proof.
  unfold JsMap.has. destruct (String.eqb_spec k' k) as [->|Hne]; cbn.
  - now rewrite get_delete_same.
  - now rewrite get_delete_other.
Qed.

Lemma keys_delete k m :
  JsMap.keys (JsMap.delete k m)
  = filter (fun k' => negb (k =? k')%string) (JsMap.keys m).
Proof.
  unfold JsMap.delete, JsMap.keys.
  induction m as [|[k' v'] m IH]; cbn; [reflexivity|].
  destruct (k =? k')%string; cbn; now rewrite IH.
Qed.

Lemma get_in k v m : JsMap.get k m = Some v -> In (k, v) m.
Proof.
  induction m as [|[k' v'] m IH]; cbn; [discriminate|].
  destruct (String.eqb_spec k k') as [->|Hne].
  - intros [= ->]. now left.
  - intros H. right. auto.
Qed.
End JsMapFacts.

Lemma distinct_NoDup ks : JsMap.distinct ks = true <-> NoDup ks.
Proof.
  induction ks as [|k ks IH]; cbn.
  - split; [constructor | reflexivity].
  - rewrite andb_true_iff, negb_true_iff, IH. split.
    + intros [Hk Hd]. constructor; [|exact Hd].
      intros Hin. assert (existsb (String.eqb k) ks = true) as E.
      { apply existsb_exists. exists k. split; [exact Hin | apply String.eqb_refl]. }
      congruence.
    + intros Hnd. inversion Hnd as [|? ? Hnin Hd]; subst. split; [|exact Hd].
      destruct (existsb (String.eqb k) ks) eqn:E; [|reflexivity].
      apply existsb_exists in E as [k' [Hin Heq]].
      apply String.eqb_eq in Heq. subst. contradiction.
Qed.

Lemma wf_set {V : Type} k (v : V) m :
  JsMap.wf m = true -> JsMap.wf (JsMap.set k v m) = true.
Proof.
  unfold JsMap.wf. rewrite !distinct_NoDup, keys_set.
  destruct (JsMap.has k m) eqn:Hh; [auto|].
  intros Hnd. apply NoDup_app; [exact Hnd | repeat constructor; simpl; tauto |].
  intros x Hx [<-|[]]. apply has_in_keys in Hx. congruence.
Qed.

Lemma wf_delete {V : Type} k (m : JsMap.t V) :
  JsMap.wf m = true -> JsMap.wf (JsMap.delete k m) = true.
Proof.
  unfold JsMap.wf. rewrite !distinct_NoDup, keys_delete.
  apply NoDup_filter.
Qed.

(** In a well-formed map an entry is what [get] finds under its key. *)
Lemma wf_in_get {V : Type} k (v : V) m :
  JsMap.wf m = true -> In (k, v) m -> JsMap.get k m = Some v.
Proof.
  unfold JsMap.wf. rewrite distinct_NoDup.
  induction m as [|[k' v'] m IH]; cbn; [tauto|].
  intros Hnd [[= -> ->]|Hin].
  - now rewrite String.eqb_refl.
  - inversion Hnd as [|? ? Hnin Hd]; subst.
    destruct (String.eqb_spec k k') as [->|Hne].
    + exfalso. apply Hnin. change k' with (fst (k', v)). now apply in_map.
    + auto.
Qed.

#[global] Arguments JsMap.keys : simpl never.
#[global] Arguments JsMap.has : simpl never.
#[global] Arguments JsMap.delete : simpl never.
#[global] Arguments JsMap.set : simpl never.
#[global] Arguments JsMap.wf : simpl never.

(* ================================================================== *)
(** * The registry *)

(** What each call of the registry does, as one equation. *)
Lemma register_eq config r :
  AgentRegistry.register config r =
  match AgentConfigSchema_issues config with
  | [] =>
      (Ok tt,
       {| AgentRegistry.configs :=
            JsMap.set (AgentConfig.version config) config (AgentRegistry.configs r);
          AgentRegistry.defaultVersion :=
            if is_truthy (AgentRegistry.defaultVersion r)
            then AgentRegistry.defaultVersion r
            else Some (AgentConfig.version config) |})
  | issues => (Throw (ZodError issues), r)
  end.
Proof.
  unfold AgentRegistry.register, AgentConfigSchema_parse.
  destruct (AgentConfigSchema_issues config); run_monad; cbn; [|reflexivity].
  destruct r as [cs d]; cbn.
  destruct (is_truthy d); reflexivity.
Qed.

Lemma setDefaultVersion_eq v r :
  AgentRegistry.setDefaultVersion v r =
  if AgentRegistry.has v r
  then (Ok tt, AgentRegistry.set_defaultVersion (Some v) r)
  else (Throw (VersionNotFound v), r).
Proof.
  unfold AgentRegistry.setDefaultVersion, AgentRegistry.has. run_monad.
  destruct (JsMap.has v (AgentRegistry.configs r)); reflexivity.
Qed.

Lemma remove_eq v r :
  AgentRegistry.remove v r =
  if match AgentRegistry.defaultVersion r with
     | Some d => (d =? v)%string
     | None => false
     end
  then (Throw (CannotRemoveDefault v), r)
  else (Ok (AgentRegistry.has v r),
        AgentRegistry.set_configs (JsMap.delete v) r).
Proof.
  unfold AgentRegistry.remove, AgentRegistry.has. run_monad.
  destruct (AgentRegistry.defaultVersion r) as [d|]; [|reflexivity].
  destruct (d =? v)%string; reflexivity.
Qed.

Lemma clear_eq r : AgentRegistry.clear r = (Ok tt, AgentRegistry.new).
Proof. reflexivity. Qed.

Lemma schema_version_nonempty config :
  AgentConfigSchema_issues config = [] -> AgentConfig.version config <> "".
Proof.
  unfold AgentConfigSchema_issues. intros H Hv.
  rewrite Hv in H. cbn in H. discriminate.
Qed.

Lemma truthy_nonempty o v : truthy o = Some v -> o = Some v /\ v <> "".
Proof.
  unfold truthy. destruct o as [s|]; [|discriminate].
  destruct (String.eqb_spec s ""); [discriminate|].
  intros [= ->]. auto.
Qed.

Lemma truthy_some v : v <> "" -> truthy (Some v) = Some v.
Proof. intros H. cbn. now destruct (String.eqb_spec v ""). Qed.

Lemma registry_invariant_iff r :
  registry_invariant r = true <->
  JsMap.wf (AgentRegistry.configs r) = true
  /\ (forall k, In k (AgentRegistry.getVersions r) -> k <> "")
  /\ (forall d, AgentRegistry.defaultVersion r = Some d ->
                AgentRegistry.has d r = true).
Proof.
  unfold registry_invariant. rewrite !andb_true_iff, forallb_forall.
  split; intros [[Hw Hk] Hd]||intros [Hw [Hk Hd]].
  - repeat split; [exact Hw | |].
    + intros k Hin. apply Hk in Hin. apply negb_true_iff in Hin.
      now apply String.eqb_neq.
    + intros d E. now rewrite E in Hd.
  - repeat split; [exact Hw | |].
    + intros k Hin. apply negb_true_iff, String.eqb_neq. auto.
    + destruct (AgentRegistry.defaultVersion r); auto.
Qed.

(** Each call preserves the class invariant, whether it returns or throws. *)
Lemma exec_registry_invariant c r :
  registry_invariant r = true -> registry_invariant (AgentRegistry.exec c r) = true.
Proof.
  rewrite !registry_invariant_iff. intros [Hw [Hk Hd]].
  unfold AgentRegistry.exec.
  destruct c as [config|v|v|]; cbn [AgentRegistry.call].
  - rewrite register_eq.
    destruct (AgentConfigSchema_issues config) eqn:Hs; cbn [snd]; [|auto].
    apply schema_version_nonempty in Hs.
    unfold AgentRegistry.getVersions, AgentRegistry.has in *; cbn.
    repeat split.
    + now apply wf_set.
    + intros k. rewrite keys_set.
      destruct (JsMap.has (AgentConfig.version config) (AgentRegistry.configs r));
        [auto|].
      rewrite in_app_iff. intros [H|[<-|[]]]; auto.
    + intros d. rewrite has_set.
      destruct (is_truthy (AgentRegistry.defaultVersion r)).
      * intros E. rewrite (Hd d E). apply orb_true_r.
      * intros [= <-]. now rewrite String.eqb_refl.
  - rewrite setDefaultVersion_eq.
    destruct (AgentRegistry.has v r) eqn:Hh; cbn [snd]; [|auto].
    repeat split; auto. cbn. intros d [= <-]. exact Hh.
  - unfold forget, bind. rewrite remove_eq.
    destruct (AgentRegistry.defaultVersion r) as [d|] eqn:Ed.
    + destruct (String.eqb_spec d v) as [->|Hne]; cbn [snd ret].
      * rewrite Ed. auto.
      * unfold AgentRegistry.getVersions, AgentRegistry.has in *; cbn.
        repeat split.
        -- now apply wf_delete.
        -- intros k. rewrite keys_delete, filter_In. intros [H _]. auto.
        -- rewrite Ed. intros d' [= <-]. rewrite has_delete.
           rewrite (Hd d eq_refl).
           destruct (String.eqb_spec d v); [contradiction | reflexivity].
    + cbn [snd ret]. unfold AgentRegistry.getVersions, AgentRegistry.has in *; cbn.
      repeat split.
      * now apply wf_delete.
      * intros k. rewrite keys_delete, filter_In. intros [H _]. auto.
      * rewrite Ed. discriminate.
  - rewrite clear_eq. cbn. repeat split; [tauto | discriminate].
Qed.

Lemma run_registry_invariant calls r :
  registry_invariant r = true -> registry_invariant (AgentRegistry.run calls r) = true.
Proof.
  unfold AgentRegistry.run. revert r.
  induction calls as [|c calls IH]; cbn; intros r H; [exact H|].
  apply IH. now apply exec_registry_invariant.
Qed.

Lemma new_registry_invariant : registry_invariant AgentRegistry.new = true.
Proof. reflexivity. Qed.

(** C7. In every state reached from a new registry by [register],
    [setDefaultVersion], [remove] and [clear] calls (returning or
    throwing), a default version that is set names a version present in
    the configuration map. *)
Theorem default_version_is_registered :
  forall (calls : list AgentRegistry.Call) (d : AgentVersion),
    AgentRegistry.getDefaultVersion (AgentRegistry.run calls AgentRegistry.new)
      = Some d ->
    AgentRegistry.has d (AgentRegistry.run calls AgentRegistry.new) = true
    /\ exists config,
         AgentRegistry.get d (AgentRegistry.run calls AgentRegistry.new)
           = Some config.
Proof.
  intros calls d Hd.
  pose proof (run_registry_invariant calls _ new_registry_invariant) as Hinv.
  apply registry_invariant_iff in Hinv as [_ [_ Hdef]].
  specialize (Hdef d Hd). split; [exact Hdef|].
  now apply has_true_iff.
Qed.

Lemma default_version_is_registered_witness :
  let calls := [AgentRegistry.Register (Sample.config "v1.0");
                AgentRegistry.Register (Sample.config "v2.0");
                AgentRegistry.SetDefaultVersion "v2.0";
                AgentRegistry.Remove "v2.0";
                AgentRegistry.Remove "v1.0"] in
  AgentRegistry.getDefaultVersion (AgentRegistry.run calls AgentRegistry.new)
    = Some "v2.0"
  /\ AgentRegistry.has "v2.0" (AgentRegistry.run calls AgentRegistry.new) = true.
Proof.
  intros calls. split; [reflexivity|].
  apply (default_version_is_registered calls "v2.0"). reflexivity.
Defined.

(** C8. [remove(version)] on a registry that satisfies the class
    invariant: when [version] is the default version it throws (an
    invalid operation), the registry is unchanged and still holds the
    version; otherwise it returns whether the version was present, and
    leaves the registry without that entry, with every other entry and
    the default version as they were. *)
Theorem remove_spec :
  forall (r : AgentRegistry.t) (version : AgentVersion),
    registry_invariant r = true ->
    (AgentRegistry.getDefaultVersion r = Some version ->
       AgentRegistry.remove version r = (Throw (CannotRemoveDefault version), r)
       /\ kind (CannotRemoveDefault version) = InvalidOperationError
       /\ AgentRegistry.has version (snd (AgentRegistry.remove version r)) = true)
    /\ (AgentRegistry.getDefaultVersion r <> Some version ->
        exists r',
          AgentRegistry.remove version r = (Ok (AgentRegistry.has version r), r')
          /\ AgentRegistry.has version r' = false
          /\ (forall v, v <> version -> AgentRegistry.get v r' = AgentRegistry.get v r)
          /\ AgentRegistry.getDefaultVersion r' = AgentRegistry.getDefaultVersion r).
Proof.
  intros r version Hinv.
  apply registry_invariant_iff in Hinv as [_ [_ Hdef]].
  unfold AgentRegistry.getDefaultVersion. rewrite remove_eq. split.
  - intros Hd. rewrite Hd, String.eqb_refl. cbn [snd]. auto.
  - intros Hd.
    assert (match AgentRegistry.defaultVersion r with
            | Some d => (d =? version)%string
            | None => false
            end = false) as ->.
    { destruct (AgentRegistry.defaultVersion r) as [d|]; [|reflexivity].
      apply String.eqb_neq. congruence. }
    eexists. split; [reflexivity|].
    unfold AgentRegistry.has, AgentRegistry.get; cbn. repeat split.
    + rewrite has_delete, String.eqb_refl. reflexivity.
    + intros v Hv. now apply get_delete_other.
Qed.

Lemma remove_spec_witness :
  let r := Sample.registry_of ["v1.0"; "v2.0"] in
  registry_invariant r = true
  /\ AgentRegistry.getDefaultVersion r = Some "v1.0"
  /\ fst (AgentRegistry.remove "v1.0" r) = Throw (CannotRemoveDefault "v1.0")
  /\ snd (AgentRegistry.remove "v1.0" r) = r
  /\ fst (AgentRegistry.remove "v2.0" r) = Ok true
  /\ AgentRegistry.getVersions (snd (AgentRegistry.remove "v2.0" r)) = ["v1.0"]
  /\ fst (AgentRegistry.remove "v3.0" r) = Ok false.
Proof.
  intros r.
  destruct (remove_spec r "v1.0" eq_refl) as [Hdefault _].
  destruct (Hdefault eq_refl) as [E _].
  split; [reflexivity|]. split; [reflexivity|].
  rewrite E. repeat split; reflexivity.
Defined.

(* ================================================================== *)
(** * [getLatestVersion] *)

(** [\d] accepts the ten decimal digits and nothing else. *)
Lemma is_digit_decimal c : AgentRegistry.is_digit c = decimal_digit c.
Proof.
  destruct c as [[] [] [] [] [] [] [] []]; reflexivity.
Qed.

Lemma span_digits_spec s :
  forall ds rest, AgentRegistry.span_digits s = (ds, rest) ->
    s = ds ++ rest /\ digits_only ds = true /\ starts_with_digit rest = false.
Proof.
  induction s as [|c s IH]; cbn [AgentRegistry.span_digits]; intros ds rest E.
  - injection E as <- <-. auto.
  - rewrite is_digit_decimal in E. destruct (decimal_digit c) eqn:Hc.
    + destruct (AgentRegistry.span_digits s) as [ds' rest'].
      injection E as <- <-. destruct (IH _ _ eq_refl) as [-> [Hd Hr]].
      cbn [digits_only append]. rewrite Hc. auto.
    + injection E as <- <-. cbn [digits_only starts_with_digit append]. auto.
Qed.

Lemma span_digits_append ds rest :
  digits_only ds = true -> starts_with_digit rest = false ->
  AgentRegistry.span_digits (ds ++ rest) = (ds, rest).
Proof.
  induction ds as [|c ds IH]; cbn [digits_only append]; intros Hd Hr.
  - destruct rest as [|c rest]; [reflexivity|].
    cbn [AgentRegistry.span_digits starts_with_digit] in *.
    now rewrite is_digit_decimal, Hr.
  - apply andb_true_iff in Hd as [Hc Hd]. cbn [AgentRegistry.span_digits].
    rewrite is_digit_decimal, Hc, IH; auto.
Qed.

Lemma optional_v_spec v :
  exists pre, (pre = "" \/ pre = "v") /\ v = pre ++ AgentRegistry.optional_v v.
Proof.
  destruct v as [|c v]; [exists ""; auto|]. cbn.
  destruct (Ascii.eqb_spec c "v"%char) as [->|Hne].
  - exists "v". auto.
  - exists "". auto.
Qed.

Lemma optional_v_number pre g rest :
  pre = "" \/ pre = "v" -> number_text g ->
  AgentRegistry.optional_v (pre ++ g ++ rest) = g ++ rest.
Proof.
  intros [->| ->] [Hn Hd]; [|reflexivity].
  destruct g as [|c g]; [congruence|]. cbn in *.
  apply andb_true_iff in Hd as [Hc _].
  destruct (Ascii.eqb_spec c "v"%char) as [->|Hne]; [discriminate | reflexivity].
Qed.

Lemma literal_dot_spec s s' :
  AgentRegistry.literal_dot s = Some s' <-> s = "." ++ s'.
Proof.
  destruct s as [|c s]; cbn; [split; discriminate|].
  destruct (Ascii.eqb_spec c "."%char) as [->|Hne].
  - split; intros [= ->]; reflexivity.
  - split; [discriminate | intros [= -> _]; congruence].
Qed.

Lemma number_text_eqb g : number_text g -> (g =? "")%string = false.
Proof. intros [Hn _]. now apply String.eqb_neq. Qed.

(** The matcher accepts exactly the identifiers of the declared shape,
    with the same captures. *)
Lemma semver_match_iff v g1 g2 g3 :
  AgentRegistry.semver_match v = Some (g1, g2, g3) <-> matches_pattern v g1 g2 g3.
Proof.
  split.
  - unfold AgentRegistry.semver_match.
    destruct (optional_v_spec v) as [pre [Hpre Hv]].
    destruct (AgentRegistry.span_digits (AgentRegistry.optional_v v))
      as [d1 s1] eqn:E1.
    apply span_digits_spec in E1 as [E1 [Hd1 _]].
    destruct (String.eqb_spec d1 "") as [|Hn1]; [discriminate|].
    destruct (AgentRegistry.literal_dot s1) as [s2|] eqn:Edot1; [|discriminate].
    apply literal_dot_spec in Edot1 as ->.
    destruct (AgentRegistry.span_digits s2) as [d2 s3] eqn:E2.
    apply span_digits_spec in E2 as [-> [Hd2 Hr2]].
    destruct (String.eqb_spec d2 "") as [|Hn2]; [discriminate|].
    rewrite E1 in Hv. rewrite Hv.
    destruct (AgentRegistry.literal_dot s3) as [s4|] eqn:Edot2.
    + apply literal_dot_spec in Edot2 as ->.
      destruct (AgentRegistry.span_digits s4) as [d3 s5] eqn:E3.
      apply span_digits_spec in E3 as [-> [Hd3 Hr3]].
      destruct (String.eqb_spec d3 "") as [->|Hn3]; intros [= <- <- <-].
      * apply (matches_without_patch pre d1 d2 ("." ++ s5)); try (split; auto); auto.
        intros rest' [= <-]. exact Hr3.
      * apply (matches_with_patch pre d1 d2 d3 s5); try (split; auto); auto.
    + intros [= <- <- <-].
      apply (matches_without_patch pre d1 d2 s3); try (split; auto); auto.
      intros rest' ->.
      assert (AgentRegistry.literal_dot ("." ++ rest') = Some rest') as E
        by now apply literal_dot_spec.
      congruence.
  - intros H. unfold AgentRegistry.semver_match.
    destruct H as [pre g1 g2 g3 rest Hpre Hn1 Hn2 Hn3 Hr
                  |pre g1 g2 rest Hpre Hn1 Hn2 Hr Hdot].
    + rewrite (optional_v_number pre g1 _ Hpre Hn1).
      rewrite span_digits_append by (try apply Hn1; reflexivity).
      rewrite (number_text_eqb _ Hn1).
      rewrite (proj2 (literal_dot_spec ("." ++ g2 ++ "." ++ g3 ++ rest) _) eq_refl).
      rewrite span_digits_append by (try apply Hn2; reflexivity).
      rewrite (number_text_eqb _ Hn2).
      rewrite (proj2 (literal_dot_spec ("." ++ g3 ++ rest) _) eq_refl).
      rewrite span_digits_append by (try apply Hn3; auto).
      now rewrite (number_text_eqb _ Hn3).
    + rewrite (optional_v_number pre g1 _ Hpre Hn1).
      rewrite span_digits_append by (try apply Hn1; reflexivity).
      rewrite (number_text_eqb _ Hn1).
      rewrite (proj2 (literal_dot_spec ("." ++ g2 ++ rest) _) eq_refl).
      rewrite span_digits_append by (try apply Hn2; auto).
      rewrite (number_text_eqb _ Hn2).
      destruct (AgentRegistry.literal_dot rest) as [s4|] eqn:Edot; [|reflexivity].
      apply literal_dot_spec in Edot. specialize (Hdot s4 Edot).
      destruct (AgentRegistry.span_digits s4) as [d3 s5] eqn:E3.
      destruct s4 as [|c s4]; [cbn in E3; now injection E3 as <- <-|].
      cbn [starts_with_digit] in Hdot. cbn [AgentRegistry.span_digits] in E3.
      rewrite is_digit_decimal, Hdot in E3. now injection E3 as <- <-.
Qed.

(** ** Numbers that are held exactly *)

Lemma div_nearest_even_1 a : div_nearest_even a 1 = a.
Proof.
  unfold div_nearest_even. now rewrite Z.div_1_r, Z.mod_1_r.
Qed.

Lemma round_positive_exact p :
  (Zpos p < 2 ^ 53)%Z -> round_positive p 1 = Finite (inject_Z (Zpos p)).
Proof.
  intros Hp. unfold round_positive, binade.
  change (Z.log2 1) with 0%Z. rewrite Z.sub_0_r.
  pose proof (Z.log2_nonneg (Zpos p)) as H0.
  assert (H1 : (2 ^ Z.log2 (Zpos p) <= Zpos p)%Z) by (apply Z.log2_spec; lia).
  assert (H2 : (Z.log2 (Zpos p) < 53)%Z) by (apply Z.log2_lt_pow2; lia).
  destruct (Z.leb_spec 0 (Z.log2 (Zpos p))) as [_|]; [|lia].
  rewrite Z.mul_1_l.
  destruct (Z.leb_spec (2 ^ Z.log2 (Zpos p)) (Zpos p)) as [_|]; [|lia].
  rewrite Z.max_l by lia.
  destruct (Z.leb_spec 0 (Z.log2 (Zpos p) - 52)) as [Hu|Hu].
  - assert (Z.log2 (Zpos p) - 52 = 0)%Z as -> by lia.
    change (2 ^ 0)%Z with 1%Z. rewrite !Z.mul_1_r, div_nearest_even_1.
    destruct (Z.leb_spec (2 ^ 1024) (Zpos p)) as [Hbig|_]; [|reflexivity].
    assert (2 ^ 53 < 2 ^ 1024)%Z by (apply Z.pow_lt_mono_r; lia). lia.
  - rewrite div_nearest_even_1.
    set (k := (- (Z.log2 (Zpos p) - 52))%Z).
    assert (Hk : (0 < 2 ^ k)%Z) by (apply Z.pow_pos_nonneg; lia).
    f_equal.
    rewrite (Qred_complete _ (inject_Z (Zpos p))).
    + apply Qcanon.Qred_identity. unfold inject_Z. cbn [Qnum Qden].
      apply Z.gcd_1_r.
    + unfold Qeq, inject_Z. cbn [Qnum Qden]. rewrite Z2Pos.id by exact Hk. lia.
Qed.

(** An integer below 2^53 in absolute value is a number. *)
Lemma round_to_double_exact q :
  Qden q = 1%positive -> (Z.abs (Qnum q) < 2 ^ 53)%Z ->
  round_to_double q = Finite (inject_Z (Qnum q)).
Proof.
  destruct q as [n d]. cbn [Qnum Qden]. intros -> Hn.
  unfold round_to_double. cbn [Qnum Qden].
  destruct n as [|p|p]; [reflexivity | |].
  - apply round_positive_exact. lia.
  - rewrite round_positive_exact by lia. reflexivity.
Qed.

Lemma number_sub_exact x y :
  (Z.abs (x - y) < 2 ^ 53)%Z ->
  number_sub (Finite (inject_Z x)) (Finite (inject_Z y)) = Finite (inject_Z (x - y)).
Proof.
  intros H. cbn [number_sub].
  assert (E : Qnum (Qminus (inject_Z x) (inject_Z y)) = (x - y)%Z)
    by (cbn; lia).
  rewrite round_to_double_exact; [now rewrite E | reflexivity | now rewrite E].
Qed.

Lemma number_differs_exact x y :
  number_differs (Finite (inject_Z x)) (Finite (inject_Z y)) = negb (x =? y)%Z.
Proof.
  cbn [number_differs]. f_equal.
  destruct (Qeq_bool (inject_Z x) (inject_Z y)) eqn:E;
    destruct (Z.eqb_spec x y) as [Exy|Hne]; try reflexivity.
  - apply Qeq_bool_iff in E. unfold Qeq in E. cbn in E. lia.
  - subst y. rewrite (proj2 (Qeq_bool_iff _ _) (Qeq_refl _)) in E. discriminate.
Qed.

Lemma number_gt_exact z : number_gt (Finite (inject_Z z)) 0 = (0 <? z)%Z.
Proof.
  cbn [number_gt]. unfold Qle_bool. cbn [Qnum Qden inject_Z].
  rewrite Z.mul_1_r. cbn [Z.mul].
  destruct (Z.leb_spec z 0), (Z.ltb_spec 0 z); try reflexivity; lia.
Qed.

Lemma safe_integer n : (n < 2 ^ 53)%N -> (0 <= Z.of_N n < 2 ^ 53)%Z.
Proof.
  intros H. split; [apply N2Z.is_nonneg|].
  change (2 ^ 53)%Z with (Z.of_N (2 ^ 53)). now apply N2Z.inj_lt.
Qed.

(** ** The numbers that the identifiers write *)

Lemma digit_value_of c :
  decimal_digit c = true -> AgentRegistry.digit_value c = digit_of c.
Proof.
  destruct c as [[] [] [] [] [] [] [] []]; intros H;
    try discriminate H; reflexivity.
Qed.

Lemma parseInt_from_numeral s :
  forall acc, digits_only s = true ->
    AgentRegistry.parseInt_from acc s
    = (acc * 10 ^ N.of_nat (String.length s) + numeral_value s)%N.
Proof.
  induction s as [|c s IH];
    cbn [AgentRegistry.parseInt_from numeral_value String.length digits_only];
    intros acc Hd.
  - cbn [N.of_nat]. rewrite N.pow_0_r. lia.
  - apply andb_true_iff in Hd as [Hc Hd].
    rewrite IH by exact Hd. rewrite (digit_value_of c Hc).
    rewrite Nat2N.inj_succ, N.pow_succ_r'. lia.
Qed.

(** On a numeral that writes a safe integer, [parseInt] is exact. *)
Lemma parseInt_numeral g :
  digits_only g = true -> (numeral_value g < 2 ^ 53)%N ->
  AgentRegistry.parseInt g = Finite (inject_Z (Z.of_N (numeral_value g))).
Proof.
  intros Hd Hs. unfold AgentRegistry.parseInt.
  rewrite parseInt_from_numeral by exact Hd.
  rewrite N.mul_0_l, N.add_0_l.
  apply safe_integer in Hs.
  apply (round_to_double_exact (inject_Z (Z.of_N (numeral_value g))));
    [reflexivity | cbn [Qnum inject_Z]; lia].
Qed.

Section SortHead.
Context {A : Type} (cmp : A -> A -> number) (P : A -> Prop).
Hypothesis cmp_refl : forall a, P a -> number_gt (cmp a a) 0 = false.
Hypothesis cmp_trans :
  forall a b c, P a -> P b -> P c ->
    number_gt (cmp a b) 0 = false -> number_gt (cmp b c) 0 = false ->
    number_gt (cmp a c) 0 = false.
Hypothesis cmp_total :
  forall a b, P a -> P b ->
    number_gt (cmp a b) 0 = false \/ number_gt (cmp b a) 0 = false.

Lemma insert_sorted_in x y l :
  In y (AgentRegistry.insert_sorted cmp x l) <-> y = x \/ In y l.
Proof.
  induction l as [|z l IH]; cbn.
  - intuition.
  - destruct (number_gt (cmp x z) 0); cbn; [rewrite IH; intuition | intuition].
Qed.

Lemma sort_in y l : In y (AgentRegistry.sort cmp l) <-> In y l.
Proof.
  unfold AgentRegistry.sort. induction l as [|x l IH]; cbn; [tauto|].
  rewrite insert_sorted_in, IH. intuition.
Qed.

Lemma sort_nil l : AgentRegistry.sort cmp l = [] -> l = [].
Proof.
  destruct l as [|x l]; [reflexivity|]. intros E.
  assert (In x []) as []. rewrite <- E. apply sort_in. now left.
Qed.

(** On elements that the comparator orders consistently, the first
    element of the sorted array follows none. *)
Lemma sort_head l :
  (forall x, In x l -> P x) ->
  forall h t, AgentRegistry.sort cmp l = h :: t ->
    In h l /\ forall x, In x l -> number_gt (cmp h x) 0 = false.
Proof.
  intros HP h t E. split.
  { apply sort_in. rewrite E. now left. }
  revert HP h t E. unfold AgentRegistry.sort.
  induction l as [|x l IH]; cbn [fold_right]; intros HP h t E; [discriminate|].
  assert (HPx : P x) by (apply HP; now left).
  assert (HPl : forall y, In y l -> P y) by (intros y Hy; apply HP; now right).
  destruct (fold_right (AgentRegistry.insert_sorted cmp) [] l) as [|h' t'] eqn:Es.
  - cbn in E. injection E as <- <-.
    apply sort_nil in Es. subst l.
    intros y [<-|[]]. now apply cmp_refl.
  - assert (Hh' : In h' l).
    { apply sort_in. unfold AgentRegistry.sort. rewrite Es. now left. }
    specialize (IH HPl h' t' eq_refl).
    cbn [AgentRegistry.insert_sorted] in E.
    destruct (number_gt (cmp x h') 0) eqn:Hgt.
    + injection E as <- <-. intros y [<-|Hy]; [|auto].
      destruct (cmp_total h' x) as [H|H]; auto. congruence.
    + injection E as <- <-. intros y [<-|Hy]; [now apply cmp_refl|].
      apply (cmp_trans x h' y); auto.
Qed.
End SortHead.

(** Numeric order on triples is a total preorder. *)
Lemma triple_le_refl a : triple_le a a.
Proof. destruct a as [[a1 a2] a3]. cbn. lia. Qed.

Lemma triple_le_trans a b c : triple_le a b -> triple_le b c -> triple_le a c.
Proof.
  destruct a as [[a1 a2] a3], b as [[b1 b2] b3], c as [[c1 c2] c3]. cbn. lia.
Qed.

Lemma triple_le_total a b : triple_le a b \/ triple_le b a.
Proof. destruct a as [[a1 a2] a3], b as [[b1 b2] b3]. cbn. lia. Qed.

(** On versions whose numbers are safe integers, the comparator does not
    put [a] after [b] exactly when the triple of [b] is at most that of
    [a]. *)
Lemma compare_semver_exact a b ta tb :
  holds_triple a ta -> holds_triple b tb -> safe_triple ta -> safe_triple tb ->
  number_gt (AgentRegistry.compare_semver a b) 0 = false <-> triple_le tb ta.
Proof.
  destruct ta as [[a1 a2] a3], tb as [[b1 b2] b3].
  intros [Ha1 [Ha2 Ha3]] [Hb1 [Hb2 Hb3]] [Sa1 [Sa2 Sa3]] [Sb1 [Sb2 Sb3]].
  apply safe_integer in Sa1, Sa2, Sa3, Sb1, Sb2, Sb3.
  unfold AgentRegistry.compare_semver, triple_le.
  rewrite Ha1, Ha2, Ha3, Hb1, Hb2, Hb3, !number_differs_exact.
  destruct (Z.eqb_spec (Z.of_N a1) (Z.of_N b1)) as [E1|N1]; cbn [negb].
  - destruct (Z.eqb_spec (Z.of_N a2) (Z.of_N b2)) as [E2|N2]; cbn [negb];
      rewrite number_sub_exact, number_gt_exact by lia.
    + destruct (Z.ltb_spec 0 (Z.of_N b3 - Z.of_N a3)) as [Hlt|Hge];
        split; intros Hx; try discriminate; try reflexivity; lia.
    + destruct (Z.ltb_spec 0 (Z.of_N b2 - Z.of_N a2)) as [Hlt|Hge];
        split; intros Hx; try discriminate; try reflexivity; lia.
  - rewrite number_sub_exact, number_gt_exact by lia.
    destruct (Z.ltb_spec 0 (Z.of_N b1 - Z.of_N a1)) as [Hlt|Hge];
      split; intros Hx; try discriminate; try reflexivity; lia.
Qed.

Lemma in_non_null {A : Type} (a : A) l :
  In a (AgentRegistry.non_null l) <-> In (Some a) l.
Proof.
  induction l as [|[b|] l IH]; cbn; [tauto | |].
  - rewrite IH. split; intros [H|H]; auto; left; congruence.
  - rewrite IH. split; [auto | intros [H|H]; [discriminate | exact H]].
Qed.

Lemma parse_semver_version v sv :
  AgentRegistry.parse_semver v = Some sv -> AgentRegistry.version sv = v.
Proof.
  unfold AgentRegistry.parse_semver.
  destruct (AgentRegistry.semver_match v) as [[[g1 g2] g3]|]; [|discriminate].
  now intros [= <-].
Qed.

Lemma semver_triple_parse v sv :
  AgentRegistry.parse_semver v = Some sv -> semver_triple v = Some (triple_of sv).
Proof. unfold semver_triple. now intros ->. Qed.

(** The [map] callback parses exactly the identifiers that begin with
    the version pattern, and an identifier has one triple at most. *)
Lemma has_triple_parse v t :
  has_triple v t -> exists sv, AgentRegistry.parse_semver v = Some sv.
Proof.
  intros [g1 [g2 [g3 [Hm _]]]]. apply semver_match_iff in Hm.
  unfold AgentRegistry.parse_semver. rewrite Hm. eauto.
Qed.

Lemma parse_has_triple v sv :
  AgentRegistry.parse_semver v = Some sv -> exists t, has_triple v t.
Proof.
  unfold AgentRegistry.parse_semver.
  destruct (AgentRegistry.semver_match v) as [[[g1 g2] g3]|] eqn:Hm;
    [|discriminate].
  intros _. apply semver_match_iff in Hm.
  exists (version_triple g1 g2 g3), g1, g2, g3. auto.
Qed.

Lemma has_triple_unique v t t' : has_triple v t -> has_triple v t' -> t = t'.
Proof.
  intros [g1 [g2 [g3 [Hm ->]]]] [g1' [g2' [g3' [Hm' ->]]]].
  apply semver_match_iff in Hm, Hm'. congruence.
Qed.

Lemma matches_pattern_numerals v g1 g2 g3 :
  matches_pattern v g1 g2 g3 ->
  digits_only g1 = true /\ digits_only g2 = true
  /\ match g3 with Some g => digits_only g = true | None => True end.
Proof.
  intros [pre h1 h2 h3 rest _ [_ H1] [_ H2] [_ H3] _
         |pre h1 h2 rest _ [_ H1] [_ H2] _ _]; auto.
Qed.

(** The parsed version of an identifier whose triple is safe holds that
    triple. *)
Lemma parse_semver_holds v sv t :
  AgentRegistry.parse_semver v = Some sv ->
  has_triple v t -> safe_triple t -> holds_triple sv t.
Proof.
  intros Hp [g1 [g2 [g3 [Hm ->]]]] [S1 [S2 S3]].
  destruct (matches_pattern_numerals _ _ _ _ Hm) as [D1 [D2 D3]].
  apply semver_match_iff in Hm.
  unfold AgentRegistry.parse_semver in Hp. rewrite Hm in Hp.
  injection Hp as <-. unfold holds_triple, version_triple.
  cbn [AgentRegistry.major AgentRegistry.minor AgentRegistry.patch].
  split; [now apply parseInt_numeral|]. split; [now apply parseInt_numeral|].
  destruct g3 as [g|]; [now apply parseInt_numeral | reflexivity].
Qed.

(** The sorted array of parsed versions holds exactly the registered
    identifiers that match the pattern. *)
Lemma in_semanticVersions sv versions :
  In sv (AgentRegistry.semanticVersions versions) <->
  In (AgentRegistry.version sv) versions
  /\ AgentRegistry.parse_semver (AgentRegistry.version sv) = Some sv.
Proof.
  unfold AgentRegistry.semanticVersions.
  rewrite sort_in, in_non_null, in_map_iff. split.
  - intros [v [Hp Hin]]. pose proof (parse_semver_version _ _ Hp) as <-. auto.
  - intros [Hin Hp]. eauto.
Qed.

Lemma semanticVersions_head versions best rest :
  AgentRegistry.semanticVersions versions = best :: rest ->
  In (AgentRegistry.version best) versions
  /\ AgentRegistry.parse_semver (AgentRegistry.version best) = Some best.
Proof.
  intros E.
  assert (In best (AgentRegistry.semanticVersions versions)) as Hin
    by (rewrite E; now left).
  now apply in_semanticVersions in Hin.
Qed.

Lemma semanticVersions_nil versions :
  AgentRegistry.semanticVersions versions = [] ->
  forall v, In v versions -> AgentRegistry.parse_semver v = None.
Proof.
  intros E v Hv.
  destruct (AgentRegistry.parse_semver v) as [sv|] eqn:Hp; [|reflexivity].
  assert (In sv (AgentRegistry.semanticVersions versions)) as Hs.
  { apply in_semanticVersions. rewrite (parse_semver_version _ _ Hp). auto. }
  rewrite E in Hs. destruct Hs.
Qed.

(** When the triples of the identifiers are safe, every parsed version
    holds the triple of its identifier. *)
Lemma parsed_versions_hold versions :
  (forall v t, In v versions -> has_triple v t -> safe_triple t) ->
  forall sv, In sv (AgentRegistry.non_null (map AgentRegistry.parse_semver versions)) ->
    exists t, holds_triple sv t /\ safe_triple t
              /\ has_triple (AgentRegistry.version sv) t.
Proof.
  intros Hsafe sv Hin.
  apply in_non_null, in_map_iff in Hin as [v [Hp Hv]].
  destruct (parse_has_triple _ _ Hp) as [t Ht].
  pose proof (Hsafe v t Hv Ht) as Hs.
  exists t. rewrite (parse_semver_version _ _ Hp).
  split; [now apply (parse_semver_holds v)|]. auto.
Qed.

Lemma compare_semver_consistent :
  let P := fun sv => exists t, holds_triple sv t /\ safe_triple t in
  (forall a, P a -> number_gt (AgentRegistry.compare_semver a a) 0 = false)
  /\ (forall a b c, P a -> P b -> P c ->
        number_gt (AgentRegistry.compare_semver a b) 0 = false ->
        number_gt (AgentRegistry.compare_semver b c) 0 = false ->
        number_gt (AgentRegistry.compare_semver a c) 0 = false)
  /\ (forall a b, P a -> P b ->
        number_gt (AgentRegistry.compare_semver a b) 0 = false
        \/ number_gt (AgentRegistry.compare_semver b a) 0 = false).
Proof.
  cbv zeta. split; [|split].
  - intros a [ta [Ha Sa]].
    apply (compare_semver_exact a a ta ta); auto. apply triple_le_refl.
  - intros a b c [ta [Ha Sa]] [tb [Hb Sb]] [tc [Hc Sc]].
    rewrite (compare_semver_exact a b ta tb), (compare_semver_exact b c tb tc),
      (compare_semver_exact a c ta tc) by assumption.
    intros H1 H2. eapply triple_le_trans; eauto.
  - intros a b [ta [Ha Sa]] [tb [Hb Sb]].
    rewrite (compare_semver_exact a b ta tb), (compare_semver_exact b a tb ta)
      by assumption.
    destruct (triple_le_total ta tb); auto.
Qed.

(** When the triples of the identifiers are safe, the first of the
    sorted versions has the greatest. *)
Lemma semanticVersions_greatest versions best rest :
  (forall v t, In v versions -> has_triple v t -> safe_triple t) ->
  AgentRegistry.semanticVersions versions = best :: rest ->
  exists tb, has_triple (AgentRegistry.version best) tb
             /\ forall v tv, In v versions -> has_triple v tv -> triple_le tv tb.
Proof.
  intros Hsafe E.
  pose proof (parsed_versions_hold versions Hsafe) as Hhold.
  destruct compare_semver_consistent as [Hrefl [Htrans Htotal]].
  unfold AgentRegistry.semanticVersions in E.
  destruct (sort_head AgentRegistry.compare_semver
              (fun sv => exists t, holds_triple sv t /\ safe_triple t)
              Hrefl Htrans Htotal _
              (fun sv Hin => match Hhold sv Hin with
                             | ex_intro _ t (conj H1 (conj H2 _)) =>
                                 ex_intro _ t (conj H1 H2)
                             end)
              _ _ E) as [Hbest Hmin].
  destruct (Hhold best Hbest) as [tb [Hb [Sb Htb]]].
  exists tb. split; [exact Htb|].
  intros v tv Hv Htv.
  destruct (has_triple_parse _ _ Htv) as [sv Hp].
  assert (Hin : In sv (AgentRegistry.non_null
                         (map AgentRegistry.parse_semver versions))).
  { apply in_non_null. rewrite <- Hp. now apply in_map. }
  pose proof (Hsafe v tv Hv Htv) as Sv.
  pose proof (parse_semver_holds v sv tv Hp Htv Sv) as Hsv.
  apply (compare_semver_exact best sv tb tv); auto.
Qed.

(** C4 (amended). On a registry that satisfies the class invariant,
    [getLatestVersion()] returns nothing exactly when no version is
    registered. When some registered identifier begins with the version
    pattern, and the major, minor and patch numbers of every such
    identifier are below 2^53, it returns a registered identifier that
    begins with the pattern and whose (major, minor, patch) triple, the
    patch number counting as 0 when there is none, is numerically the
    greatest among them. When no registered identifier begins with the
    pattern, it returns the default version if one is set, and some
    registered version otherwise. *)
Theorem getLatestVersion_spec :
  forall r : AgentRegistry.t,
    registry_invariant r = true ->
    (AgentRegistry.getLatestVersion r = None <-> AgentRegistry.getVersions r = [])
    /\ ((exists v t, AgentRegistry.has v r = true /\ has_triple v t) ->
        (forall v t, AgentRegistry.has v r = true -> has_triple v t ->
                     safe_triple t) ->
        exists w tw,
          AgentRegistry.getLatestVersion r = Some w
          /\ AgentRegistry.has w r = true
          /\ has_triple w tw
          /\ forall v tv,
               AgentRegistry.has v r = true -> has_triple v tv -> triple_le tv tw)
    /\ ((forall v t, AgentRegistry.has v r = true -> ~ has_triple v t) ->
        (forall d, AgentRegistry.getDefaultVersion r = Some d ->
                   AgentRegistry.getLatestVersion r = Some d)
        /\ (AgentRegistry.getDefaultVersion r = None ->
            AgentRegistry.getVersions r <> [] ->
            exists w, AgentRegistry.getLatestVersion r = Some w
                      /\ AgentRegistry.has w r = true)).
Proof.
  intros r Hinv. apply registry_invariant_iff in Hinv as [_ [Hne Hdef]].
  assert (Hin : forall v, AgentRegistry.has v r = true <->
                          In v (AgentRegistry.getVersions r))
    by (intros v; apply has_in_keys).
  unfold AgentRegistry.getDefaultVersion, AgentRegistry.getLatestVersion.
  destruct (AgentRegistry.getVersions r) as [|first rest] eqn:Ev.
  { split; [tauto|]. split.
    - intros [v [t [Hv _]]]. apply Hin in Hv. destruct Hv.
    - intros _. split; [|congruence].
      intros d Hd. apply Hdef, Hin in Hd. destruct Hd. }
  destruct (AgentRegistry.semanticVersions (first :: rest))
    as [|best others] eqn:Es.
  - pose proof (semanticVersions_nil _ Es) as Hnone.
    split; [|split].
    + destruct (truthy (AgentRegistry.defaultVersion r)); split; discriminate.
    + intros [v [t [Hv Ht]]] _. apply Hin, Hnone in Hv.
      destruct (has_triple_parse _ _ Ht) as [sv Hp]. congruence.
    + intros _. split.
      * intros d Hd. rewrite Hd. rewrite truthy_some; [reflexivity|].
        apply Hne. apply Hin. auto.
      * intros Hd _. rewrite Hd. cbn. exists first. split; [reflexivity|].
        apply Hin. now left.
  - destruct (semanticVersions_head _ _ _ Es) as [Hbin Hbp].
    split; [split; discriminate|]. split.
    + intros _ Hsafe.
      destruct (semanticVersions_greatest (first :: rest) best others) as [tb [Htb Hmax]];
        [intros v t Hv; apply Hsafe; now apply Hin | exact Es |].
      exists (AgentRegistry.version best), tb.
      split; [reflexivity|]. split; [now apply Hin|]. split; [exact Htb|].
      intros v tv Hv. apply Hmax. now apply Hin.
    + intros Hnone. apply Hin in Hbin.
      destruct (parse_has_triple _ _ Hbp) as [t Ht].
      destruct (Hnone _ t Hbin Ht).
Qed.

Lemma getLatestVersion_spec_witness :
  let r := Sample.registry_of ["v1.0"; "v10.0"; "v2.0"; "stable"] in
  registry_invariant r = true
  /\ AgentRegistry.has "v10.0" r = true
  /\ has_triple "v10.0" (10, 0, 0)%N
  /\ exists w tw,
       AgentRegistry.getLatestVersion r = Some w
       /\ has_triple w tw
       /\ triple_le (10, 0, 0)%N tw.
Proof.
  intros r.
  assert (H10 : has_triple "v10.0" (10, 0, 0)%N).
  { exists "10", "0", None. split; [|reflexivity].
    now apply semver_match_iff. }
  destruct (getLatestVersion_spec r eq_refl) as [_ [Hbest _]].
  destruct Hbest as [w [tw [Hw [_ [Ht Hmax]]]]].
  { exists "v10.0", (10, 0, 0)%N. split; [reflexivity | exact H10]. }
  { intros v t Hv [g1 [g2 [g3 [Hm ->]]]]. apply semver_match_iff in Hm.
    apply has_in_keys in Hv.
    destruct Hv as [<-|[<-|[<-|[<-|[]]]]]; vm_compute in Hm;
      try discriminate Hm; injection Hm as <- <- <-; vm_compute; auto. }
  split; [reflexivity|]. split; [reflexivity|]. split; [exact H10|].
  exists w, tw. split; [exact Hw|]. split; [exact Ht|].
  apply (Hmax "v10.0"); [reflexivity | exact H10].
Defined.

(** C4 as stated, for every registry, does not hold: the numbers are
    compared as the language holds them, and from 2^53 on two different
    integers can be held as the same number. Of the identifiers
    "v9007199254740993.0" and "v9007199254740992.1" the first has the
    greater major number, both major numbers are held as
    9007199254740992, and the second is returned for its minor number. *)
Lemma getLatestVersion_compares_rounded_numbers :
  ~ (forall r : AgentRegistry.t,
       registry_invariant r = true ->
       (exists v t, AgentRegistry.has v r = true /\ has_triple v t) ->
       exists w tw,
         AgentRegistry.getLatestVersion r = Some w
         /\ has_triple w tw
         /\ forall v tv,
              AgentRegistry.has v r = true -> has_triple v tv -> triple_le tv tw).
Proof.
  intros H.
  assert (H1 : has_triple "v9007199254740993.0" (9007199254740993, 0, 0)%N).
  { exists "9007199254740993", "0", None. split; [|reflexivity].
    now apply semver_match_iff. }
  assert (H2 : has_triple "v9007199254740992.1" (9007199254740992, 1, 0)%N).
  { exists "9007199254740992", "1", None. split; [|reflexivity].
    now apply semver_match_iff. }
  destruct (H (Sample.registry_of ["v9007199254740993.0"; "v9007199254740992.1"])
              eq_refl) as [w [tw [Hw [Ht Hmax]]]].
  { exists "v9007199254740993.0", (9007199254740993, 0, 0)%N.
    split; [reflexivity | exact H1]. }
  vm_compute in Hw. injection Hw as <-.
  rewrite (has_triple_unique _ _ _ Ht H2) in Hmax.
  specialize (Hmax "v9007199254740993.0" _ eq_refl H1).
  cbn in Hmax. lia.
Qed.

(** The two documented examples of [getLatestVersion()]: the comparison
    is numeric, in whatever order the versions were registered. *)
Lemma getLatestVersion_examples :
  AgentRegistry.getLatestVersion (Sample.registry_of ["v1.0"; "v2.0"; "v2.1"])
    = Some "v2.1"
  /\ AgentRegistry.getLatestVersion (Sample.registry_of ["v2.1"; "v1.0"; "v2.0"])
    = Some "v2.1"
  /\ AgentRegistry.getLatestVersion (Sample.registry_of ["v1.0"; "v10.0"; "v2.0"])
    = Some "v10.0"
  /\ AgentRegistry.getLatestVersion (Sample.registry_of ["v10.0"; "v2.0"; "v1.0"])
    = Some "v10.0"
  /\ AgentRegistry.getLatestVersion (Sample.registry_of ["stable"; "beta"])
    = Some "stable"
  /\ AgentRegistry.getLatestVersion (Sample.registry_of []) = None.
Proof. repeat split; vm_compute; reflexivity. Qed.

(* ================================================================== *)
(** * The router *)

(** What each call of the router does, as one equation. *)
Lemma setGlobalConfig_eq config r :
  VersionRouter.setGlobalConfig config r =
  if AgentRegistry.has (GlobalConfig.defaultVersion config) (VersionRouter.registry r)
  then (Ok tt,
        VersionRouter.set_registry
          (AgentRegistry.set_defaultVersion
             (Some (GlobalConfig.defaultVersion config)) (VersionRouter.registry r))
          (VersionRouter.set_globalConfig (Some config) r))
  else (Throw (DefaultVersionNotFound (GlobalConfig.defaultVersion config)),
        VersionRouter.set_globalConfig (Some config) r).
Proof.
  unfold VersionRouter.setGlobalConfig, VersionRouter.on_registry. run_monad.
  cbn [VersionRouter.set_globalConfig VersionRouter.registry].
  destruct (AgentRegistry.has (GlobalConfig.defaultVersion config)
              (VersionRouter.registry r)) eqn:Hh; cbn [negb]; [|reflexivity].
  rewrite setDefaultVersion_eq.
  cbn [VersionRouter.set_globalConfig VersionRouter.registry].
  now rewrite Hh.
Qed.

Lemma pinUser_eq now userId version reason r :
  VersionRouter.pinUser now userId version reason r =
  if AgentRegistry.has version (VersionRouter.registry r)
  then (Ok tt,
        VersionRouter.set_userPins
          (JsMap.set userId
             {| UserVersionPin.userId := userId;
                UserVersionPin.version := version;
                UserVersionPin.pinnedAt := ValidDate now;
                UserVersionPin.reason := reason |}) r)
  else (Throw (VersionNotFound version), r).
Proof.
  unfold VersionRouter.pinUser. run_monad.
  destruct (AgentRegistry.has version (VersionRouter.registry r)); reflexivity.
Qed.

Lemma unpinUser_eq userId r :
  VersionRouter.unpinUser userId r =
  (Ok (JsMap.has userId (VersionRouter.userPins r)),
   VersionRouter.set_userPins (JsMap.delete userId) r).
Proof. reflexivity. Qed.

Lemma setTenantConfig_eq tenantId config r :
  VersionRouter.setTenantConfig tenantId config r =
  (match truthy (TenantConfig.defaultVersion config) with
   | Some v =>
       if AgentRegistry.has v (VersionRouter.registry r)
       then Ok tt
       else Throw (TenantDefaultVersionNotFound v)
   | None => Ok tt
   end,
   VersionRouter.set_tenantConfigs (JsMap.set tenantId config) r).
Proof.
  unfold VersionRouter.setTenantConfig. run_monad.
  cbn [VersionRouter.set_tenantConfigs VersionRouter.registry].
  destruct (truthy (TenantConfig.defaultVersion config)) as [v|]; [|reflexivity].
  destruct (AgentRegistry.has v (VersionRouter.registry r)); reflexivity.
Qed.

Lemma migrateUsers_eq clock fromVersion toVersion r :
  VersionRouter.migrateUsers clock fromVersion toVersion r =
  if AgentRegistry.has toVersion (VersionRouter.registry r)
  then VersionRouter.migrate_loop clock 0 fromVersion toVersion
         (VersionRouter.getUsersPinnedToVersion fromVersion r) 0 r
  else (Throw (TargetVersionNotFound toVersion), r).
Proof.
  unfold VersionRouter.migrateUsers. run_monad.
  destruct (AgentRegistry.has toVersion (VersionRouter.registry r)); reflexivity.
Qed.

(** The loop of [migrateUsers], run with a registered target: it returns
    the number of users it was given added to the count so far, changes
    nothing but the pins, re-pins each given user and leaves every other
    pin as it was. *)
Lemma migrate_loop_spec fromVersion toVersion clock users :
  forall i migrated r,
    AgentRegistry.has toVersion (VersionRouter.registry r) = true ->
    exists pins',
      VersionRouter.migrate_loop clock i fromVersion toVersion users migrated r
      = (Ok (migrated + length users),
         VersionRouter.set_userPins (fun _ => pins') r)
      /\ (forall u, In u users ->
            exists now, JsMap.get u pins'
                        = Some (migrated_pin now u fromVersion toVersion))
      /\ (forall u, ~ In u users ->
            JsMap.get u pins' = JsMap.get u (VersionRouter.userPins r))
      /\ (JsMap.wf (VersionRouter.userPins r) = true -> JsMap.wf pins' = true).
Proof.
  induction users as [|u users IH]; intros i migrated r Hto;
    cbn [VersionRouter.migrate_loop].
  - exists (VersionRouter.userPins r). run_monad. repeat split.
    + cbn [length]. rewrite Nat.add_0_r. now destruct r.
    + intros u [].
    + auto.
  - unfold bind. rewrite pinUser_eq, Hto. cbn beta iota.
    match goal with
    | |- context [VersionRouter.migrate_loop _ _ _ _ _ _ ?r1] =>
        destruct (IH (S i) (migrated + 1) r1 Hto) as [pins' [E [Hin [Hout Hwf]]]]
    end.
    cbn [VersionRouter.userPins VersionRouter.set_userPins] in Hout, Hwf.
    exists pins'. repeat split.
    + rewrite E. cbn [length]. f_equal. f_equal. lia.
    + intros u' Hu'.
      destruct (in_dec string_dec u' users) as [Hi|Hni]; [auto|].
      destruct Hu' as [<-|Hu']; [|contradiction].
      exists (clock i). rewrite (Hout u Hni). apply get_set_same.
    + intros u' Hu'. rewrite Hout by (intros H; apply Hu'; now right).
      apply get_set_other. intros ->. apply Hu'. now left.
    + intros Hw. apply Hwf. now apply wf_set.
Qed.

(** In a well-formed pin map, the users listed for a version are exactly
    those whose pin names it, each listed once. *)
Lemma getUsersPinnedToVersion_spec version r :
  JsMap.wf (VersionRouter.userPins r) = true ->
  NoDup (VersionRouter.getUsersPinnedToVersion version r)
  /\ forall u,
       In u (VersionRouter.getUsersPinnedToVersion version r) <->
       exists pin, VersionRouter.getUserPin u r = Some pin
                   /\ UserVersionPin.version pin = version.
Proof.
  intros Hwf. unfold VersionRouter.getUsersPinnedToVersion,
    VersionRouter.getUserPin, JsMap.entries.
  split.
  - apply distinct_NoDup in Hwf. unfold JsMap.keys in Hwf.
    induction (VersionRouter.userPins r) as [|[k p] m IH]; cbn; [constructor|].
    inversion Hwf as [|? ? Hnin Hnd]; subst.
    destruct (UserVersionPin.version p =? version)%string; cbn; [|auto].
    constructor; [|auto].
    intros Hin. apply Hnin. apply in_map_iff in Hin as [[k' p'] [Hk Hf]].
    apply filter_In in Hf as [Hf _]. cbn in Hk. subst.
    change k with (fst (k, p')). now apply in_map.
  - intros u. rewrite in_map_iff. split.
    + intros [[k p] [Hk Hf]]. cbn in Hk. subst k.
      apply filter_In in Hf as [Hf Hv]. cbn in Hv. apply String.eqb_eq in Hv.
      exists p. split; [now apply wf_in_get | exact Hv].
    + intros [pin [Hg Hv]]. exists (u, pin). split; [reflexivity|].
      apply filter_In. split; [now apply get_in|].
      cbn. now apply String.eqb_eq.
Qed.

(** C5. With the pins forming a map and [toVersion] registered,
    [migrateUsers(fromVersion, toVersion)] returns the number of users
    pinned to [fromVersion] when it is called; afterwards each of them is
    pinned to [toVersion] with the reason ["Migrated from " ++ fromVersion],
    the pin of every other user is as it was, and nothing else in the
    router or the registry has changed. *)
Theorem migrateUsers_spec :
  forall (clock : nat -> Z) (r : VersionRouter.t)
         (fromVersion toVersion : AgentVersion),
    JsMap.wf (VersionRouter.userPins r) = true ->
    AgentRegistry.has toVersion (VersionRouter.registry r) = true ->
    exists (users : list UserId) (r' : VersionRouter.t),
      NoDup users
      /\ (forall u, In u users <->
            exists pin, VersionRouter.getUserPin u r = Some pin
                        /\ UserVersionPin.version pin = fromVersion)
      /\ VersionRouter.migrateUsers clock fromVersion toVersion r
         = (Ok (length users), r')
      /\ (forall u, In u users ->
            exists now,
              VersionRouter.getUserPin u r'
              = Some {| UserVersionPin.userId := u;
                        UserVersionPin.version := toVersion;
                        UserVersionPin.pinnedAt := ValidDate now;
                        UserVersionPin.reason :=
                          Some ("Migrated from " ++ fromVersion)%string |})
      /\ (forall u, ~ In u users ->
            VersionRouter.getUserPin u r' = VersionRouter.getUserPin u r)
      /\ VersionRouter.registry r' = VersionRouter.registry r
      /\ VersionRouter.tenantConfigs r' = VersionRouter.tenantConfigs r
      /\ VersionRouter.globalConfig r' = VersionRouter.globalConfig r.
Proof.
  intros clock r fromVersion toVersion Hwf Hto.
  destruct (getUsersPinnedToVersion_spec fromVersion r Hwf) as [Hnd Huser].
  destruct (migrate_loop_spec fromVersion toVersion clock
              (VersionRouter.getUsersPinnedToVersion fromVersion r) 0 0 r Hto)
    as [pins' [E [Hin [Hout _]]]].
  exists (VersionRouter.getUsersPinnedToVersion fromVersion r),
         (VersionRouter.set_userPins (fun _ => pins') r).
  split; [exact Hnd|]. split; [exact Huser|].
  split; [now rewrite migrateUsers_eq, Hto, E|].
  unfold VersionRouter.getUserPin; cbn. repeat split; auto.
Qed.

Lemma migrateUsers_spec_witness :
  let r := Sample.router_after
             [Sample.register "v1.0"; Sample.register "v2.0";
              Sample.register "v2.1";
              VersionRouter.PinUser 10 "alice" "v2.1" (Some "Early adopter");
              VersionRouter.PinUser 20 "bob" "v2.1" None;
              VersionRouter.PinUser 30 "carol" "v2.0" None;
              VersionRouter.PinUser 40 "dave" "v2.1" None] in
  JsMap.wf (VersionRouter.userPins r) = true
  /\ AgentRegistry.has "v2.0" (VersionRouter.registry r) = true
  /\ fst (VersionRouter.migrateUsers Sample.clock "v2.1" "v2.0" r) = Ok 3
  /\ exists (users : list UserId) (r' : VersionRouter.t),
       VersionRouter.migrateUsers Sample.clock "v2.1" "v2.0" r
         = (Ok (length users), r')
       /\ VersionRouter.registry r' = VersionRouter.registry r.
Proof.
  intros r.
  destruct (migrateUsers_spec Sample.clock r "v2.1" "v2.0" eq_refl eq_refl)
    as [users [r' [_ [_ [E [_ [_ [Hreg _]]]]]]]].
  repeat split; try reflexivity.
  exists users, r'. split; [exact E | exact Hreg].
Defined.

(** After a migration between two different versions no user is left on
    the source version. *)
Lemma migrateUsers_leaves_none clock r fromVersion toVersion :
  JsMap.wf (VersionRouter.userPins r) = true ->
  AgentRegistry.has toVersion (VersionRouter.registry r) = true ->
  fromVersion <> toVersion ->
  let r1 := snd (VersionRouter.migrateUsers clock fromVersion toVersion r) in
  VersionRouter.getUsersPinnedToVersion fromVersion r1 = []
  /\ AgentRegistry.has toVersion (VersionRouter.registry r1) = true.
Proof.
  intros Hwf Hto Hne.
  destruct (getUsersPinnedToVersion_spec fromVersion r Hwf) as [_ Huser].
  destruct (migrate_loop_spec fromVersion toVersion clock
              (VersionRouter.getUsersPinnedToVersion fromVersion r) 0 0 r Hto)
    as [pins' [E [Hin [Hout Hwf']]]].
  rewrite migrateUsers_eq, Hto, E. cbn [snd].
  split; [|exact Hto].
  set (r1 := VersionRouter.set_userPins (fun _ => pins') r).
  assert (JsMap.wf (VersionRouter.userPins r1) = true) as Hwf1 by (cbn; auto).
  destruct (getUsersPinnedToVersion_spec fromVersion r1 Hwf1) as [_ Huser1].
  destruct (VersionRouter.getUsersPinnedToVersion fromVersion r1) as [|u us] eqn:El;
    [reflexivity|].
  exfalso.
  destruct (proj1 (Huser1 u) (or_introl eq_refl)) as [pin [Hg Hv]].
  unfold VersionRouter.getUserPin in Hg. cbn in Hg.
  destruct (in_dec string_dec u
              (VersionRouter.getUsersPinnedToVersion fromVersion r)) as [Hi|Hni].
  - destruct (Hin u Hi) as [now Hm]. rewrite Hm in Hg. injection Hg as <-.
    cbn in Hv. congruence.
  - rewrite (Hout u Hni) in Hg. apply Hni, Huser. eauto.
Qed.

(** C6 (amended). With the pins forming a map, [toVersion] registered and
    [fromVersion] different from [toVersion], a second run of
    [migrateUsers(fromVersion, toVersion)] after a completed first run
    returns 0 and leaves the whole state, every pin included, as the
    first run left it. *)
Theorem migrateUsers_idempotent :
  forall (clock1 clock2 : nat -> Z) (r : VersionRouter.t)
         (fromVersion toVersion : AgentVersion),
    JsMap.wf (VersionRouter.userPins r) = true ->
    AgentRegistry.has toVersion (VersionRouter.registry r) = true ->
    fromVersion <> toVersion ->
    let r1 := snd (VersionRouter.migrateUsers clock1 fromVersion toVersion r) in
    VersionRouter.migrateUsers clock2 fromVersion toVersion r1 = (Ok 0, r1).
Proof.
  intros clock1 clock2 r fromVersion toVersion Hwf Hto Hne r1.
  destruct (migrateUsers_leaves_none clock1 r fromVersion toVersion Hwf Hto Hne)
    as [Hnone Hto1].
  fold r1 in Hnone, Hto1.
  now rewrite migrateUsers_eq, Hto1, Hnone.
Qed.

Lemma migrateUsers_idempotent_witness :
  let r := Sample.router_after
             [Sample.register "v2.0"; Sample.register "v2.1";
              VersionRouter.PinUser 10 "alice" "v2.1" None;
              VersionRouter.PinUser 20 "bob" "v2.1" None;
              VersionRouter.PinUser 30 "carol" "v2.0" None] in
  let r1 := snd (VersionRouter.migrateUsers Sample.clock "v2.1" "v2.0" r) in
  JsMap.wf (VersionRouter.userPins r) = true
  /\ AgentRegistry.has "v2.0" (VersionRouter.registry r) = true
  /\ "v2.1" <> "v2.0"
  /\ fst (VersionRouter.migrateUsers Sample.clock "v2.1" "v2.0" r) = Ok 2
  /\ VersionRouter.migrateUsers Sample.clock "v2.1" "v2.0" r1 = (Ok 0, r1).
Proof.
  intros r r1.
  assert ("v2.1" <> "v2.0") as Hne by discriminate.
  split; [reflexivity|]. split; [reflexivity|]. split; [exact Hne|].
  split; [reflexivity|].
  exact (migrateUsers_idempotent Sample.clock Sample.clock r "v2.1" "v2.0"
           eq_refl eq_refl Hne).
Defined.

(** C6 as stated, for every pair of versions, does not hold: a migration
    from a version to itself finds the same users again on the second
    run. *)
Lemma migrateUsers_same_version_repeats :
  ~ (forall (clock1 clock2 : nat -> Z) (r : VersionRouter.t)
            (fromVersion toVersion : AgentVersion),
       JsMap.wf (VersionRouter.userPins r) = true ->
       AgentRegistry.has toVersion (VersionRouter.registry r) = true ->
       let r1 := snd (VersionRouter.migrateUsers clock1 fromVersion toVersion r) in
       VersionRouter.migrateUsers clock2 fromVersion toVersion r1 = (Ok 0, r1)).
Proof.
  intros H.
  specialize (H Sample.clock Sample.clock
                (Sample.router_after
                   [Sample.register "v1.0";
                    VersionRouter.PinUser 10 "alice" "v1.0" None])
                "v1.0" "v1.0" eq_refl eq_refl).
  cbv zeta in H. apply (f_equal fst) in H. vm_compute in H. discriminate.
Qed.

(** C9. [rollback(fromVersion, toVersion)] returns the same count, throws
    the same error and leaves the same state as
    [migrateUsers(fromVersion, toVersion)] run from the same state with
    the same clock readings. *)
Theorem rollback_is_migrateUsers :
  forall (clock : nat -> Z) (fromVersion toVersion : AgentVersion)
         (r : VersionRouter.t),
    VersionRouter.rollback clock fromVersion toVersion r
    = VersionRouter.migrateUsers clock fromVersion toVersion r.
Proof. intros clock fromVersion toVersion r. reflexivity. Qed.

(** [resolveVersion] reads the global configuration through its default
    version only. *)
Lemma resolveVersion_global_default context strategy r g1 g2 :
  GlobalConfig.defaultVersion g1 = GlobalConfig.defaultVersion g2 ->
  VersionRouter.globalConfig r = Some g1 ->
  forall r',
    VersionRouter.registry r' = VersionRouter.registry r ->
    VersionRouter.userPins r' = VersionRouter.userPins r ->
    VersionRouter.tenantConfigs r' = VersionRouter.tenantConfigs r ->
    VersionRouter.globalConfig r' = Some g2 ->
    VersionRouter.resolveVersion context strategy r'
    = VersionRouter.resolveVersion context strategy r.
Proof.
  intros Hd Hg r' Hreg Hpins Htc Hg'.
  unfold VersionRouter.resolveVersion, VersionRouter.block_explicit,
    VersionRouter.block_pin, VersionRouter.block_tenant,
    VersionRouter.block_global, VersionRouter.block_latest.
  now rewrite Hreg, Hpins, Htc, Hg, Hg', Hd.
Qed.

(** C10. [setGlobalConfig] checks [defaultVersion] only: whatever the
    list [availableVersions] holds, registered or not, the call returns
    when the default version is registered and throws when it is not.
    Two global configurations that differ in [availableVersions] only give
    the same result of [resolveVersion], for every context and
    strategy, both as the stored configuration and after
    [setGlobalConfig]. *)
Theorem availableVersions_is_ignored :
  forall (g : GlobalConfig.t) (available : list AgentVersion)
         (r : VersionRouter.t),
    let g' := with_availableVersions available g in
    fst (VersionRouter.setGlobalConfig g' r)
      = (if AgentRegistry.has (GlobalConfig.defaultVersion g)
                              (VersionRouter.registry r)
         then Ok tt
         else Throw (DefaultVersionNotFound (GlobalConfig.defaultVersion g)))
    /\ fst (VersionRouter.setGlobalConfig g' r)
         = fst (VersionRouter.setGlobalConfig g r)
    /\ (forall context strategy,
          VersionRouter.resolveVersion context strategy
            (VersionRouter.set_globalConfig (Some g') r)
          = VersionRouter.resolveVersion context strategy
              (VersionRouter.set_globalConfig (Some g) r))
    /\ (forall context strategy,
          VersionRouter.resolveVersion context strategy
            (snd (VersionRouter.setGlobalConfig g' r))
          = VersionRouter.resolveVersion context strategy
              (snd (VersionRouter.setGlobalConfig g r))).
Proof.
  intros g available r g'.
  rewrite !setGlobalConfig_eq.
  change (GlobalConfig.defaultVersion g') with (GlobalConfig.defaultVersion g).
  split; [now destruct (AgentRegistry.has _ _)|].
  split; [now destruct (AgentRegistry.has _ _)|].
  split; intros context strategy.
  - apply (resolveVersion_global_default context strategy
             (VersionRouter.set_globalConfig (Some g) r) g g'); reflexivity.
  - destruct (AgentRegistry.has _ _); cbn [snd].
    + apply (resolveVersion_global_default context strategy
               (VersionRouter.set_registry
                  (AgentRegistry.set_defaultVersion
                     (Some (GlobalConfig.defaultVersion g))
                     (VersionRouter.registry r))
                  (VersionRouter.set_globalConfig (Some g) r)) g g');
        reflexivity.
    + apply (resolveVersion_global_default context strategy
               (VersionRouter.set_globalConfig (Some g) r) g g'); reflexivity.
Qed.

(** An instance of C10: a configuration listing unregistered versions is
    accepted, and resolution does not look at the list. *)
Lemma availableVersions_is_ignored_example :
  let r := Sample.router_after [Sample.register "v1.0"] in
  let g := Sample.global "v1.0" ["v7.0"; "ghost"] in
  AgentRegistry.has "v7.0" (VersionRouter.registry r) = false
  /\ fst (VersionRouter.setGlobalConfig g r) = Ok tt
  /\ VersionRouter.resolveVersion (Sample.context "alice" None None)
       (Some "global-default") (snd (VersionRouter.setGlobalConfig g r))
     = Ok "v1.0".
Proof. repeat split; reflexivity. Qed.

(** The latest version of a registry that satisfies the class invariant
    is a registered, non-empty identifier. *)
Lemma getLatestVersion_registered r v :
  registry_invariant r = true ->
  AgentRegistry.getLatestVersion r = Some v ->
  AgentRegistry.has v r = true /\ v <> "".
Proof.
  intros Hinv. apply registry_invariant_iff in Hinv as [_ [Hne Hdef]].
  assert (Hkey : In v (AgentRegistry.getVersions r) ->
                 AgentRegistry.has v r = true /\ v <> "").
  { intros Hin. split; [now apply has_in_keys | auto]. }
  unfold AgentRegistry.getLatestVersion.
  destruct (AgentRegistry.getVersions r) as [|first rest] eqn:Ev; [discriminate|].
  destruct (AgentRegistry.semanticVersions (first :: rest))
    as [|best others] eqn:Es.
  - destruct (truthy (AgentRegistry.defaultVersion r)) as [d|] eqn:Ed.
    + intros [= <-]. apply truthy_nonempty in Ed as [Ed Hd]. auto.
    + intros [= <-]. apply Hkey. now left.
  - intros [= <-]. apply Hkey.
    now destruct (semanticVersions_head _ _ _ Es) as [Hin _].
Qed.

Lemma getLatestVersion_none r :
  AgentRegistry.getLatestVersion r = None <-> AgentRegistry.getVersions r = [].
Proof.
  unfold AgentRegistry.getLatestVersion.
  destruct (AgentRegistry.getVersions r) as [|first rest]; [tauto|].
  destruct (AgentRegistry.semanticVersions (first :: rest));
    [destruct (truthy (AgentRegistry.defaultVersion r))|]; split; discriminate.
Qed.

(** C2. On a router whose registry satisfies the class invariant,
    [resolveVersion] follows the documented chain. A context that carries
    an explicit version gets that version when it is registered and a
    not-found error otherwise, whatever the strategy. Without one, the
    strategy names where the chain starts: ["pin"] (also when no strategy
    is given) at the user's pin, ["tenant-default"] at the default version
    of the context's tenant, ["global-default"] at the global default
    version, ["latest"] at the registry's latest version, each falling
    through to the next when it has nothing to return; the last step
    throws a not-found error exactly when the registry is empty. The
    explicit version wins for every value of the strategy argument, a
    token outside the four names included. *)
Theorem resolveVersion_follows_chain :
  forall (context : ExecutionContext.t) (strategy : option RoutingStrategy)
         (r : VersionRouter.t),
    registry_invariant (VersionRouter.registry r) = true ->
    VersionRouter.resolveVersion context (option_map strategy_token strategy) r
      = Chain.resolve context strategy r
    /\ (forall (token : option string) (v : AgentVersion),
          truthy (ExecutionContext.version context) = Some v ->
          VersionRouter.resolveVersion context token r
          = if AgentRegistry.has v (VersionRouter.registry r)
            then Ok v
            else Throw (RequestedVersionNotFound v))
    /\ (Chain.from_latest r = Throw NoVersionsAvailable <->
        AgentRegistry.getVersions (VersionRouter.registry r) = [])
    /\ (forall v, kind (RequestedVersionNotFound v) = NotFoundError)
    /\ kind NoVersionsAvailable = NotFoundError.
Proof.
  intros context strategy r Hinv.
  assert (Hlatest :
    (match truthy (AgentRegistry.getLatestVersion (VersionRouter.registry r)) with
     | Some latest => Some (Ok latest)
     | None => Some (Throw NoVersionsAvailable)
     end) = Some (Chain.from_latest r)).
  { unfold Chain.from_latest.
    destruct (AgentRegistry.getLatestVersion (VersionRouter.registry r))
      as [v|] eqn:El; [|reflexivity].
    destruct (getLatestVersion_registered _ _ Hinv El) as [_ Hv].
    now rewrite (truthy_some v Hv). }
  split; [|split; [|split; [|split; reflexivity]]].
  - unfold VersionRouter.resolveVersion, Chain.resolve,
      VersionRouter.block_explicit.
    destruct (truthy (ExecutionContext.version context)) as [v|].
    { now destruct (AgentRegistry.has v (VersionRouter.registry r)). }
    unfold VersionRouter.or_next at 1.
    unfold VersionRouter.block_latest, VersionRouter.block_global,
      VersionRouter.block_tenant, VersionRouter.block_pin.
    unfold Chain.from_floor, Chain.from_pin, Chain.from_tenant,
      Chain.from_global, Chain.tenant_default, Chain.global_default,
      VersionRouter.getUserPin, VersionRouter.getTenantConfig,
      VersionRouter.getGlobalConfig.
    destruct strategy as [[| | |]|];
      cbn [option_map strategy_token truthy String.eqb Ascii.eqb Bool.eqb
           orb andb];
      rewrite ?Hlatest;
      repeat match goal with
        | |- context [match ?x with _ => _ end] =>
            lazymatch x with
            | JsMap.get _ _ => destruct x
            | truthy _ => destruct x
            | (_ =? _)%string => destruct x
            | VersionRouter.globalConfig _ => destruct x
            end; cbn [VersionRouter.or_next]
        end;
      reflexivity.
  - intros token v Hv.
    unfold VersionRouter.resolveVersion, VersionRouter.block_explicit.
    rewrite Hv. now destruct (AgentRegistry.has v (VersionRouter.registry r)).
  - unfold Chain.from_latest.
    rewrite <- getLatestVersion_none.
    destruct (AgentRegistry.getLatestVersion (VersionRouter.registry r));
      split; congruence.
Qed.

Lemma resolveVersion_follows_chain_witness :
  let r := Sample.router_after
             [Sample.register "v1.0"; Sample.register "v2.0";
              Sample.register "v2.1"; Sample.register "v3.0";
              VersionRouter.SetGlobalConfig (Sample.global "v1.0" []);
              VersionRouter.SetTenantConfig "acme"
                (Sample.tenant "acme" (Some "v2.0"));
              VersionRouter.PinUser 10 "alice" "v2.1" None] in
  registry_invariant (VersionRouter.registry r) = true
  /\ VersionRouter.resolveVersion (Sample.context "alice" (Some "acme") None)
       (Some "tenant-default") r = Ok "v2.0"
  /\ VersionRouter.resolveVersion (Sample.context "alice" (Some "acme") None)
       (Some "tenant-default") r
     = Chain.resolve (Sample.context "alice" (Some "acme") None)
         (Some TenantDefault) r.
Proof.
  intros r. split; [reflexivity|]. split; [reflexivity|].
  exact (proj1 (resolveVersion_follows_chain
                  (Sample.context "alice" (Some "acme") None)
                  (Some TenantDefault) r eq_refl)).
Defined.

(** The documented priority scenario: explicit version, user pin, tenant
    default, global default and latest version all different. *)
Lemma resolution_priority_example :
  let r := Sample.router_after
             [Sample.register "v1.0"; Sample.register "v2.0";
              Sample.register "v2.1"; Sample.register "v3.0";
              Sample.register "v4.0";
              VersionRouter.SetGlobalConfig (Sample.global "v1.0" []);
              VersionRouter.SetTenantConfig "acme"
                (Sample.tenant "acme" (Some "v2.0"));
              VersionRouter.PinUser 10 "alice" "v2.1" None] in
  VersionRouter.resolveVersion
    (Sample.context "alice" (Some "acme") (Some "v3.0")) None r = Ok "v3.0"
  /\ VersionRouter.resolveVersion
       (Sample.context "alice" (Some "acme") (Some "v9.9")) (Some "latest") r
     = Throw (RequestedVersionNotFound "v9.9")
  /\ VersionRouter.resolveVersion
       (Sample.context "alice" (Some "acme") None) None r = Ok "v2.1"
  /\ VersionRouter.resolveVersion
       (Sample.context "bob" (Some "acme") None) (Some "pin") r = Ok "v2.0"
  /\ VersionRouter.resolveVersion
       (Sample.context "bob" None None) (Some "pin") r = Ok "v1.0"
  /\ VersionRouter.resolveVersion
       (Sample.context "alice" (Some "acme") None) (Some "tenant-default") r
     = Ok "v2.0"
  /\ VersionRouter.resolveVersion
       (Sample.context "alice" (Some "acme") None) (Some "global-default") r
     = Ok "v1.0"
  /\ VersionRouter.resolveVersion
       (Sample.context "alice" (Some "acme") None) (Some "latest") r
     = Ok "v4.0"
  /\ VersionRouter.resolveVersion
       (Sample.context "alice" (Some "acme") None) (Some "newest") r
     = Throw (UnknownRoutingStrategy "newest")
  /\ VersionRouter.resolveVersion (Sample.context "x" None None) None
       (Sample.router_after [Sample.register "v1.0"]) = Ok "v1.0"
  /\ VersionRouter.resolveVersion (Sample.context "x" None None) None
       (Sample.router_after []) = Throw NoVersionsAvailable.
Proof. repeat split; reflexivity. Qed.

(* ================================================================== *)
(** * Registered results of [resolveVersion] *)

Lemma in_set {V : Type} (e : string * V) k v m :
  In e (JsMap.set k v m) -> e = (k, v) \/ In e m.
Proof.
  unfold JsMap.set. induction m as [|[k' v'] m IH]; cbn.
  - intros [<-|[]]. now left.
  - destruct (k =? k')%string; cbn.
    + intros [<-|H]; auto.
    + intros [<-|H]; [auto|]. destruct (IH H); auto.
Qed.

Lemma in_delete {V : Type} (e : string * V) k m :
  In e (JsMap.delete k m) -> In e m.
Proof. unfold JsMap.delete. rewrite filter_In. tauto. Qed.

(** The loop of [migrateUsers] touches the pins only, and every pin it
    leaves was there before or names the target version. *)
Lemma migrate_loop_frame fromVersion toVersion clock users :
  forall i migrated r,
    let r' := snd (VersionRouter.migrate_loop clock i fromVersion toVersion
                     users migrated r) in
    VersionRouter.registry r' = VersionRouter.registry r
    /\ VersionRouter.tenantConfigs r' = VersionRouter.tenantConfigs r
    /\ VersionRouter.globalConfig r' = VersionRouter.globalConfig r
    /\ forall e, In e (VersionRouter.userPins r') ->
                 In e (VersionRouter.userPins r)
                 \/ UserVersionPin.version (snd e) = toVersion.
Proof.
  induction users as [|u users IH]; intros i migrated r;
    cbn [VersionRouter.migrate_loop].
  - cbn. auto.
  - unfold bind. rewrite pinUser_eq.
    destruct (AgentRegistry.has toVersion (VersionRouter.registry r));
      cbn beta iota; [|cbn; auto].
    match goal with
    | |- context [VersionRouter.migrate_loop _ _ _ _ _ _ ?r1] =>
        destruct (IH (S i) (migrated + 1) r1) as [Hreg [Htc [Hg Hpins]]]
    end.
    cbn [VersionRouter.registry VersionRouter.tenantConfigs
         VersionRouter.globalConfig VersionRouter.userPins
         VersionRouter.set_userPins] in Hreg, Htc, Hg, Hpins.
    cbv zeta. repeat split; [exact Hreg | exact Htc | exact Hg |].
    intros e He. destruct (Hpins e He) as [H|H]; [|auto].
    apply in_set in H as [->|H]; auto.
Qed.

Lemma references_registered_iff r :
  references_registered r = true <->
  (forall u pin, In (u, pin) (VersionRouter.userPins r) ->
     AgentRegistry.has (UserVersionPin.version pin) (VersionRouter.registry r) = true)
  /\ (forall t c v, In (t, c) (VersionRouter.tenantConfigs r) ->
        truthy (TenantConfig.defaultVersion c) = Some v ->
        AgentRegistry.has v (VersionRouter.registry r) = true)
  /\ (forall g, VersionRouter.globalConfig r = Some g ->
        AgentRegistry.has (GlobalConfig.defaultVersion g) (VersionRouter.registry r)
        = true).
Proof.
  unfold references_registered, JsMap.entries.
  rewrite !andb_true_iff, !forallb_forall. split.
  - intros [[Hp Ht] Hg]. repeat split.
    + intros u pin Hin. apply (Hp (u, pin) Hin).
    + intros t c v Hin Hv. specialize (Ht (t, c) Hin). cbn in Ht.
      now rewrite Hv in Ht.
    + intros g E. now rewrite E in Hg.
  - intros [Hp [Ht Hg]]. repeat split.
    + intros [u pin] Hin. cbn. eauto.
    + intros [t c] Hin. cbn.
      destruct (truthy (TenantConfig.defaultVersion c)) eqn:E; eauto.
    + destruct (VersionRouter.globalConfig r); auto.
Qed.

(** A version named by the router is [referenced]. *)
Lemma referenced_pin r u pin :
  In (u, pin) (VersionRouter.userPins r) ->
  referenced (UserVersionPin.version pin) r = true.
Proof.
  intros Hin. unfold referenced.
  apply orb_true_iff. left. apply orb_true_iff. left.
  apply existsb_exists. exists (u, pin). split; [exact Hin|].
  apply String.eqb_refl.
Qed.

Lemma referenced_tenant r t c v :
  In (t, c) (VersionRouter.tenantConfigs r) ->
  truthy (TenantConfig.defaultVersion c) = Some v ->
  referenced v r = true.
Proof.
  intros Hin Hv. unfold referenced.
  apply orb_true_iff. left. apply orb_true_iff. right.
  apply existsb_exists. exists (t, c). split; [exact Hin|].
  cbn. rewrite Hv. apply String.eqb_refl.
Qed.

Lemma referenced_global r g :
  VersionRouter.globalConfig r = Some g ->
  referenced (GlobalConfig.defaultVersion g) r = true.
Proof.
  intros Hg. unfold referenced. rewrite Hg, String.eqb_refl.
  apply orb_true_r.
Qed.

(** Changing the registry keeps the references registered when every
    referenced version that was registered still is. *)
Lemma references_registered_registry r reg' :
  references_registered r = true ->
  (forall v, referenced v r = true ->
             AgentRegistry.has v (VersionRouter.registry r) = true ->
             AgentRegistry.has v reg' = true) ->
  references_registered (VersionRouter.set_registry reg' r) = true.
Proof.
  rewrite !references_registered_iff. intros [Hp [Ht Hg]] Hkeep.
  cbn. repeat split.
  - intros u pin Hin. apply Hkeep; [eapply referenced_pin|]; eauto.
  - intros t c v Hin Hv. apply Hkeep; [eapply referenced_tenant|]; eauto.
  - intros g E. apply Hkeep; [now apply referenced_global|]; auto.
Qed.

Lemma on_registry_exec c r :
  VersionRouter.exec (VersionRouter.OnRegistry c) r
  = VersionRouter.set_registry (AgentRegistry.exec c (VersionRouter.registry r)) r.
Proof.
  unfold VersionRouter.exec, AgentRegistry.exec. cbn [VersionRouter.call].
  unfold VersionRouter.on_registry.
  now destruct (AgentRegistry.call c (VersionRouter.registry r)).
Qed.

(** A careful call on the registry keeps the references registered. *)
Lemma registry_call_keeps_references c r :
  router_invariant r = true ->
  keeps_references (VersionRouter.OnRegistry c) r = true ->
  references_registered (VersionRouter.exec (VersionRouter.OnRegistry c) r) = true.
Proof.
  unfold router_invariant. rewrite andb_true_iff. intros [Hreg Href] Hkeep.
  rewrite on_registry_exec. apply references_registered_registry; [exact Href|].
  intros v Hv Hhas. unfold AgentRegistry.exec.
  destruct c as [config|d|d|]; cbn [AgentRegistry.call keeps_references] in *.
  - rewrite register_eq.
    destruct (AgentConfigSchema_issues config); cbn [snd]; [|exact Hhas].
    unfold AgentRegistry.has in *. cbn. rewrite has_set, Hhas. apply orb_true_r.
  - rewrite setDefaultVersion_eq.
    destruct (AgentRegistry.has d (VersionRouter.registry r)); exact Hhas.
  - unfold VersionRouter.throws in Hkeep.
    cbn [VersionRouter.call AgentRegistry.call] in Hkeep.
    unfold VersionRouter.on_registry, forget, bind in *.
    rewrite remove_eq in *.
    destruct (match AgentRegistry.defaultVersion (VersionRouter.registry r) with
              | Some d0 => (d0 =? d)%string
              | None => false
              end); cbn [fst snd ret is_throw] in *; [exact Hhas|].
    unfold AgentRegistry.has in *. cbn. rewrite has_delete, Hhas.
    destruct (String.eqb_spec v d) as [->|Hne]; [|reflexivity].
    rewrite Hv, Hhas in Hkeep. discriminate.
  - rewrite forallb_forall in Hkeep.
    apply has_in_keys, Hkeep in Hhas. rewrite Hv in Hhas. discriminate.
Qed.

Lemma throws_setGlobalConfig config r :
  VersionRouter.throws (VersionRouter.SetGlobalConfig config) r
  = negb (AgentRegistry.has (GlobalConfig.defaultVersion config)
                            (VersionRouter.registry r)).
Proof.
  unfold VersionRouter.throws. cbn [VersionRouter.call].
  rewrite setGlobalConfig_eq. now destruct (AgentRegistry.has _ _).
Qed.

Lemma throws_setTenantConfig tenantId config r :
  VersionRouter.throws (VersionRouter.SetTenantConfig tenantId config) r
  = match truthy (TenantConfig.defaultVersion config) with
    | Some v => negb (AgentRegistry.has v (VersionRouter.registry r))
    | None => false
    end.
Proof.
  unfold VersionRouter.throws. cbn [VersionRouter.call].
  rewrite setTenantConfig_eq. cbn [fst].
  destruct (truthy (TenantConfig.defaultVersion config)) as [v|]; [|reflexivity].
  now destruct (AgentRegistry.has v (VersionRouter.registry r)).
Qed.

(** A careful call preserves the invariant of the router. *)
Lemma exec_router_invariant c r :
  router_invariant r = true ->
  keeps_references c r = true ->
  router_invariant (VersionRouter.exec c r) = true.
Proof.
  intros Hinv Hkeep.
  destruct c as [c|config|tenantId config|now userId version reason|userId
                 |clock fromVersion toVersion].
  - unfold router_invariant. apply andb_true_iff. split.
    + rewrite on_registry_exec. cbn. apply exec_registry_invariant.
      unfold router_invariant in Hinv. now apply andb_true_iff in Hinv.
    + now apply registry_call_keeps_references.
  - cbn [keeps_references] in Hkeep.
    rewrite throws_setGlobalConfig, negb_involutive in Hkeep.
    unfold router_invariant in *. apply andb_true_iff in Hinv as [Hreg Href].
    unfold VersionRouter.exec. cbn [VersionRouter.call].
    rewrite setGlobalConfig_eq, Hkeep. cbn [snd]. apply andb_true_iff. split.
    + cbn. pose proof (exec_registry_invariant
        (AgentRegistry.SetDefaultVersion (GlobalConfig.defaultVersion config))
        _ Hreg) as H.
      unfold AgentRegistry.exec in H. cbn [AgentRegistry.call] in H.
      now rewrite setDefaultVersion_eq, Hkeep in H.
    + apply references_registered_iff in Href as [Hp [Ht Hg]].
      apply references_registered_iff. cbn. repeat split; auto.
      intros g [= <-]. exact Hkeep.
  - cbn [keeps_references] in Hkeep. rewrite throws_setTenantConfig in Hkeep.
    unfold router_invariant in *. apply andb_true_iff in Hinv as [Hreg Href].
    unfold VersionRouter.exec. cbn [VersionRouter.call].
    rewrite setTenantConfig_eq. cbn [snd]. apply andb_true_iff.
    split; [exact Hreg|].
    apply references_registered_iff in Href as [Hp [Ht Hg]].
    apply references_registered_iff. cbn. repeat split; auto.
    intros t c v Hin Hv. apply in_set in Hin as [[= -> ->]|Hin]; [|eauto].
    rewrite Hv in Hkeep. now apply negb_true_iff, negb_false_iff in Hkeep.
  - unfold router_invariant in *. apply andb_true_iff in Hinv as [Hreg Href].
    unfold VersionRouter.exec. cbn [VersionRouter.call].
    rewrite pinUser_eq.
    destruct (AgentRegistry.has version (VersionRouter.registry r)) eqn:Hh;
      cbn [snd]; [|now rewrite Hreg, Href].
    apply andb_true_iff. split; [exact Hreg|].
    apply references_registered_iff in Href as [Hp [Ht Hg]].
    apply references_registered_iff. cbn. repeat split; auto.
    intros u pin Hin.
    apply in_set in Hin as [[= -> ->]|Hin]; [exact Hh | eauto].
  - unfold router_invariant in *. apply andb_true_iff in Hinv as [Hreg Href].
    unfold VersionRouter.exec. cbn [VersionRouter.call].
    unfold forget, bind. rewrite unpinUser_eq. cbn [snd ret].
    apply andb_true_iff. split; [exact Hreg|].
    apply references_registered_iff in Href as [Hp [Ht Hg]].
    apply references_registered_iff. cbn. repeat split; auto.
    intros u pin Hin. apply in_delete in Hin. eauto.
  - unfold router_invariant in *. apply andb_true_iff in Hinv as [Hreg Href].
    unfold VersionRouter.exec. cbn [VersionRouter.call].
    unfold forget, bind. rewrite migrateUsers_eq.
    destruct (AgentRegistry.has toVersion (VersionRouter.registry r)) eqn:Hh;
      [|cbn [snd]; now rewrite Hreg, Href].
    pose proof (migrate_loop_frame fromVersion toVersion clock
                  (VersionRouter.getUsersPinnedToVersion fromVersion r) 0 0 r)
      as Hframe.
    cbv zeta in Hframe.
    destruct (VersionRouter.migrate_loop clock 0 fromVersion toVersion
                (VersionRouter.getUsersPinnedToVersion fromVersion r) 0 r)
      as [[n|e] r'];
      cbn [snd ret] in *;
      destruct Hframe as [Ereg [Etc [Eg Hpins]]];
      (apply andb_true_iff; split; [now rewrite Ereg|]);
      apply references_registered_iff in Href as [Hp [Ht Hg]];
      apply references_registered_iff; rewrite Ereg, Etc, Eg;
      (repeat split; auto);
      intros u pin Hin; destruct (Hpins _ Hin) as [H|H]; eauto;
      cbn in H; now rewrite H.
Qed.

Lemma careful_run_invariant calls :
  forall r,
    router_invariant r = true ->
    careful_run calls r = true ->
    router_invariant (VersionRouter.run calls r) = true.
Proof.
  unfold VersionRouter.run.
  induction calls as [|c calls IH]; cbn; intros r Hinv Hrun; [exact Hinv|].
  apply andb_true_iff in Hrun as [Hc Hrun].
  apply IH; [now apply exec_router_invariant | exact Hrun].
Qed.

(** Under the invariant, a version returned by [resolveVersion] is
    registered. *)
Lemma resolveVersion_registered context strategy r v :
  router_invariant r = true ->
  VersionRouter.resolveVersion context strategy r = Ok v ->
  AgentRegistry.has v (VersionRouter.registry r) = true.
Proof.
  unfold router_invariant. rewrite andb_true_iff. intros [Hreg Href].
  apply references_registered_iff in Href as [Hp [Ht Hg]].
  unfold VersionRouter.resolveVersion, VersionRouter.block_explicit.
  destruct (truthy (ExecutionContext.version context)) as [x|].
  { destruct (AgentRegistry.has x (VersionRouter.registry r)) eqn:Hx; cbn;
      [now intros [= <-] | discriminate]. }
  cbn [VersionRouter.or_next].
  set (routingStrategy := match truthy strategy with Some s => s | None => "pin" end).
  unfold VersionRouter.block_pin.
  destruct (if (routingStrategy =? "pin")%string
            then match JsMap.get (ExecutionContext.userId context)
                         (VersionRouter.userPins r) with
                 | Some userPin => Some (Ok (UserVersionPin.version userPin))
                 | None => None
                 end
            else None) as [res|] eqn:Epin; cbn [VersionRouter.or_next].
  { destruct (routingStrategy =? "pin")%string; [|discriminate].
    destruct (JsMap.get _ _) as [pin|] eqn:Eget; [|discriminate].
    injection Epin as <-. intros [= <-]. apply get_in in Eget. eauto. }
  unfold VersionRouter.block_tenant.
  destruct (if (routingStrategy =? "pin")%string
               || (routingStrategy =? "tenant-default")%string
            then _ else None) as [res|] eqn:Etenant; cbn [VersionRouter.or_next].
  { destruct (_ || _); [|discriminate].
    destruct (truthy (ExecutionContext.tenantId context)) as [t|]; [|discriminate].
    destruct (JsMap.get t (VersionRouter.tenantConfigs r)) as [c|] eqn:Eget;
      [|discriminate].
    destruct (truthy (TenantConfig.defaultVersion c)) as [d|] eqn:Ed;
      [|discriminate].
    injection Etenant as <-. intros [= <-]. apply get_in in Eget. eauto. }
  unfold VersionRouter.block_global.
  destruct (if (routingStrategy =? "pin")%string
               || (routingStrategy =? "tenant-default")%string
               || (routingStrategy =? "global-default")%string
            then _ else None) as [res|] eqn:Eglobal; cbn [VersionRouter.or_next].
  { destruct (_ || _ || _); [|discriminate].
    destruct (VersionRouter.globalConfig r) as [g|] eqn:Eg; [|discriminate].
    destruct (truthy (Some (GlobalConfig.defaultVersion g))) as [d|] eqn:Ed;
      [|discriminate].
    apply truthy_nonempty in Ed as [[= <-] _].
    injection Eglobal as <-. intros [= <-]. auto. }
  unfold VersionRouter.block_latest.
  destruct (_ || _ || _ || _); cbn [VersionRouter.or_next]; [|discriminate].
  destruct (truthy (AgentRegistry.getLatestVersion (VersionRouter.registry r)))
    as [latest|] eqn:El; cbn; [|discriminate].
  intros [= <-]. apply truthy_nonempty in El as [El _].
  now apply (getLatestVersion_registered _ _ Hreg El).
Qed.

(** C3 (amended). In every state reached from a new router over a new
    registry by [register], [remove], [setDefaultVersion], [clear],
    [setGlobalConfig], [setTenantConfig], [pinUser], [unpinUser] and
    [migrateUsers] calls in which [remove] and [clear] delete no version
    that a pin, a tenant default or the global default still names, and
    [setGlobalConfig] and [setTenantConfig] return, a version returned by
    [resolveVersion], for any context and strategy, is registered. *)
Theorem resolveVersion_returns_registered :
  forall (calls : list VersionRouter.Call) (context : ExecutionContext.t)
         (strategy : option string) (v : AgentVersion),
    careful_run calls (VersionRouter.new AgentRegistry.new) = true ->
    VersionRouter.resolveVersion context strategy
      (VersionRouter.run calls (VersionRouter.new AgentRegistry.new)) = Ok v ->
    AgentRegistry.has v
      (VersionRouter.registry
         (VersionRouter.run calls (VersionRouter.new AgentRegistry.new))) = true.
Proof.
  intros calls context strategy v Hrun Hres.
  apply (resolveVersion_registered context strategy); [|exact Hres].
  apply careful_run_invariant; [reflexivity | exact Hrun].
Qed.

Lemma resolveVersion_returns_registered_witness :
  let calls := [Sample.register "v1.0"; Sample.register "v2.0";
                VersionRouter.PinUser 10 "alice" "v2.0" None;
                VersionRouter.SetGlobalConfig (Sample.global "v1.0" ["v1.0"]);
                VersionRouter.UnpinUser "alice";
                VersionRouter.OnRegistry (AgentRegistry.Remove "v2.0");
                VersionRouter.OnRegistry (AgentRegistry.Remove "v1.0");
                VersionRouter.OnRegistry (AgentRegistry.Remove "v3.0")] in
  let r := VersionRouter.run calls (VersionRouter.new AgentRegistry.new) in
  careful_run calls (VersionRouter.new AgentRegistry.new) = true
  /\ VersionRouter.resolveVersion (Sample.context "alice" None None) None r
     = Ok "v1.0"
  /\ AgentRegistry.has "v1.0" (VersionRouter.registry r) = true.
Proof.
  intros calls r. split; [reflexivity|]. split; [reflexivity|].
  exact (resolveVersion_returns_registered calls
           (Sample.context "alice" None None) None "v1.0" eq_refl eq_refl).
Defined.

(** C3 as stated, over every sequence of calls, does not hold: the
    registry removes a version that is not its default although a user is
    still pinned to it, and [resolveVersion] then returns that version. *)
Lemma resolveVersion_returns_removed_version :
  ~ (forall (calls : list VersionRouter.Call) (context : ExecutionContext.t)
            (strategy : option string) (v : AgentVersion),
       VersionRouter.resolveVersion context strategy
         (VersionRouter.run calls (VersionRouter.new AgentRegistry.new)) = Ok v ->
       AgentRegistry.has v
         (VersionRouter.registry
            (VersionRouter.run calls (VersionRouter.new AgentRegistry.new)))
       = true).
Proof.
  intros H.
  specialize (H [Sample.register "v1.0"; Sample.register "v2.0";
                 VersionRouter.PinUser 10 "alice" "v2.0" None;
                 VersionRouter.OnRegistry (AgentRegistry.Remove "v2.0")]
                (Sample.context "alice" None None) None "v2.0" eq_refl).
  vm_compute in H. discriminate.
Qed.

(* ================================================================== *)
(** * Calls that throw *)

(** Apart from [setGlobalConfig] and [setTenantConfig], a call that
    throws leaves the router and the registry as they were. *)
Lemma throwing_call_keeps_state c r :
  match c with
  | VersionRouter.SetGlobalConfig _ | VersionRouter.SetTenantConfig _ _ => False
  | _ => True
  end ->
  VersionRouter.throws c r = true ->
  VersionRouter.exec c r = r.
Proof.
  unfold VersionRouter.throws, VersionRouter.exec.
  destruct c as [c|config|tenantId config|now userId version reason|userId
                 |clock fromVersion toVersion];
    cbn [VersionRouter.call]; intros Hc; try contradiction.
  - unfold VersionRouter.on_registry.
    destruct c as [config|v|v|]; cbn [AgentRegistry.call].
    + rewrite register_eq.
      destruct (AgentConfigSchema_issues config); cbn; [discriminate|].
      now destruct r.
    + rewrite setDefaultVersion_eq.
      destruct (AgentRegistry.has v (VersionRouter.registry r)); cbn;
        [discriminate | now destruct r].
    + unfold forget, bind. rewrite remove_eq.
      destruct (match AgentRegistry.defaultVersion (VersionRouter.registry r) with
                | Some d => (d =? v)%string
                | None => false
                end); cbn; [now destruct r | discriminate].
    + cbn. discriminate.
  - rewrite pinUser_eq.
    destruct (AgentRegistry.has version (VersionRouter.registry r)); cbn;
      [discriminate | reflexivity].
  - cbn. discriminate.
  - unfold forget, bind. rewrite migrateUsers_eq.
    destruct (AgentRegistry.has toVersion (VersionRouter.registry r)) eqn:Hto;
      [|reflexivity].
    destruct (migrate_loop_spec fromVersion toVersion clock
                (VersionRouter.getUsersPinnedToVersion fromVersion r) 0 0 r Hto)
      as [pins' [E _]].
    rewrite E. cbn. discriminate.
Qed.

(** C1, at the inputs where the code departs from it. On a router whose
    global configuration and tenant configuration name the registered
    version "v1.0", [setGlobalConfig] with the unregistered default version
    "v9.9" throws, and the stored global configuration is the rejected
    one; [setTenantConfig] with the unregistered default version "v9.9"
    throws, and the tenant's stored configuration is the rejected one.
    [resolveVersion] then returns the unregistered "v9.9". *)
Theorem rejected_config_is_stored :
  let r := Sample.router_after
             [Sample.register "v1.0";
              VersionRouter.SetGlobalConfig (Sample.global "v1.0" ["v1.0"]);
              VersionRouter.SetTenantConfig "acme"
                (Sample.tenant "acme" (Some "v1.0"))] in
  let bad_global := Sample.global "v9.9" ["v9.9"] in
  let bad_tenant := Sample.tenant "acme" (Some "v9.9") in
  AgentRegistry.has "v9.9" (VersionRouter.registry r) = false
  /\ VersionRouter.getGlobalConfig r = Some (Sample.global "v1.0" ["v1.0"])
  /\ VersionRouter.getTenantConfig "acme" r
     = Some (Sample.tenant "acme" (Some "v1.0"))
  /\ fst (VersionRouter.setGlobalConfig bad_global r)
     = Throw (DefaultVersionNotFound "v9.9")
  /\ VersionRouter.getGlobalConfig (snd (VersionRouter.setGlobalConfig bad_global r))
     = Some bad_global
  /\ fst (VersionRouter.setTenantConfig "acme" bad_tenant r)
     = Throw (TenantDefaultVersionNotFound "v9.9")
  /\ VersionRouter.getTenantConfig "acme"
       (snd (VersionRouter.setTenantConfig "acme" bad_tenant r))
     = Some bad_tenant
  /\ VersionRouter.resolveVersion (Sample.context "alice" None None) None
       (snd (VersionRouter.setGlobalConfig bad_global r)) = Ok "v9.9"
  /\ VersionRouter.resolveVersion (Sample.context "alice" (Some "acme") None) None
       (snd (VersionRouter.setTenantConfig "acme" bad_tenant r)) = Ok "v9.9".
Proof. repeat split; reflexivity. Qed.

(* ================================================================== *)
(** * The invariants hold in every reachable state *)

(** Whatever the calls, returning or throwing, the pins remain a map and
    the registry keeps its class invariant: the hypotheses of the
    statements above hold of every state a router and its registry can
    reach. *)
Lemma exec_pins_wf c r :
  JsMap.wf (VersionRouter.userPins r) = true ->
  JsMap.wf (VersionRouter.userPins (VersionRouter.exec c r)) = true.
Proof.
  intros Hwf.
  destruct c as [c|config|tenantId config|now userId version reason|userId
                 |clock fromVersion toVersion].
  - now rewrite on_registry_exec.
  - unfold VersionRouter.exec. cbn [VersionRouter.call].
    rewrite setGlobalConfig_eq. now destruct (AgentRegistry.has _ _).
  - unfold VersionRouter.exec. cbn [VersionRouter.call].
    now rewrite setTenantConfig_eq.
  - unfold VersionRouter.exec. cbn [VersionRouter.call]. rewrite pinUser_eq.
    destruct (AgentRegistry.has _ _); cbn; [now apply wf_set | exact Hwf].
  - unfold VersionRouter.exec. cbn [VersionRouter.call].
    unfold forget, bind. rewrite unpinUser_eq. cbn. now apply wf_delete.
  - unfold VersionRouter.exec. cbn [VersionRouter.call].
    unfold forget, bind. rewrite migrateUsers_eq.
    destruct (AgentRegistry.has toVersion (VersionRouter.registry r)) eqn:Hto;
      [|exact Hwf].
    destruct (migrate_loop_spec fromVersion toVersion clock
                (VersionRouter.getUsersPinnedToVersion fromVersion r) 0 0 r Hto)
      as [pins' [E [_ [_ Hwf']]]].
    rewrite E. cbn. auto.
Qed.

Lemma exec_keeps_registry_invariant c r :
  registry_invariant (VersionRouter.registry r) = true ->
  registry_invariant (VersionRouter.registry (VersionRouter.exec c r)) = true.
Proof.
  intros Hreg.
  destruct c as [c|config|tenantId config|now userId version reason|userId
                 |clock fromVersion toVersion].
  - rewrite on_registry_exec. cbn. now apply exec_registry_invariant.
  - unfold VersionRouter.exec. cbn [VersionRouter.call].
    rewrite setGlobalConfig_eq.
    destruct (AgentRegistry.has _ _) eqn:Hh; cbn; [|exact Hreg].
    pose proof (exec_registry_invariant
      (AgentRegistry.SetDefaultVersion (GlobalConfig.defaultVersion config))
      _ Hreg) as H.
    unfold AgentRegistry.exec in H. cbn [AgentRegistry.call] in H.
    now rewrite setDefaultVersion_eq, Hh in H.
  - unfold VersionRouter.exec. cbn [VersionRouter.call].
    now rewrite setTenantConfig_eq.
  - unfold VersionRouter.exec. cbn [VersionRouter.call]. rewrite pinUser_eq.
    now destruct (AgentRegistry.has _ _).
  - unfold VersionRouter.exec. cbn [VersionRouter.call].
    unfold forget, bind. now rewrite unpinUser_eq.
  - unfold VersionRouter.exec. cbn [VersionRouter.call].
    unfold forget, bind. rewrite migrateUsers_eq.
    destruct (AgentRegistry.has toVersion (VersionRouter.registry r));
      [|exact Hreg].
    pose proof (migrate_loop_frame fromVersion toVersion clock
                  (VersionRouter.getUsersPinnedToVersion fromVersion r) 0 0 r)
      as [Ereg _].
    destruct (VersionRouter.migrate_loop clock 0 fromVersion toVersion
                (VersionRouter.getUsersPinnedToVersion fromVersion r) 0 r)
      as [[n|e] r']; cbn in *; now rewrite Ereg.
Qed.

Lemma reachable_states_well_formed calls :
  let r := VersionRouter.run calls (VersionRouter.new AgentRegistry.new) in
  JsMap.wf (VersionRouter.userPins r) = true
  /\ registry_invariant (VersionRouter.registry r) = true.
Proof.
  cbv zeta. unfold VersionRouter.run.
  assert (H : JsMap.wf (VersionRouter.userPins (VersionRouter.new AgentRegistry.new))
              = true
              /\ registry_invariant
                   (VersionRouter.registry (VersionRouter.new AgentRegistry.new))
                 = true) by (split; reflexivity).
  revert H. generalize (VersionRouter.new AgentRegistry.new).
  induction calls as [|c calls IH]; cbn [fold_left]; intros r [Hw Hr];
    [auto|].
  apply IH. split; [now apply exec_pins_wf | now apply exec_keeps_registry_invariant].
Qed.

(* ================================================================== *)
(** * Further properties of the registry *)

Lemma app_nil_iff {A : Type} (l l' : list A) :
  (l ++ l')%list = [] <-> l = [] /\ l' = [].
Proof.
  split; [apply app_eq_nil | intros [-> ->]; reflexivity].
Qed.

Lemma temperature_in_range t :
  number_geq t 0 && number_leq t 2 = true <->
  exists q, t = Finite q /\ (0 <= q)%Q /\ (q <= 2)%Q.
Proof.
  destruct t as [| |q|]; cbn;
    try (split; [discriminate | intros [q [H _]]; discriminate]).
  rewrite andb_true_iff, !Qle_bool_iff. split.
  - intros H. exists q. auto.
  - intros [q' [[= <-] H]]. exact H.
Qed.

Lemma number_positive n :
  number_gt n 0 = true <->
  match n with
  | PosInfinity => True
  | Finite q => (0 < q)%Q
  | NaN | NegInfinity => False
  end.
Proof.
  destruct n as [| |q|]; cbn; try (split; [discriminate | tauto]); [|tauto].
  rewrite negb_true_iff. split.
  - intros E. apply Qnot_le_lt. intros H. apply Qle_bool_iff in H. congruence.
  - intros H. destruct (Qle_bool q 0) eqn:E; [|reflexivity].
    apply Qle_bool_iff in E. apply Qlt_not_le in H. contradiction.
Qed.

(** The configurations that [AgentConfigSchema] accepts. *)
Lemma schema_issues_nil config :
  AgentConfigSchema_issues config = [] <->
  AgentConfig.version config <> ""
  /\ AgentConfig.prompt config <> ""
  /\ (AgentConfig.provider config = "openai"
      \/ AgentConfig.provider config = "anthropic")
  /\ AgentConfig.model config <> ""
  /\ (exists q, AgentConfig.temperature config = Finite q
                /\ (0 <= q)%Q /\ (q <= 2)%Q)
  /\ match AgentConfig.maxTokens config with
     | None | Some PosInfinity => True
     | Some (Finite q) => (0 < q)%Q
     | Some NaN | Some NegInfinity => False
     end
  /\ match AgentConfig.metadata config with
     | Some md => AgentConfig.createdAt md <> Some InvalidDate
     | None => True
     end.
Proof.
  unfold AgentConfigSchema_issues.
  rewrite !app_nil_iff.
  rewrite <- temperature_in_range.
  assert (Hstr : forall s (l : list string),
            (if (s =? "")%string then l else []) = [] <-> (l = [] \/ s <> "")).
  { intros s l. destruct (String.eqb_spec s ""); split; auto.
    intros [H|H]; [exact H | contradiction]. }
  rewrite !Hstr.
  assert (Hprov :
    (if (AgentConfig.provider config =? "openai")%string
        || (AgentConfig.provider config =? "anthropic")%string
     then [] else ["provider"]) = [] <->
    (AgentConfig.provider config = "openai"
     \/ AgentConfig.provider config = "anthropic")).
  { destruct (String.eqb_spec (AgentConfig.provider config) "openai");
      destruct (String.eqb_spec (AgentConfig.provider config) "anthropic");
      cbn; split; auto; try discriminate. tauto. }
  rewrite Hprov.
  assert (Htemp :
    (if number_geq (AgentConfig.temperature config) 0
        && number_leq (AgentConfig.temperature config) 2
     then [] else ["temperature"]) = [] <->
    number_geq (AgentConfig.temperature config) 0
    && number_leq (AgentConfig.temperature config) 2 = true).
  { destruct (_ && _); split; auto; discriminate. }
  rewrite Htemp.
  assert (Htok :
    match AgentConfig.maxTokens config with
    | Some n => if number_gt n 0 then [] else ["maxTokens"]
    | None => []
    end = [] <->
    match AgentConfig.maxTokens config with
    | None | Some PosInfinity => True
    | Some (Finite q) => (0 < q)%Q
    | Some NaN | Some NegInfinity => False
    end).
  { destruct (AgentConfig.maxTokens config) as [n|]; [|tauto].
    transitivity (number_gt n 0 = true); [|apply number_positive].
    destruct (number_gt n 0); split; auto; discriminate. }
  rewrite Htok.
  assert (Hmeta :
    match AgentConfig.metadata config with
    | Some md => match AgentConfig.createdAt md with
                 | Some InvalidDate => ["metadata.createdAt"]
                 | _ => []
                 end
    | None => []
    end = [] <->
    match AgentConfig.metadata config with
    | Some md => AgentConfig.createdAt md <> Some InvalidDate
    | None => True
    end).
  { destruct (AgentConfig.metadata config) as [md|]; [|tauto].
    destruct (AgentConfig.createdAt md) as [[ms|]|]; split;
      congruence || discriminate || auto. }
  rewrite Hmeta.
  assert (Hne : forall (a : string), ([a] = [] \/ False) <-> False)
    by (intros a; split; [intros [H|[]]; discriminate | tauto]).
  split.
  - intros [[H1|H1] [[H2|H2] [H3 [[H4|H4] [H5 [H6 H7]]]]]];
      try discriminate. repeat split; auto.
  - intros [H1 [H2 [H3 [H4 [H5 [H6 H7]]]]]]. repeat split; auto.
Qed.

(** X1. A configuration that passes the schema is stored by
    [register]: the call returns, [get] of its version gives back the
    configuration and [has] is true, every other version keeps its
    configuration, and the version is appended to [getVersions()] unless
    it was registered already, in which case it keeps its place. *)
Theorem register_then_get :
  forall (config : AgentConfig.t) (r : AgentRegistry.t),
    AgentConfigSchema_issues config = [] ->
    let r' := snd (AgentRegistry.register config r) in
    fst (AgentRegistry.register config r) = Ok tt
    /\ AgentRegistry.get (AgentConfig.version config) r' = Some config
    /\ AgentRegistry.has (AgentConfig.version config) r' = true
    /\ (forall v, v <> AgentConfig.version config ->
                  AgentRegistry.get v r' = AgentRegistry.get v r)
    /\ AgentRegistry.getVersions r'
       = if AgentRegistry.has (AgentConfig.version config) r
         then AgentRegistry.getVersions r
         else (AgentRegistry.getVersions r ++ [AgentConfig.version config])%list.
Proof.
  intros config r Hs. cbv zeta. rewrite register_eq, Hs. cbn [fst snd].
  unfold AgentRegistry.get, AgentRegistry.has, AgentRegistry.getVersions.
  cbn [AgentRegistry.configs]. repeat split.
  - apply get_set_same.
  - now rewrite has_set, String.eqb_refl.
  - intros v Hv. now apply get_set_other.
  - apply keys_set.
Qed.

Lemma register_then_get_witness :
  let r := Sample.registry_of ["v1.0"] in
  let r' := snd (AgentRegistry.register (Sample.config "v2.0") r) in
  AgentConfigSchema_issues (Sample.config "v2.0") = []
  /\ AgentRegistry.get "v2.0" r' = Some (Sample.config "v2.0")
  /\ AgentRegistry.getVersions r' = ["v1.0"; "v2.0"].
Proof.
  intros r r'.
  destruct (register_then_get (Sample.config "v2.0") r eq_refl)
    as [_ [Hget [_ [_ Hkeys]]]].
  split; [reflexivity|]. split; [exact Hget | exact Hkeys].
Defined.

(** X2. [register] returns exactly for the configurations whose version,
    prompt and model are non-empty, whose provider is "openai" or
    "anthropic", whose temperature is a finite number between 0 and 2,
    whose [maxTokens], if given, is positive, and whose [createdAt], if
    given, is a valid date; for any other configuration it throws a
    validation error that lists the offending fields, and the registry
    is as before. *)
Theorem register_validates :
  forall (config : AgentConfig.t) (r : AgentRegistry.t),
    (fst (AgentRegistry.register config r) = Ok tt <->
     AgentConfig.version config <> ""
     /\ AgentConfig.prompt config <> ""
     /\ (AgentConfig.provider config = "openai"
         \/ AgentConfig.provider config = "anthropic")
     /\ AgentConfig.model config <> ""
     /\ (exists q, AgentConfig.temperature config = Finite q
                   /\ (0 <= q)%Q /\ (q <= 2)%Q)
     /\ match AgentConfig.maxTokens config with
        | None | Some PosInfinity => True
        | Some (Finite q) => (0 < q)%Q
        | Some NaN | Some NegInfinity => False
        end
     /\ match AgentConfig.metadata config with
        | Some md => AgentConfig.createdAt md <> Some InvalidDate
        | None => True
        end)
    /\ (forall e, fst (AgentRegistry.register config r) = Throw e ->
          e = ZodError (AgentConfigSchema_issues config)
          /\ AgentConfigSchema_issues config <> []
          /\ kind e = ValidationError
          /\ snd (AgentRegistry.register config r) = r).
Proof.
  intros config r. rewrite <- schema_issues_nil, register_eq.
  destruct (AgentConfigSchema_issues config) as [|issue issues]; cbn [fst snd].
  - split; [tauto | discriminate].
  - split; [split; discriminate|].
    intros e [= <-]. repeat split. discriminate.
Qed.

(** The default version is unset exactly when nothing is registered. *)
Lemma exec_default_iff_empty c r :
  registry_invariant r = true ->
  (AgentRegistry.defaultVersion r = None <-> AgentRegistry.configs r = []) ->
  let r' := AgentRegistry.exec c r in
  AgentRegistry.defaultVersion r' = None <-> AgentRegistry.configs r' = [].
Proof.
  intros Hinv Hiff. cbv zeta.
  apply registry_invariant_iff in Hinv as [_ [Hne Hdef]].
  unfold AgentRegistry.exec.
  destruct c as [config|v|v|]; cbn [AgentRegistry.call].
  - rewrite register_eq.
    destruct (AgentConfigSchema_issues config); cbn [snd]; [|exact Hiff].
    cbn. split.
    + destruct (AgentRegistry.defaultVersion r) as [d|] eqn:Ed;
        [|cbn; discriminate].
      unfold is_truthy, truthy. destruct (d =? "")%string; discriminate.
    + intros E. exfalso.
      assert (JsMap.has (AgentConfig.version config)
                (JsMap.set (AgentConfig.version config) config
                           (AgentRegistry.configs r)) = true) as H
        by now rewrite has_set, String.eqb_refl.
      rewrite E in H. discriminate.
  - rewrite setDefaultVersion_eq.
    destruct (AgentRegistry.has v r) eqn:Hh; cbn [snd]; [|exact Hiff].
    cbn. split; [discriminate|]. intros E.
    unfold AgentRegistry.has in Hh. rewrite E in Hh. discriminate.
  - unfold forget, bind. rewrite remove_eq.
    destruct (AgentRegistry.defaultVersion r) as [d|] eqn:Ed.
    + destruct (String.eqb_spec d v) as [->|Hdv]; cbn [snd ret];
        [rewrite Ed; exact Hiff|].
      cbn. rewrite Ed. split; [discriminate|]. intros E. exfalso.
      pose proof (Hdef d eq_refl) as Hh. unfold AgentRegistry.has in Hh.
      assert (JsMap.has d (JsMap.delete v (AgentRegistry.configs r)) = true) as H.
      { rewrite has_delete, Hh.
        destruct (String.eqb_spec d v); [contradiction | reflexivity]. }
      rewrite E in H. discriminate.
    + cbn [snd ret]. cbn. rewrite Ed. split; [|reflexivity].
      intros _. now rewrite (proj1 Hiff eq_refl).
  - rewrite clear_eq. cbn. tauto.
Qed.

(** X3. In every state reached from a new registry, the default version
    is unset exactly when no version is registered; so
    [getLatestVersion()] returns nothing exactly when there is no default
    version, and a registry with a version always has a default. *)
Theorem default_unset_iff_empty :
  forall calls : list AgentRegistry.Call,
    let r := AgentRegistry.run calls AgentRegistry.new in
    (AgentRegistry.getDefaultVersion r = None <-> AgentRegistry.getVersions r = [])
    /\ (AgentRegistry.getLatestVersion r = None <->
        AgentRegistry.getDefaultVersion r = None).
Proof.
  intros calls. cbv zeta.
  assert (H : registry_invariant (AgentRegistry.run calls AgentRegistry.new) = true
              /\ (AgentRegistry.defaultVersion
                    (AgentRegistry.run calls AgentRegistry.new) = None <->
                  AgentRegistry.configs
                    (AgentRegistry.run calls AgentRegistry.new) = [])).
  { unfold AgentRegistry.run.
    assert (H0 : registry_invariant AgentRegistry.new = true
                 /\ (AgentRegistry.defaultVersion AgentRegistry.new = None <->
                     AgentRegistry.configs AgentRegistry.new = []))
      by (split; [reflexivity | cbn; tauto]).
    revert H0. generalize AgentRegistry.new.
    induction calls as [|c calls IH]; cbn [fold_left]; intros r [Hinv Hiff];
      [auto|].
    apply IH. split; [now apply exec_registry_invariant|].
    now apply exec_default_iff_empty. }
  destruct H as [_ Hiff].
  assert (Hkeys : AgentRegistry.getVersions
                    (AgentRegistry.run calls AgentRegistry.new) = [] <->
                  AgentRegistry.configs
                    (AgentRegistry.run calls AgentRegistry.new) = []).
  { unfold AgentRegistry.getVersions, JsMap.keys.
    destruct (AgentRegistry.configs (AgentRegistry.run calls AgentRegistry.new));
      cbn; split; congruence. }
  unfold AgentRegistry.getDefaultVersion.
  rewrite getLatestVersion_none. tauto.
Qed.

(** Every stored configuration is stored under its own version and
    passes the schema. *)
Lemma exec_stored_configs c r :
  (forall k config, In (k, config) (AgentRegistry.configs r) ->
     AgentConfig.version config = k /\ AgentConfigSchema_issues config = []) ->
  forall k config, In (k, config) (AgentRegistry.configs (AgentRegistry.exec c r)) ->
    AgentConfig.version config = k /\ AgentConfigSchema_issues config = [].
Proof.
  intros H. unfold AgentRegistry.exec.
  destruct c as [config0|v|v|]; cbn [AgentRegistry.call].
  - rewrite register_eq.
    destruct (AgentConfigSchema_issues config0) eqn:Hs; cbn [snd]; [|exact H].
    cbn. intros k config Hin. apply in_set in Hin as [[= -> ->]|Hin]; auto.
  - rewrite setDefaultVersion_eq. now destruct (AgentRegistry.has v r).
  - unfold forget, bind. rewrite remove_eq.
    destruct (match AgentRegistry.defaultVersion r with
              | Some d => (d =? v)%string
              | None => false
              end); cbn [snd ret]; [exact H|].
    cbn. intros k config Hin. apply in_delete in Hin. auto.
  - rewrite clear_eq. cbn. intros k config [].
Qed.

(** X4. In every state reached from a new registry, each configuration
    is stored under its own version identifier and passes the schema:
    the versions of [list()] are [getVersions()], in the same order, and
    [get(v)] only ever returns a valid configuration of version [v]. *)
Theorem stored_configs_are_valid :
  forall calls : list AgentRegistry.Call,
    let r := AgentRegistry.run calls AgentRegistry.new in
    map AgentConfig.version (AgentRegistry.list r) = AgentRegistry.getVersions r
    /\ Forall (fun config => AgentConfigSchema_issues config = [])
              (AgentRegistry.list r)
    /\ forall v config, AgentRegistry.get v r = Some config ->
                        AgentConfig.version config = v
                        /\ AgentConfigSchema_issues config = [].
Proof.
  intros calls. cbv zeta.
  assert (H : forall k config,
            In (k, config)
               (AgentRegistry.configs (AgentRegistry.run calls AgentRegistry.new)) ->
            AgentConfig.version config = k /\ AgentConfigSchema_issues config = []).
  { unfold AgentRegistry.run.
    assert (H0 : forall k config,
              In (k, config) (AgentRegistry.configs AgentRegistry.new) ->
              AgentConfig.version config = k
              /\ AgentConfigSchema_issues config = []) by (intros k config []).
    revert H0. generalize AgentRegistry.new.
    induction calls as [|c calls IH]; cbn [fold_left]; intros r H0; [exact H0|].
    apply IH. now apply exec_stored_configs. }
  unfold AgentRegistry.list, AgentRegistry.getVersions, AgentRegistry.get,
    JsMap.values, JsMap.keys.
  set (m := AgentRegistry.configs (AgentRegistry.run calls AgentRegistry.new)) in *.
  split; [|split].
  - rewrite map_map. apply map_ext_in. intros [k config] Hin. cbn.
    now apply H.
  - apply Forall_forall. intros config Hin.
    apply in_map_iff in Hin as [[k config'] [E Hin]]. cbn in E. subst config'.
    now apply (H k).
  - intros v config Hg. apply get_in in Hg. now apply H.
Qed.

(** X5. To remove the default version, the default has to be moved first:
    with [v] the default version and [w] another registered version,
    [remove(v)] throws and changes nothing, while after
    [setDefaultVersion(w)] the same call returns true and leaves a
    registry without [v], with default version [w]. *)
Theorem reassign_default_then_remove :
  forall (r : AgentRegistry.t) (v w : AgentVersion),
    registry_invariant r = true ->
    AgentRegistry.getDefaultVersion r = Some v ->
    AgentRegistry.has w r = true ->
    v <> w ->
    AgentRegistry.remove v r = (Throw (CannotRemoveDefault v), r)
    /\ fst (AgentRegistry.setDefaultVersion w r) = Ok tt
    /\ let r1 := snd (AgentRegistry.setDefaultVersion w r) in
       let r2 := snd (AgentRegistry.remove v r1) in
       fst (AgentRegistry.remove v r1) = Ok true
       /\ AgentRegistry.has v r2 = false
       /\ AgentRegistry.has w r2 = true
       /\ AgentRegistry.getDefaultVersion r2 = Some w
       /\ registry_invariant r2 = true.
Proof.
  intros r v w Hinv Hd Hw Hvw. unfold AgentRegistry.getDefaultVersion in Hd.
  pose proof Hinv as Hinv'.
  apply registry_invariant_iff in Hinv' as [_ [_ Hdef]].
  pose proof (Hdef v Hd) as Hv.
  split; [now rewrite remove_eq, Hd, String.eqb_refl|].
  rewrite setDefaultVersion_eq, Hw. cbn [fst snd]. split; [reflexivity|].
  cbv zeta.
  pose proof (exec_registry_invariant (AgentRegistry.SetDefaultVersion w) r Hinv)
    as Hinv1.
  unfold AgentRegistry.exec in Hinv1. cbn [AgentRegistry.call] in Hinv1.
  rewrite setDefaultVersion_eq, Hw in Hinv1. cbn [snd] in Hinv1.
  pose proof (exec_registry_invariant (AgentRegistry.Remove v) _ Hinv1) as Hinv2.
  unfold AgentRegistry.exec in Hinv2. cbn [AgentRegistry.call] in Hinv2.
  unfold forget, bind in Hinv2.
  rewrite remove_eq in *. cbn [AgentRegistry.defaultVersion
                                AgentRegistry.set_defaultVersion] in *.
  destruct (String.eqb_spec w v) as [E|_]; [congruence|].
  cbn [fst snd ret] in *.
  unfold AgentRegistry.has in *. cbn in *.
  rewrite Hv, !has_delete, String.eqb_refl, Hw.
  destruct (String.eqb_spec w v) as [E|_]; [congruence|]. auto.
Qed.

Lemma reassign_default_then_remove_witness :
  let r := Sample.registry_of ["v1.0"; "v2.0"] in
  let r1 := snd (AgentRegistry.setDefaultVersion "v2.0" r) in
  registry_invariant r = true
  /\ AgentRegistry.getDefaultVersion r = Some "v1.0"
  /\ AgentRegistry.has "v2.0" r = true
  /\ "v1.0" <> "v2.0"
  /\ AgentRegistry.remove "v1.0" r = (Throw (CannotRemoveDefault "v1.0"), r)
  /\ fst (AgentRegistry.remove "v1.0" r1) = Ok true.
Proof.
  intros r r1.
  assert ("v1.0" <> "v2.0") as Hne by discriminate.
  destruct (reassign_default_then_remove r "v1.0" "v2.0" eq_refl eq_refl eq_refl Hne)
    as [Hthrow [_ Hafter]].
  cbv zeta in Hafter. destruct Hafter as [Hok _].
  split; [reflexivity|]. split; [reflexivity|]. split; [reflexivity|].
  split; [exact Hne|]. split; [exact Hthrow | exact Hok].
Defined.





(* ================================================================== *)
(** * Further properties of the router *)

Ltac unfold_resolveVersion :=
  unfold VersionRouter.resolveVersion, VersionRouter.block_explicit,
    VersionRouter.block_pin, VersionRouter.block_tenant,
    VersionRouter.block_global, VersionRouter.block_latest.

Lemma delete_delete {V : Type} k (m : JsMap.t V) :
  JsMap.delete k (JsMap.delete k m) = JsMap.delete k m.
Proof.
  unfold JsMap.delete. induction m as [|[k' v] m IH]; cbn; [reflexivity|].
  destruct (k =? k')%string eqn:E; cbn; [exact IH|].
  rewrite E. cbn. now rewrite IH.
Qed.

(** X7. [pinUser(userId, version, reason)] with an unregistered version
    throws and changes nothing. With a registered version it returns and
    the user's pin is the new one (an earlier pin of the user is
    overwritten), every other user's pin, the tenant configurations, the
    global configuration and the registry are as before, and
    [resolveVersion] with the default strategy, for a context of that
    user without an explicit version, returns the pinned version. *)
Theorem pinUser_then_resolve :
  forall (now : Z) (userId : UserId) (version : AgentVersion)
         (reason : option string) (r : VersionRouter.t),
    let r' := snd (VersionRouter.pinUser now userId version reason r) in
    (AgentRegistry.has version (VersionRouter.registry r) = false ->
     VersionRouter.pinUser now userId version reason r
     = (Throw (VersionNotFound version), r))
    /\ (AgentRegistry.has version (VersionRouter.registry r) = true ->
        fst (VersionRouter.pinUser now userId version reason r) = Ok tt
        /\ VersionRouter.getUserPin userId r'
           = Some {| UserVersionPin.userId := userId;
                     UserVersionPin.version := version;
                     UserVersionPin.pinnedAt := ValidDate now;
                     UserVersionPin.reason := reason |}
        /\ (forall u, u <> userId ->
              VersionRouter.getUserPin u r' = VersionRouter.getUserPin u r)
        /\ VersionRouter.registry r' = VersionRouter.registry r
        /\ VersionRouter.tenantConfigs r' = VersionRouter.tenantConfigs r
        /\ VersionRouter.globalConfig r' = VersionRouter.globalConfig r
        /\ forall context,
             ExecutionContext.userId context = userId ->
             truthy (ExecutionContext.version context) = None ->
             VersionRouter.resolveVersion context None r' = Ok version
             /\ VersionRouter.resolveVersion context (Some "pin") r' = Ok version).
Proof.
  intros now userId version reason r. cbv zeta. rewrite pinUser_eq.
  split; intros Hh; rewrite Hh; [reflexivity|]. cbn [fst snd].
  unfold VersionRouter.getUserPin. cbn.
  split; [reflexivity|]. split; [apply get_set_same|].
  split; [intros u Hu; now apply get_set_other|].
  do 3 (split; [reflexivity|]).
  intros context Hu Hv.
  split; unfold_resolveVersion; rewrite Hv; cbn; rewrite Hu;
    rewrite get_set_same; reflexivity.
Qed.

(** X8. [unpinUser(userId)] returns whether the user had a pin and never
    throws; afterwards the user has no pin, every other user's pin is as
    before, a second [unpinUser(userId)] returns false and changes
    nothing, and [resolveVersion] with the default strategy resolves a
    context of that user as the strategy "tenant-default" did before. *)
Theorem unpinUser_then_resolve :
  forall (userId : UserId) (r : VersionRouter.t),
    let r' := snd (VersionRouter.unpinUser userId r) in
    fst (VersionRouter.unpinUser userId r)
      = Ok (match VersionRouter.getUserPin userId r with
            | Some _ => true
            | None => false
            end)
    /\ VersionRouter.getUserPin userId r' = None
    /\ (forall u, u <> userId ->
          VersionRouter.getUserPin u r' = VersionRouter.getUserPin u r)
    /\ VersionRouter.unpinUser userId r' = (Ok false, r')
    /\ forall context,
         ExecutionContext.userId context = userId ->
         VersionRouter.resolveVersion context None r'
         = VersionRouter.resolveVersion context (Some "tenant-default") r.
Proof.
  intros userId r. cbv zeta. rewrite !unpinUser_eq. cbn [fst snd].
  unfold VersionRouter.getUserPin. cbn.
  split; [reflexivity|]. split; [apply get_delete_same|].
  split; [intros u Hu; now apply get_delete_other|].
  split.
  - rewrite has_delete, String.eqb_refl. cbn. unfold VersionRouter.set_userPins.
    cbn. now rewrite delete_delete.
  - intros context Hu. unfold_resolveVersion. cbn. rewrite Hu.
    rewrite get_delete_same.
    now destruct (truthy (AgentRegistry.getLatestVersion (VersionRouter.registry r))).
Qed.

(** X9. With the pins forming a map and [version] registered, after
    [pinUser(userId, version)] the user is listed by
    [getUsersPinnedToVersion] for that version and for no other, once,
    and after a following [unpinUser(userId)] for none; the listing of
    every other user is as before in both states. *)
Theorem pinned_users_after_pin_and_unpin :
  forall (now : Z) (userId : UserId) (version : AgentVersion)
         (reason : option string) (r : VersionRouter.t),
    JsMap.wf (VersionRouter.userPins r) = true ->
    AgentRegistry.has version (VersionRouter.registry r) = true ->
    let r1 := snd (VersionRouter.pinUser now userId version reason r) in
    let r2 := snd (VersionRouter.unpinUser userId r1) in
    (forall v u,
       In u (VersionRouter.getUsersPinnedToVersion v r1) <->
       (u = userId /\ v = version)
       \/ (u <> userId /\ In u (VersionRouter.getUsersPinnedToVersion v r)))
    /\ (forall v, NoDup (VersionRouter.getUsersPinnedToVersion v r1))
    /\ (forall v u,
          In u (VersionRouter.getUsersPinnedToVersion v r2) <->
          u <> userId /\ In u (VersionRouter.getUsersPinnedToVersion v r)).
Proof.
  intros now userId version reason r Hwf Hh. cbv zeta.
  rewrite pinUser_eq, Hh, unpinUser_eq. cbn [snd].
  set (pin := {| UserVersionPin.userId := userId;
                 UserVersionPin.version := version;
                 UserVersionPin.pinnedAt := ValidDate now;
                 UserVersionPin.reason := reason |}).
  set (r1 := VersionRouter.set_userPins (JsMap.set userId pin) r).
  set (r2 := VersionRouter.set_userPins (JsMap.delete userId) r1).
  assert (Hwf1 : JsMap.wf (VersionRouter.userPins r1) = true)
    by (cbn; now apply wf_set).
  assert (Hwf2 : JsMap.wf (VersionRouter.userPins r2) = true)
    by (cbn; now apply wf_delete, wf_set).
  assert (Hr : forall v u, In u (VersionRouter.getUsersPinnedToVersion v r) <->
                 exists p, VersionRouter.getUserPin u r = Some p
                           /\ UserVersionPin.version p = v)
    by (intros v; apply (getUsersPinnedToVersion_spec v r Hwf)).
  assert (H1 : forall v u,
             In u (VersionRouter.getUsersPinnedToVersion v r1) <->
             (u = userId /\ v = version)
             \/ (u <> userId /\ In u (VersionRouter.getUsersPinnedToVersion v r))).
  { intros v u.
    rewrite (proj2 (getUsersPinnedToVersion_spec v r1 Hwf1) u), Hr.
    unfold VersionRouter.getUserPin. cbn.
    destruct (String.eqb_spec u userId) as [->|Hne].
    - rewrite get_set_same. split.
      + intros [p [[= <-] Hv]]. left. auto.
      + intros [[_ ->]|[Hne _]]; [|contradiction]. exists pin. auto.
    - rewrite (get_set_other userId u pin _ Hne). split.
      + intros H. right. auto.
      + intros [[E _]|[_ H]]; [contradiction | exact H]. }
  split; [exact H1|]. split.
  - intros v. apply (getUsersPinnedToVersion_spec v r1 Hwf1).
  - intros v u.
    rewrite (proj2 (getUsersPinnedToVersion_spec v r2 Hwf2) u).
    unfold VersionRouter.getUserPin. cbn.
    destruct (String.eqb_spec u userId) as [->|Hne].
    + rewrite get_delete_same. split.
      * intros [p [E _]]. discriminate.
      * intros [Hne _]. contradiction.
    + rewrite (get_delete_other userId u _ Hne),
        (get_set_other userId u pin _ Hne).
      rewrite Hr. unfold VersionRouter.getUserPin. tauto.
Qed.

Lemma pinned_users_after_pin_and_unpin_witness :
  let r := Sample.router_after
             [Sample.register "v2.0"; Sample.register "v2.1";
              VersionRouter.PinUser 10 "bob" "v2.1" None] in
  let r1 := snd (VersionRouter.pinUser 20 "alice" "v2.1" None r) in
  JsMap.wf (VersionRouter.userPins r) = true
  /\ AgentRegistry.has "v2.1" (VersionRouter.registry r) = true
  /\ VersionRouter.getUsersPinnedToVersion "v2.1" r1 = ["bob"; "alice"]
  /\ In "alice" (VersionRouter.getUsersPinnedToVersion "v2.1" r1).
Proof.
  intros r r1.
  destruct (pinned_users_after_pin_and_unpin 20 "alice" "v2.1" None r
              eq_refl eq_refl) as [H1 _].
  split; [reflexivity|]. split; [reflexivity|]. split; [reflexivity|].
  apply H1. left. split; reflexivity.
Defined.

(** X10. [setTenantConfig(tenantId, config)] replaces the tenant's
    configuration as a whole and touches no other tenant. For a context
    of that tenant without an explicit version, the strategy
    "tenant-default" then returns the configuration's default version;
    and a configuration without a default version is always accepted and
    leaves the tenant with no default of its own, whatever it had before:
    the context resolves as under "global-default". *)
Theorem setTenantConfig_replaces :
  forall (tenantId : TenantId) (config : TenantConfig.t)
         (r : VersionRouter.t) (context : ExecutionContext.t),
    truthy (ExecutionContext.tenantId context) = Some tenantId ->
    truthy (ExecutionContext.version context) = None ->
    let r' := snd (VersionRouter.setTenantConfig tenantId config r) in
    VersionRouter.getTenantConfig tenantId r' = Some config
    /\ (forall t, t <> tenantId ->
          VersionRouter.getTenantConfig t r' = VersionRouter.getTenantConfig t r)
    /\ (forall v, truthy (TenantConfig.defaultVersion config) = Some v ->
          VersionRouter.resolveVersion context (Some "tenant-default") r' = Ok v)
    /\ (truthy (TenantConfig.defaultVersion config) = None ->
        fst (VersionRouter.setTenantConfig tenantId config r) = Ok tt
        /\ VersionRouter.resolveVersion context (Some "tenant-default") r'
           = VersionRouter.resolveVersion context (Some "global-default") r).
Proof.
  intros tenantId config r context Ht Hv. cbv zeta.
  rewrite setTenantConfig_eq. cbn [fst snd].
  unfold VersionRouter.getTenantConfig. cbn.
  split; [apply get_set_same|].
  split; [intros t Hne; now apply get_set_other|].
  split.
  - intros v Hd. unfold_resolveVersion. rewrite Hv, Ht. cbn.
    now rewrite get_set_same, Hd.
  - intros Hd. rewrite Hd. split; [reflexivity|].
    unfold_resolveVersion. rewrite Hv, Ht. cbn.
    rewrite get_set_same, Hd. cbn.
    destruct (VersionRouter.globalConfig r) as [g|]; cbn;
      [destruct (GlobalConfig.defaultVersion g =? "")%string; cbn|];
      try reflexivity;
      now destruct (truthy (AgentRegistry.getLatestVersion (VersionRouter.registry r))).
Qed.

Lemma setTenantConfig_replaces_witness :
  let r := Sample.router_after
             [Sample.register "v1.0"; Sample.register "v2.0";
              VersionRouter.SetGlobalConfig (Sample.global "v1.0" []);
              VersionRouter.SetTenantConfig "acme"
                (Sample.tenant "acme" (Some "v2.0"))] in
  let context := Sample.context "alice" (Some "acme") None in
  let r' := snd (VersionRouter.setTenantConfig "acme" (Sample.tenant "acme" None) r) in
  truthy (ExecutionContext.tenantId context) = Some "acme"
  /\ truthy (ExecutionContext.version context) = None
  /\ VersionRouter.resolveVersion context (Some "tenant-default") r = Ok "v2.0"
  /\ VersionRouter.resolveVersion context (Some "tenant-default") r' = Ok "v1.0"
  /\ VersionRouter.getTenantConfig "acme" r' = Some (Sample.tenant "acme" None).
Proof.
  intros r context r'.
  destruct (setTenantConfig_replaces "acme" (Sample.tenant "acme" None) r context
              eq_refl eq_refl) as [Hget _].
  split; [reflexivity|]. split; [reflexivity|]. split; [reflexivity|].
  split; [reflexivity | exact Hget].
Defined.

(** X11. [setGlobalConfig] with a registered default version returns,
    stores the configuration and moves the registry's default version to
    it, leaving the registered versions as they are. The coupling is one
    way: a later [setDefaultVersion(w)] on the registry moves the
    registry's default only, and the strategy "global-default" still
    returns the default version of the stored global configuration. *)
Theorem global_default_coupling :
  forall (g : GlobalConfig.t) (w : AgentVersion) (r : VersionRouter.t)
         (context : ExecutionContext.t),
    registry_invariant (VersionRouter.registry r) = true ->
    AgentRegistry.has (GlobalConfig.defaultVersion g) (VersionRouter.registry r)
      = true ->
    AgentRegistry.has w (VersionRouter.registry r) = true ->
    truthy (ExecutionContext.version context) = None ->
    let r1 := snd (VersionRouter.setGlobalConfig g r) in
    let r2 := snd (VersionRouter.on_registry
                     (AgentRegistry.setDefaultVersion w) r1) in
    fst (VersionRouter.setGlobalConfig g r) = Ok tt
    /\ VersionRouter.getGlobalConfig r1 = Some g
    /\ AgentRegistry.getDefaultVersion (VersionRouter.registry r1)
       = Some (GlobalConfig.defaultVersion g)
    /\ AgentRegistry.configs (VersionRouter.registry r1)
       = AgentRegistry.configs (VersionRouter.registry r)
    /\ VersionRouter.resolveVersion context (Some "global-default") r1
       = Ok (GlobalConfig.defaultVersion g)
    /\ AgentRegistry.getDefaultVersion (VersionRouter.registry r2) = Some w
    /\ VersionRouter.getGlobalConfig r2 = Some g
    /\ VersionRouter.resolveVersion context (Some "global-default") r2
       = Ok (GlobalConfig.defaultVersion g).
Proof.
  intros g w r context Hinv Hg Hw Hv. cbv zeta.
  assert (Hne : GlobalConfig.defaultVersion g <> "").
  { apply registry_invariant_iff in Hinv as [_ [Hne _]].
    apply Hne. now apply has_in_keys. }
  rewrite setGlobalConfig_eq, Hg. cbn [fst snd].
  unfold VersionRouter.on_registry. rewrite setDefaultVersion_eq.
  cbn [VersionRouter.registry VersionRouter.set_registry].
  unfold AgentRegistry.has in *. cbn [AgentRegistry.configs
    AgentRegistry.set_defaultVersion]. rewrite Hw. cbn [snd].
  do 4 (split; [reflexivity|]).
  assert (Htruthy : truthy (Some (GlobalConfig.defaultVersion g))
                    = Some (GlobalConfig.defaultVersion g))
    by now apply truthy_some.
  split; [|split; [reflexivity|split; [reflexivity|]]];
    unfold_resolveVersion; rewrite Hv;
    cbn [VersionRouter.globalConfig VersionRouter.set_registry
         VersionRouter.set_globalConfig];
    rewrite Htruthy; reflexivity.
Qed.

Lemma global_default_coupling_witness :
  let r := Sample.router_after [Sample.register "v1.0"; Sample.register "v2.0"] in
  let context := Sample.context "alice" None None in
  let r1 := snd (VersionRouter.setGlobalConfig (Sample.global "v2.0" []) r) in
  let r2 := snd (VersionRouter.on_registry
                   (AgentRegistry.setDefaultVersion "v1.0") r1) in
  registry_invariant (VersionRouter.registry r) = true
  /\ AgentRegistry.has "v2.0" (VersionRouter.registry r) = true
  /\ AgentRegistry.has "v1.0" (VersionRouter.registry r) = true
  /\ truthy (ExecutionContext.version context) = None
  /\ AgentRegistry.getDefaultVersion (VersionRouter.registry r2) = Some "v1.0"
  /\ VersionRouter.resolveVersion context (Some "global-default") r2 = Ok "v2.0".
Proof.
  intros r context r1 r2.
  destruct (global_default_coupling (Sample.global "v2.0" []) "v1.0" r context
              eq_refl eq_refl eq_refl eq_refl)
    as [_ [_ [_ [_ [_ [Hd [_ Hres]]]]]]].
  do 4 (split; [reflexivity|]). split; [exact Hd | exact Hres].
Defined.

Lemma getLatestVersion_ignores_default reg d :
  (exists v, In v (AgentRegistry.getVersions reg) /\ semver_triple v <> None) ->
  AgentRegistry.getLatestVersion (AgentRegistry.set_defaultVersion d reg)
  = AgentRegistry.getLatestVersion reg.
Proof.
  intros [v [Hv Hm]]. unfold AgentRegistry.getLatestVersion.
  change (AgentRegistry.getVersions (AgentRegistry.set_defaultVersion d reg))
    with (AgentRegistry.getVersions reg).
  destruct (AgentRegistry.getVersions reg) as [|first rest] eqn:Ev;
    [reflexivity|].
  destruct (AgentRegistry.semanticVersions (first :: rest)) eqn:Es;
    [|reflexivity].
  exfalso. apply Hm. unfold semver_triple.
  now rewrite (semanticVersions_nil _ Es v Hv).
Qed.

(** X12. When some registered identifier matches the version pattern,
    [resolveVersion] does not depend on the registry's default version:
    with any other default, or none, it gives the same result for every
    context and strategy. *)
Theorem resolveVersion_ignores_registry_default :
  forall (r : VersionRouter.t) (d : option AgentVersion)
         (context : ExecutionContext.t) (strategy : option string),
    (exists v, In v (AgentRegistry.getVersions (VersionRouter.registry r))
               /\ semver_triple v <> None) ->
    VersionRouter.resolveVersion context strategy
      (VersionRouter.set_registry
         (AgentRegistry.set_defaultVersion d (VersionRouter.registry r)) r)
    = VersionRouter.resolveVersion context strategy r.
Proof.
  intros r d context strategy Hm. unfold_resolveVersion.
  cbn [VersionRouter.registry VersionRouter.userPins VersionRouter.tenantConfigs
       VersionRouter.globalConfig VersionRouter.set_registry].
  rewrite (getLatestVersion_ignores_default _ d Hm).
  reflexivity.
Qed.

Lemma resolveVersion_ignores_registry_default_witness :
  let r := Sample.router_after [Sample.register "v1.0"; Sample.register "v2.0"] in
  let context := Sample.context "alice" None None in
  AgentRegistry.getDefaultVersion (VersionRouter.registry r) = Some "v1.0"
  /\ VersionRouter.resolveVersion context None r = Ok "v2.0"
  /\ VersionRouter.resolveVersion context None
       (VersionRouter.set_registry
          (AgentRegistry.set_defaultVersion None (VersionRouter.registry r)) r)
     = VersionRouter.resolveVersion context None r.
Proof.
  intros r context. split; [reflexivity|]. split; [reflexivity|].
  apply (resolveVersion_ignores_registry_default r None context None).
  exists "v1.0". split; [now left | discriminate].
Defined.

(** X13. Without an explicit version in the context, a non-empty
    strategy token other than "pin", "tenant-default", "global-default"
    and "latest" makes [resolveVersion] throw an invalid-argument error
    naming the token, in every state: no pin, tenant or global
    configuration is consulted. The empty token counts as no strategy. *)
Theorem unknown_strategy_throws :
  forall (context : ExecutionContext.t) (token : string) (r : VersionRouter.t),
    truthy (ExecutionContext.version context) = None ->
    token <> "" ->
    token <> "pin" -> token <> "tenant-default" ->
    token <> "global-default" -> token <> "latest" ->
    VersionRouter.resolveVersion context (Some token) r
      = Throw (UnknownRoutingStrategy token)
    /\ kind (UnknownRoutingStrategy token) = InvalidArgumentError
    /\ VersionRouter.resolveVersion context (Some "") r
       = VersionRouter.resolveVersion context None r.
Proof.
  intros context token r Hv H0 H1 H2 H3 H4.
  split; [|split; reflexivity].
  unfold_resolveVersion. rewrite Hv, (truthy_some token H0).
  apply String.eqb_neq in H1, H2, H3, H4.
  now rewrite H1, H2, H3, H4.
Qed.

Lemma unknown_strategy_throws_witness :
  let r := Sample.router_after
             [Sample.register "v1.0";
              VersionRouter.PinUser 10 "alice" "v1.0" None] in
  VersionRouter.resolveVersion (Sample.context "alice" None None)
    (Some "Pin") r = Throw (UnknownRoutingStrategy "Pin").
Proof.
  intros r.
  apply (unknown_strategy_throws (Sample.context "alice" None None) "Pin" r);
    [reflexivity | discriminate..].
Defined.

(* ================================================================== *)
(** * Further properties of migration *)

(** Re-pinning users that have a pin keeps the keys of the pin map, in
    their order. *)
Lemma migrate_loop_keys fromVersion toVersion clock users :
  forall i migrated r,
    AgentRegistry.has toVersion (VersionRouter.registry r) = true ->
    (forall u, In u users -> JsMap.has u (VersionRouter.userPins r) = true) ->
    JsMap.keys (VersionRouter.userPins
                  (snd (VersionRouter.migrate_loop clock i fromVersion toVersion
                          users migrated r)))
    = JsMap.keys (VersionRouter.userPins r).
Proof.
  induction users as [|u users IH]; intros i migrated r Hto Hhas;
    cbn [VersionRouter.migrate_loop]; [reflexivity|].
  unfold bind. rewrite pinUser_eq, Hto. cbn beta iota.
  rewrite IH.
  - cbn. rewrite keys_set. now rewrite (Hhas u (or_introl eq_refl)).
  - exact Hto.
  - intros u' Hu'. cbn. rewrite has_set, (Hhas u' (or_intror Hu')).
    apply orb_true_r.
Qed.

Lemma NoDup_same_length {A : Type} (l l' : list A) :
  NoDup l -> NoDup l' -> (forall x, In x l <-> In x l') -> length l = length l'.
Proof.
  intros Hl Hl' H. apply Nat.le_antisymm; apply NoDup_incl_length; trivial;
    intros x Hx; now apply H.
Qed.

(** The users listed for each version after a migration. *)
Lemma migrateUsers_users clock r fromVersion toVersion :
  JsMap.wf (VersionRouter.userPins r) = true ->
  AgentRegistry.has toVersion (VersionRouter.registry r) = true ->
  let r' := snd (VersionRouter.migrateUsers clock fromVersion toVersion r) in
  JsMap.wf (VersionRouter.userPins r') = true
  /\ VersionRouter.registry r' = VersionRouter.registry r
  /\ JsMap.keys (VersionRouter.userPins r') = JsMap.keys (VersionRouter.userPins r)
  /\ forall v u,
       In u (VersionRouter.getUsersPinnedToVersion v r') <->
       (v = toVersion /\ In u (VersionRouter.getUsersPinnedToVersion fromVersion r))
       \/ (v <> fromVersion /\ In u (VersionRouter.getUsersPinnedToVersion v r)).
Proof.
  intros Hwf Hto. cbv zeta.
  destruct (getUsersPinnedToVersion_spec fromVersion r Hwf) as [_ Hfrom].
  pose proof (migrate_loop_keys fromVersion toVersion clock
                (VersionRouter.getUsersPinnedToVersion fromVersion r) 0 0 r Hto)
    as Hkeys.
  destruct (migrate_loop_spec fromVersion toVersion clock
              (VersionRouter.getUsersPinnedToVersion fromVersion r) 0 0 r Hto)
    as [pins' [E [Hin [Hout Hwf']]]].
  rewrite migrateUsers_eq, Hto. rewrite E in *. cbn [snd] in *.
  set (r' := VersionRouter.set_userPins (fun _ => pins') r) in *.
  assert (Hwf1 : JsMap.wf (VersionRouter.userPins r') = true) by (cbn; auto).
  split; [exact Hwf1|]. split; [reflexivity|]. split.
  - apply Hkeys. intros u Hu. apply Hfrom in Hu as [p [Hp _]].
    apply has_true_iff. eauto.
  - intros v u.
    rewrite (proj2 (getUsersPinnedToVersion_spec v r' Hwf1) u).
    rewrite (proj2 (getUsersPinnedToVersion_spec v r Hwf) u).
    unfold VersionRouter.getUserPin. cbn [VersionRouter.userPins r'
      VersionRouter.set_userPins].
    destruct (in_dec string_dec u
                (VersionRouter.getUsersPinnedToVersion fromVersion r)) as [Hi|Hni].
    + destruct (Hin u Hi) as [now Hm]. rewrite Hm.
      apply Hfrom in Hi as Hp. destruct Hp as [p [Hp Hpv]].
      unfold VersionRouter.getUserPin in Hp. split.
      * intros [p' [[= <-] Hv]]. cbn in Hv. left. auto.
      * intros [[-> _]|[Hne [p' [Hp' Hv]]]].
        -- eexists. split; [reflexivity|]. reflexivity.
        -- rewrite Hp in Hp'. injection Hp' as <-. congruence.
    + rewrite (Hout u Hni). split.
      * intros [p [Hp Hv]]. right. split; [|eauto].
        intros ->. apply Hni, Hfrom. eauto.
      * intros [[_ Hi]|[_ H]]; [contradiction | exact H].
Qed.

Lemma migrateUsers_count clock r fromVersion toVersion :
  AgentRegistry.has toVersion (VersionRouter.registry r) = true ->
  fst (VersionRouter.migrateUsers clock fromVersion toVersion r)
  = Ok (length (VersionRouter.getUsersPinnedToVersion fromVersion r)).
Proof.
  intros Hto.
  destruct (migrate_loop_spec fromVersion toVersion clock
              (VersionRouter.getUsersPinnedToVersion fromVersion r) 0 0 r Hto)
    as [pins' [E _]].
  now rewrite migrateUsers_eq, Hto, E.
Qed.

Lemma migrateUsers_target_length clock r fromVersion toVersion :
  JsMap.wf (VersionRouter.userPins r) = true ->
  AgentRegistry.has toVersion (VersionRouter.registry r) = true ->
  fromVersion <> toVersion ->
  length (VersionRouter.getUsersPinnedToVersion toVersion
            (snd (VersionRouter.migrateUsers clock fromVersion toVersion r)))
  = length (VersionRouter.getUsersPinnedToVersion toVersion r)
    + length (VersionRouter.getUsersPinnedToVersion fromVersion r).
Proof.
  intros Hwf Hto Hne.
  destruct (migrateUsers_users clock r fromVersion toVersion Hwf Hto)
    as [Hwf' [_ [_ Husers]]].
  cbv zeta in *. rewrite <- length_app.
  destruct (getUsersPinnedToVersion_spec toVersion _ Hwf') as [Hnd' _].
  destruct (getUsersPinnedToVersion_spec toVersion r Hwf) as [Hndt Hint].
  destruct (getUsersPinnedToVersion_spec fromVersion r Hwf) as [Hndf Hinf].
  apply NoDup_same_length; [exact Hnd' | |].
  - apply NoDup_app; [exact Hndt | exact Hndf |].
    intros u Hut Huf. apply Hint in Hut as [p [Hp Hv]].
    apply Hinf in Huf as [p' [Hp' Hv']]. congruence.
  - intros u. rewrite in_app_iff, Husers.
    assert (toVersion <> fromVersion) by congruence. tauto.
Qed.

(** X14. With the pins forming a map and the target registered,
    [migrateUsers] neither adds nor removes a pinned user and keeps the
    iteration order of the pins; the users listed for a version
    afterwards are, for the target, those listed for the source or for
    the target before, for the source (when it differs from the target)
    none, and for any other version those listed before. When source and
    target differ, the number of users on the target grows by the number
    returned. *)
Theorem migrateUsers_conserves_users :
  forall (clock : nat -> Z) (r : VersionRouter.t)
         (fromVersion toVersion : AgentVersion),
    JsMap.wf (VersionRouter.userPins r) = true ->
    AgentRegistry.has toVersion (VersionRouter.registry r) = true ->
    let r' := snd (VersionRouter.migrateUsers clock fromVersion toVersion r) in
    JsMap.keys (VersionRouter.userPins r') = JsMap.keys (VersionRouter.userPins r)
    /\ (forall u,
          In u (VersionRouter.getUsersPinnedToVersion toVersion r') <->
          In u (VersionRouter.getUsersPinnedToVersion fromVersion r)
          \/ In u (VersionRouter.getUsersPinnedToVersion toVersion r))
    /\ (forall v, v <> fromVersion -> v <> toVersion ->
          forall u, In u (VersionRouter.getUsersPinnedToVersion v r') <->
                    In u (VersionRouter.getUsersPinnedToVersion v r))
    /\ (fromVersion <> toVersion ->
        VersionRouter.getUsersPinnedToVersion fromVersion r' = []
        /\ length (VersionRouter.getUsersPinnedToVersion toVersion r')
           = length (VersionRouter.getUsersPinnedToVersion toVersion r)
             + length (VersionRouter.getUsersPinnedToVersion fromVersion r)
        /\ fst (VersionRouter.migrateUsers clock fromVersion toVersion r)
           = Ok (length (VersionRouter.getUsersPinnedToVersion fromVersion r))).
Proof.
  intros clock r fromVersion toVersion Hwf Hto.
  destruct (migrateUsers_users clock r fromVersion toVersion Hwf Hto)
    as [Hwf' [_ [Hkeys Husers]]].
  cbv zeta in *. split; [exact Hkeys|]. split; [|split].
  - intros u. rewrite Husers.
    destruct (string_dec toVersion fromVersion) as [->|Hne]; tauto.
  - intros v Hf Ht u. rewrite Husers. tauto.
  - intros Hne.
    destruct (migrateUsers_leaves_none clock r fromVersion toVersion Hwf Hto Hne)
      as [Hnone _].
    cbv zeta in Hnone. split; [exact Hnone|]. split.
    + now apply migrateUsers_target_length.
    + now apply migrateUsers_count.
Qed.

Lemma migrateUsers_conserves_users_witness :
  let r := Sample.router_after
             [Sample.register "v2.0"; Sample.register "v2.1";
              VersionRouter.PinUser 10 "alice" "v2.1" None;
              VersionRouter.PinUser 20 "bob" "v2.0" None;
              VersionRouter.PinUser 30 "carol" "v2.1" None] in
  let r' := snd (VersionRouter.migrateUsers Sample.clock "v2.1" "v2.0" r) in
  JsMap.wf (VersionRouter.userPins r) = true
  /\ AgentRegistry.has "v2.0" (VersionRouter.registry r) = true
  /\ VersionRouter.getUsersPinnedToVersion "v2.0" r' = ["alice"; "bob"; "carol"]
  /\ JsMap.keys (VersionRouter.userPins r') = JsMap.keys (VersionRouter.userPins r).
Proof.
  intros r r'.
  destruct (migrateUsers_conserves_users Sample.clock r "v2.1" "v2.0"
              eq_refl eq_refl) as [Hkeys _].
  do 3 (split; [reflexivity|]). exact Hkeys.
Defined.

(** X15. Migrations compose. With the pins forming a map, [b] and [c]
    registered and [a] different from [b], [migrateUsers(a, b)] followed
    by [migrateUsers(b, c)] moves on the users of both: the second call
    returns the number of users that were pinned to [a] or to [b] at the
    start, and afterwards the users pinned to [c] are those that were
    pinned to [a], [b] or [c]. *)
Theorem migrateUsers_composes :
  forall (clock1 clock2 : nat -> Z) (r : VersionRouter.t) (a b c : AgentVersion),
    JsMap.wf (VersionRouter.userPins r) = true ->
    AgentRegistry.has b (VersionRouter.registry r) = true ->
    AgentRegistry.has c (VersionRouter.registry r) = true ->
    a <> b ->
    let r1 := snd (VersionRouter.migrateUsers clock1 a b r) in
    let r2 := snd (VersionRouter.migrateUsers clock2 b c r1) in
    fst (VersionRouter.migrateUsers clock2 b c r1)
      = Ok (length (VersionRouter.getUsersPinnedToVersion a r)
            + length (VersionRouter.getUsersPinnedToVersion b r))
    /\ forall u,
         In u (VersionRouter.getUsersPinnedToVersion c r2) <->
         In u (VersionRouter.getUsersPinnedToVersion a r)
         \/ In u (VersionRouter.getUsersPinnedToVersion b r)
         \/ In u (VersionRouter.getUsersPinnedToVersion c r).
Proof.
  intros clock1 clock2 r a b c Hwf Hb Hc Hab. cbv zeta.
  destruct (migrateUsers_users clock1 r a b Hwf Hb) as [Hwf1 [Hreg1 [_ Hu1]]].
  cbv zeta in *.
  set (r1 := snd (VersionRouter.migrateUsers clock1 a b r)) in *.
  assert (Hc1 : AgentRegistry.has c (VersionRouter.registry r1) = true)
    by now rewrite Hreg1.
  destruct (migrateUsers_users clock2 r1 b c Hwf1 Hc1) as [_ [_ [_ Hu2]]].
  cbv zeta in *. split.
  - rewrite (migrateUsers_count clock2 r1 b c Hc1). f_equal.
    unfold r1. rewrite (migrateUsers_target_length clock1 r a b Hwf Hb Hab).
    apply Nat.add_comm.
  - intros u. rewrite Hu2, !Hu1.
    assert (Hba : b <> a) by congruence.
    destruct (string_dec c b) as [Ecb|Hcb]; [subst c; tauto|].
    destruct (string_dec c a) as [Eca|Hca]; [subst c|]; tauto.
Qed.

Lemma migrateUsers_composes_witness :
  let r := Sample.router_after
             [Sample.register "v1.0"; Sample.register "v2.0";
              Sample.register "v3.0";
              VersionRouter.PinUser 10 "alice" "v1.0" None;
              VersionRouter.PinUser 20 "bob" "v2.0" None;
              VersionRouter.PinUser 30 "carol" "v1.0" None] in
  let r1 := snd (VersionRouter.migrateUsers Sample.clock "v1.0" "v2.0" r) in
  JsMap.wf (VersionRouter.userPins r) = true
  /\ AgentRegistry.has "v2.0" (VersionRouter.registry r) = true
  /\ AgentRegistry.has "v3.0" (VersionRouter.registry r) = true
  /\ "v1.0" <> "v2.0"
  /\ fst (VersionRouter.migrateUsers Sample.clock "v2.0" "v3.0" r1) = Ok 3.
Proof.
  intros r r1.
  assert ("v1.0" <> "v2.0") as Hne by discriminate.
  destruct (migrateUsers_composes Sample.clock Sample.clock r "v1.0" "v2.0" "v3.0"
              eq_refl eq_refl eq_refl Hne) as [Hcount _].
  do 3 (split; [reflexivity|]). split; [exact Hne | exact Hcount].
Defined.

(** X16. [migrateUsers] validates the target only. With an unregistered
    target it throws and changes nothing. With a registered target, and
    the pins forming a map, every user that was pinned to the source
    resolves to the target afterwards (default strategy, no explicit
    version), whether or not the source is still registered: pins left
    behind on a removed version are repaired this way. *)
Theorem migrated_users_resolve_to_target :
  forall (clock : nat -> Z) (r : VersionRouter.t)
         (fromVersion toVersion : AgentVersion) (context : ExecutionContext.t),
    (AgentRegistry.has toVersion (VersionRouter.registry r) = false ->
     VersionRouter.migrateUsers clock fromVersion toVersion r
     = (Throw (TargetVersionNotFound toVersion), r))
    /\ (JsMap.wf (VersionRouter.userPins r) = true ->
        AgentRegistry.has toVersion (VersionRouter.registry r) = true ->
        In (ExecutionContext.userId context)
           (VersionRouter.getUsersPinnedToVersion fromVersion r) ->
        truthy (ExecutionContext.version context) = None ->
        let r' := snd (VersionRouter.migrateUsers clock fromVersion toVersion r) in
        VersionRouter.resolveVersion context None r' = Ok toVersion
        /\ AgentRegistry.has toVersion (VersionRouter.registry r') = true).
Proof.
  intros clock r fromVersion toVersion context. split.
  - intros Hto. now rewrite migrateUsers_eq, Hto.
  - intros Hwf Hto Hu Hv. cbv zeta.
    destruct (migrate_loop_spec fromVersion toVersion clock
                (VersionRouter.getUsersPinnedToVersion fromVersion r) 0 0 r Hto)
      as [pins' [E [Hin _]]].
    rewrite migrateUsers_eq, Hto, E. cbn [snd]. split; [|exact Hto].
    destruct (Hin _ Hu) as [now Hpin].
    unfold_resolveVersion. rewrite Hv. cbn. now rewrite Hpin.
Qed.

Lemma migrated_users_resolve_to_target_witness :
  let r := Sample.router_after
             [Sample.register "v1.0"; Sample.register "v2.0";
              VersionRouter.PinUser 10 "alice" "v2.0" None;
              VersionRouter.OnRegistry (AgentRegistry.Remove "v2.0")] in
  let context := Sample.context "alice" None None in
  let r' := snd (VersionRouter.migrateUsers Sample.clock "v2.0" "v1.0" r) in
  AgentRegistry.has "v2.0" (VersionRouter.registry r) = false
  /\ VersionRouter.resolveVersion context None r = Ok "v2.0"
  /\ JsMap.wf (VersionRouter.userPins r) = true
  /\ AgentRegistry.has "v1.0" (VersionRouter.registry r) = true
  /\ In (ExecutionContext.userId context)
        (VersionRouter.getUsersPinnedToVersion "v2.0" r)
  /\ truthy (ExecutionContext.version context) = None
  /\ VersionRouter.resolveVersion context None r' = Ok "v1.0".
Proof.
  intros r context r'.
  assert (Hin : In (ExecutionContext.userId context)
                   (VersionRouter.getUsersPinnedToVersion "v2.0" r))
    by (now left).
  destruct (migrated_users_resolve_to_target Sample.clock r "v2.0" "v1.0" context)
    as [_ Hres].
  destruct (Hres eq_refl eq_refl Hin eq_refl) as [Hok _].
  do 4 (split; [reflexivity|]). split; [exact Hin|].
  split; [reflexivity | exact Hok].
Defined.

(* ================================================================== *)
(** * The in-memory logger *)

Lemma differs_false a b : differs a b = false <-> a = Some b.
Proof.
  destruct a as [s|]; cbn; [|split; discriminate].
  rewrite negb_false_iff, String.eqb_eq. split; congruence.
Qed.

Lemma truthy_guard (o : option string) (test : string -> bool) :
  match truthy o with Some x => test x | None => false end = false <->
  forall x, truthy o = Some x -> test x = false.
Proof.
  destruct (truthy o) as [x|]; split; auto.
  - intros H x' [= <-]. exact H.
  - intros _ x' E. discriminate.
Qed.

Lemma date_lt_false a b :
  date_lt a b = false <->
  forall x y, a = ValidDate x -> b = ValidDate y -> (y <= x)%Z.
Proof.
  destruct a as [x|], b as [y|]; cbn; split; auto; try discriminate.
  - intros H x' y' [= <-] [= <-]. now apply Z.ltb_ge.
  - intros H. apply Z.ltb_ge. now apply H.
Qed.

(** X17. [queryLogs(filters)] returns exactly the logged entries that
    meet every filter that is set: the user, the tenant and the version
    must be equal to a filter that is a non-empty string (an empty
    string filters nothing, and an entry without tenant meets no tenant
    filter), and the time stamp must lie between [startTime] and
    [endTime], both bounds included. A bound that is an invalid date
    excludes nothing, and an entry whose time stamp is invalid passes
    every time window. *)
Theorem queryLogs_spec :
  forall (filters : InMemoryLogger.Filters) (logs : InMemoryLogger.t)
         (entry : AgentLogEntry.t),
    In entry (InMemoryLogger.queryLogs filters logs) <->
    In entry (InMemoryLogger.getAllLogs logs)
    /\ (forall u, truthy (InMemoryLogger.userId filters) = Some u ->
                  AgentLogEntry.userId entry = u)
    /\ (forall t, truthy (InMemoryLogger.tenantId filters) = Some t ->
                  AgentLogEntry.tenantId entry = Some t)
    /\ (forall v, truthy (InMemoryLogger.version filters) = Some v ->
                  AgentLogEntry.version entry = v)
    /\ (forall s ms, InMemoryLogger.startTime filters = Some (ValidDate s) ->
                     AgentLogEntry.timestamp entry = ValidDate ms ->
                     (s <= ms)%Z)
    /\ (forall e ms, InMemoryLogger.endTime filters = Some (ValidDate e) ->
                     AgentLogEntry.timestamp entry = ValidDate ms ->
                     (ms <= e)%Z).
Proof.
  intros filters logs entry.
  unfold InMemoryLogger.queryLogs, InMemoryLogger.getAllLogs.
  rewrite filter_In.
  assert (Hkeeps : InMemoryLogger.keeps filters entry = true <->
    match truthy (InMemoryLogger.userId filters) with
    | Some u => differs (Some (AgentLogEntry.userId entry)) u
    | None => false
    end = false
    /\ match truthy (InMemoryLogger.tenantId filters) with
       | Some t => differs (AgentLogEntry.tenantId entry) t
       | None => false
       end = false
    /\ match truthy (InMemoryLogger.version filters) with
       | Some v => differs (Some (AgentLogEntry.version entry)) v
       | None => false
       end = false
    /\ match InMemoryLogger.startTime filters with
       | Some s => date_lt (AgentLogEntry.timestamp entry) s
       | None => false
       end = false
    /\ match InMemoryLogger.endTime filters with
       | Some e => date_lt e (AgentLogEntry.timestamp entry)
       | None => false
       end = false).
  { unfold InMemoryLogger.keeps.
    repeat match goal with
           | |- context [if ?b then false else _] => destruct b
           end; intuition congruence. }
  rewrite Hkeeps, !truthy_guard.
  assert (Hsome : forall (a : string) b, Some a = Some b <-> a = b)
    by (intros a b; split; congruence).
  split; intros [Hin [Hu [Ht [Hv [Hs He]]]]]; (split; [exact Hin|]).
  - repeat split.
    + intros u E. apply Hsome, differs_false. auto.
    + intros t E. apply differs_false. auto.
    + intros v E. apply Hsome, differs_false. auto.
    + intros s ms Es Et. rewrite Es in Hs.
      apply (proj1 (date_lt_false _ _) Hs ms s); [exact Et | reflexivity].
    + intros e ms Ee Et. rewrite Ee in He.
      apply (proj1 (date_lt_false _ _) He e ms); [reflexivity | exact Et].
  - repeat split.
    + intros u E. apply differs_false. f_equal. auto.
    + intros t E. apply differs_false. auto.
    + intros v E. apply differs_false. f_equal. auto.
    + destruct (InMemoryLogger.startTime filters) as [s|]; [|reflexivity].
      apply date_lt_false. intros x y Ex ->. eauto.
    + destruct (InMemoryLogger.endTime filters) as [e|]; [|reflexivity].
      apply date_lt_false. intros x y -> Ey. eauto.
Qed.


(* ================================================================== *)
(** * The executor *)

(** X19. [applyTenantOverrides] changes at most the model, the
    temperature and the maximum of tokens: the version, prompt, provider,
    parameters and metadata of the configuration are kept. It returns the
    configuration as it is when the context has no tenant, when the
    tenant has no configuration, and when that has no overrides.
    Otherwise each of the three fields takes what the overrides hold
    under its key when the key is present, unchecked by the schema, also
    when that is [undefined], and the configuration's value when the key
    is absent; spreading the overrides a second time changes nothing. *)
Theorem applyTenantOverrides_spec :
  forall (router : VersionRouter.t) (config : AgentConfig.t)
         (context : ExecutionContext.t),
    let final := AgentExecutor.applyTenantOverrides router config context in
    FinalConfig.version final = AgentConfig.version config
    /\ FinalConfig.prompt final = AgentConfig.prompt config
    /\ FinalConfig.provider final = AgentConfig.provider config
    /\ FinalConfig.parameters final = AgentConfig.parameters config
    /\ FinalConfig.metadata final = AgentConfig.metadata config
    /\ (truthy (ExecutionContext.tenantId context) = None ->
        final = FinalConfig.of_config config)
    /\ (forall t, truthy (ExecutionContext.tenantId context) = Some t ->
          match VersionRouter.getTenantConfig t router with
          | None => final = FinalConfig.of_config config
          | Some tenantConfig =>
              match TenantConfig.promptOverrides tenantConfig with
              | None => final = FinalConfig.of_config config
              | Some overrides =>
                  FinalConfig.model final
                  = match TenantConfig.model overrides with
                    | Absent => Some (AgentConfig.model config)
                    | Undefined => None
                    | Value m => Some m
                    end
                  /\ FinalConfig.temperature final
                     = match TenantConfig.temperature overrides with
                       | Absent => Some (AgentConfig.temperature config)
                       | Undefined => None
                       | Value x => Some x
                       end
                  /\ FinalConfig.maxTokens final
                     = match TenantConfig.maxTokens overrides with
                       | Absent => AgentConfig.maxTokens config
                       | Undefined => None
                       | Value x => Some x
                       end
                  /\ AgentExecutor.spread final overrides = final
              end
          end).
Proof.
  intros router config context. cbv zeta.
  unfold AgentExecutor.applyTenantOverrides.
  destruct (truthy (ExecutionContext.tenantId context)) as [t|];
    [|repeat split; intros; discriminate].
  destruct (VersionRouter.getTenantConfig t router) as [tenantConfig|] eqn:Et.
  - destruct (TenantConfig.promptOverrides tenantConfig) as [o|] eqn:Eo.
    + do 5 (split; [reflexivity|]). split; [discriminate|].
      intros t' [= <-]. rewrite Et, Eo. do 3 (split; [reflexivity|]).
      unfold AgentExecutor.spread. cbn.
      destruct (TenantConfig.model o), (TenantConfig.temperature o),
        (TenantConfig.maxTokens o); reflexivity.
    + do 5 (split; [reflexivity|]). split; [discriminate|].
      intros t' [= <-]. now rewrite Et, Eo.
  - do 5 (split; [reflexivity|]). split; [discriminate|].
    intros t' [= <-]. now rewrite Et.
Qed.

(** A key that holds [undefined] is copied by the spread: a tenant
    whose overrides are [{ temperature: undefined }] leaves the
    configuration that a provider receives without temperature. *)
Lemma applyTenantOverrides_undefined_key :
  let overrides := {| TenantConfig.temperature := Undefined;
                      TenantConfig.maxTokens := Absent;
                      TenantConfig.model := Value "gpt-4o" |} in
  let tenant := {| TenantConfig.tenantId := "acme";
                   TenantConfig.defaultVersion := None;
                   TenantConfig.promptOverrides := Some overrides;
                   TenantConfig.costLimits := None;
                   TenantConfig.features := None |} in
  let router := Sample.router_after
                  [Sample.register "v1.0";
                   VersionRouter.SetTenantConfig "acme" tenant] in
  let final := AgentExecutor.applyTenantOverrides router (Sample.config "v1.0")
                 (Sample.context "alice" (Some "acme") None) in
  FinalConfig.temperature final = None
  /\ FinalConfig.model final = Some "gpt-4o"
  /\ FinalConfig.maxTokens final = None
  /\ FinalConfig.provider final = "openai".
Proof. repeat split. Qed.

Ltac run_execute :=
  unfold AgentExecutor.execute, AgentExecutor.attempt, AgentExecutor.handler,
    AgentExecutor.and_then, AgentExecutor.settle, AgentExecutor.log,
    AgentExecutor.logExecution, AgentExecutor.resolve, AgentExecutor.reject;
  cbn beta iota zeta.

(** The provider that [execute] obtains is resolved without touching the
    logs, and a rejection leaves the executor as it was. *)
Lemma provider_for_frame env config ex :
  let out := AgentExecutor.provider_for env config ex in
  AgentExecutor.logger (snd out) = AgentExecutor.logger ex
  /\ AgentExecutor.structuredLogger (snd out) = AgentExecutor.structuredLogger ex
  /\ (forall e, fst out = AgentExecutor.Rejected e -> snd out = ex).
Proof.
  cbv zeta. unfold AgentExecutor.provider_for.
  destruct (JsMap.get _ (AgentExecutor.providers ex)) as [provider|].
  - cbn. repeat split; intros; congruence.
  - destruct (AgentExecutor.create env (AgentConfig.provider config));
      cbn; repeat split; intros; congruence.
Qed.

(** X20. The version that [execute] runs is [forceVersion] when that is
    a non-empty string, whatever the context and the router say, and the
    result of [resolveVersion] otherwise, whose error is thrown on as it
    is. A version without configuration in the registry makes [execute]
    throw "Agent version ... not found"; in both failures the map of
    providers is untouched. A result that is returned carries a version
    that is registered, and comes from a request made with that
    version's configuration under the tenant's overrides and with the
    input of the context: its output and cost are those of the
    provider's result, and its duration the difference of the two clock
    readings. *)
Theorem execute_runs_registered_version :
  forall (env : AgentExecutor.Env) (router : VersionRouter.t)
         (req : ExecuteRequest.t) (ex : AgentExecutor.t),
    let out := AgentExecutor.execute env router req ex in
    let context := ExecuteRequest.context req in
    (forall v, truthy (ExecuteRequest.forceVersion req) = Some v ->
               AgentExecutor.select_version router req = AgentExecutor.Resolved v)
    /\ (forall e, truthy (ExecuteRequest.forceVersion req) = None ->
          VersionRouter.resolveVersion context
            (ExecuteRequest.routingStrategy req) router = Throw e ->
          fst out = AgentExecutor.Rejected (AgentExecutor.RoutingError e)
          /\ AgentExecutor.providers (snd out) = AgentExecutor.providers ex)
    /\ (forall v, AgentExecutor.select_version router req
                  = AgentExecutor.Resolved v ->
          AgentRegistry.get v (VersionRouter.registry router) = None ->
          fst out = AgentExecutor.Rejected (AgentExecutor.AgentVersionNotFound v)
          /\ AgentExecutor.providers (snd out) = AgentExecutor.providers ex)
    /\ (forall result, fst out = AgentExecutor.Resolved result ->
          exists config provider llmResult,
            AgentExecutor.select_version router req
              = AgentExecutor.Resolved (AgentExecutionResult.version result)
            /\ AgentRegistry.get (AgentExecutionResult.version result)
                 (VersionRouter.registry router) = Some config
            /\ AgentExecutor.request env provider
                 (AgentExecutor.applyTenantOverrides router config context)
                 (ExecutionContext.input context) = inr llmResult
            /\ AgentExecutionResult.output result = AgentExecutor.text llmResult
            /\ AgentExecutionResult.cost result = AgentExecutor.cost llmResult
            /\ AgentExecutionResult.duration (AgentExecutionResult.metadata result)
               = number_of_Z (AgentExecutor.endTime env
                              - AgentExecutor.startTime env)).
Proof.
  intros env router req ex. cbv zeta.
  split; [|split; [|split]].
  - intros v Hf. unfold AgentExecutor.select_version. now rewrite Hf.
  - intros e Hf Hr. run_execute. unfold AgentExecutor.select_version.
    rewrite Hf, Hr. cbn. auto.
  - intros v Hs Hg. run_execute. rewrite Hs. cbn beta iota. rewrite Hg.
    cbn. auto.
  - intros result. run_execute.
    destruct (AgentExecutor.select_version router req) as [v|e];
      [|cbn; discriminate].
    cbn beta iota.
    destruct (AgentRegistry.get v (VersionRouter.registry router))
      as [config|] eqn:Eg; [|cbn; discriminate].
    cbn beta iota.
    destruct (AgentExecutor.provider_for env config _) as [[provider|e] ex2];
      [|cbn; discriminate].
    cbn beta iota. unfold AgentExecutor.complete.
    destruct (match provider with
              | AgentExecutor.OpenAIProvider => _
              | AgentExecutor.AnthropicProvider => _
              end); [cbn; discriminate|].
    destruct (AgentExecutor.request env provider _ _) as [m|llmResult] eqn:Er;
      [cbn; discriminate|].
    cbn. intros [= <-]. exists config, provider, llmResult. cbn.
    repeat split; assumption.
Qed.

(** X21. Every call of [execute] passes exactly one entry to the
    structured logger, whether it returns or throws. The entry carries
    the user, tenant and input of the context; for a result that is
    returned it repeats the result's version, output and cost and has no
    error; for a failure its version is "unknown", its output empty and
    its error the message of the error thrown. The plain logger receives,
    on success, the "info" lines of the start and of the completion; on
    failure, when no version could be selected, the "error" line of the
    failure alone, and when a version was selected, the "info" line of
    the start and then the "error" line. *)
Theorem execute_logs_once :
  forall (env : AgentExecutor.Env) (router : VersionRouter.t)
         (req : ExecuteRequest.t) (ex : AgentExecutor.t),
    let out := AgentExecutor.execute env router req ex in
    let context := ExecuteRequest.context req in
    let line := fun l => (AgentExecutor.level l, AgentExecutor.message l) in
    exists entry lines,
      AgentExecutor.structuredLogger (snd out)
        = (AgentExecutor.structuredLogger ex ++ [entry])%list
      /\ AgentExecutor.logger (snd out)
         = (AgentExecutor.logger ex ++ lines)%list
      /\ AgentLogEntry.userId entry = ExecutionContext.userId context
      /\ AgentLogEntry.tenantId entry = ExecutionContext.tenantId context
      /\ AgentLogEntry.input entry = ExecutionContext.input context
      /\ AgentLogEntry.timestamp entry = ValidDate (AgentExecutor.timestamp env)
      /\ match fst out with
         | AgentExecutor.Resolved result =>
             AgentLogEntry.version entry = AgentExecutionResult.version result
             /\ AgentLogEntry.output entry = AgentExecutionResult.output result
             /\ AgentLogEntry.cost entry = AgentExecutionResult.cost result
             /\ AgentLogEntry.error entry = None
             /\ map line lines
                = [(AgentExecutor.info, "Executing agent request");
                   (AgentExecutor.info, "Agent execution completed")]
         | AgentExecutor.Rejected e =>
             AgentLogEntry.version entry = "unknown"
             /\ AgentLogEntry.output entry = ""
             /\ AgentLogEntry.error entry = Some (AgentExecutor.error_message e)
             /\ map line lines
                = match AgentExecutor.select_version router req with
                  | AgentExecutor.Rejected _ =>
                      [(AgentExecutor.error, "Agent execution failed")]
                  | AgentExecutor.Resolved _ =>
                      [(AgentExecutor.info, "Executing agent request");
                       (AgentExecutor.error, "Agent execution failed")]
                  end
         end.
Proof.
  intros env router req ex. cbv zeta. run_execute.
  destruct (AgentExecutor.select_version router req) as [v|e]; cbn beta iota.
  2: { eexists; eexists. cbn. repeat split. }
  destruct (AgentRegistry.get v (VersionRouter.registry router)) as [config|];
    cbn beta iota.
  2: { eexists; eexists. cbn. rewrite <- app_assoc. repeat split. }
  match goal with
  | |- context [AgentExecutor.provider_for env config ?ex1] =>
      pose proof (provider_for_frame env config ex1) as Hframe;
      destruct (AgentExecutor.provider_for env config ex1)
        as [[provider|e] ex2]
  end; cbv zeta in Hframe; cbn [fst snd] in Hframe;
    destruct Hframe as [Hlog [Hstruct _]];
    cbn [AgentExecutor.logger AgentExecutor.structuredLogger] in Hlog, Hstruct;
    cbn beta iota.
  2: { eexists; eexists. cbn. rewrite Hlog, Hstruct, <- app_assoc.
       repeat split. }
  destruct (AgentExecutor.complete env provider _ _) as [llmResult|e];
    cbn beta iota.
  - eexists; eexists. cbn. rewrite Hlog, Hstruct, <- app_assoc. repeat split.
  - eexists; eexists. cbn. rewrite Hlog, Hstruct, <- app_assoc.
    repeat split.
Qed.

Lemma applyTenantOverrides_provider router config context :
  FinalConfig.provider (AgentExecutor.applyTenantOverrides router config context)
  = AgentConfig.provider config.
Proof.
  unfold AgentExecutor.applyTenantOverrides.
  destruct (truthy (ExecutionContext.tenantId context)) as [t|]; [|reflexivity].
  destruct (VersionRouter.getTenantConfig t router) as [tc|]; [|reflexivity].
  now destruct (TenantConfig.promptOverrides tc).
Qed.

(** With a consistent map of providers and a configuration for
    "openai" or "anthropic", the instance obtained is of the
    configuration's class, and the map stays consistent. *)
Lemma provider_for_class env config ex provider ex' :
  cache_consistent (AgentExecutor.providers ex) = true ->
  AgentConfig.provider config = "openai"
  \/ AgentConfig.provider config = "anthropic" ->
  AgentExecutor.provider_for env config ex = (AgentExecutor.Resolved provider, ex') ->
  cache_consistent (AgentExecutor.providers ex') = true
  /\ match provider with
     | AgentExecutor.OpenAIProvider => AgentConfig.provider config = "openai"
     | AgentExecutor.AnthropicProvider => AgentConfig.provider config = "anthropic"
     end.
Proof.
  unfold cache_consistent, JsMap.entries. rewrite !forallb_forall.
  intros Hc Hp. unfold AgentExecutor.provider_for.
  destruct (JsMap.get _ (AgentExecutor.providers ex)) as [p|] eqn:Eg.
  - intros [= <- <-]. split; [exact Hc|].
    apply get_in, Hc in Eg. cbn [fst snd] in Eg.
    destruct Hp as [Hp|Hp]; rewrite Hp in *; destruct p;
      try reflexivity; cbn in Eg; discriminate.
  - unfold AgentExecutor.create.
    destruct Hp as [Hp|Hp]; rewrite Hp; cbn [String.eqb Ascii.eqb Bool.eqb].
    + destruct (AgentExecutor.client env AgentExecutor.OpenAIProvider);
        [discriminate|].
      intros [= <- <-]. split; [|reflexivity].
      cbn [AgentExecutor.providers]. intros e He.
      apply in_set in He as [->|He]; [|auto].
      cbn. now destruct (AgentConfig.model config).
    + destruct (AgentExecutor.client env AgentExecutor.AnthropicProvider);
        [discriminate|].
      intros [= <- <-]. split; [|reflexivity].
      cbn [AgentExecutor.providers]. intros e He.
      apply in_set in He as [->|He]; [|auto].
      cbn. now destruct (AgentConfig.model config).
Qed.

(** X22. The map of providers is kept consistent by [execute]: the
    instance cached under a key is of the class the key names. When it is
    so before the call and the configurations in the registry name
    "openai" or "anthropic" as their provider (as every configuration
    accepted by [register] does), it is so after the call, and the call
    throws neither "Unsupported provider" nor the error of a provider
    asked to handle the other provider's model. *)
Theorem execute_keeps_providers_consistent :
  forall (env : AgentExecutor.Env) (router : VersionRouter.t)
         (req : ExecuteRequest.t) (ex : AgentExecutor.t),
    cache_consistent (AgentExecutor.providers ex) = true ->
    (forall v config,
       AgentRegistry.get v (VersionRouter.registry router) = Some config ->
       AgentConfig.provider config = "openai"
       \/ AgentConfig.provider config = "anthropic") ->
    let out := AgentExecutor.execute env router req ex in
    cache_consistent (AgentExecutor.providers (snd out)) = true
    /\ fst out <> AgentExecutor.Rejected AgentExecutor.OpenAIOnly
    /\ fst out <> AgentExecutor.Rejected AgentExecutor.AnthropicOnly
    /\ forall p, fst out
                 <> AgentExecutor.Rejected (AgentExecutor.UnsupportedProvider p).
Proof.
  intros env router req ex Hc Hvalid. cbv zeta. run_execute.
  unfold AgentExecutor.select_version.
  destruct (match truthy (ExecuteRequest.forceVersion req) with
            | Some v => AgentExecutor.Resolved v
            | None => _
            end) as [v|e] eqn:Es; cbn beta iota.
  2: { cbn. split; [exact Hc|].
       destruct (truthy (ExecuteRequest.forceVersion req)); [discriminate|].
       destruct (VersionRouter.resolveVersion _ _ router); [discriminate|].
       injection Es as <-. repeat split; try intros p; discriminate. }
  destruct (AgentRegistry.get v (VersionRouter.registry router))
    as [config|] eqn:Eg; cbn beta iota.
  2: { cbn. split; [exact Hc|]. repeat split; try intros p; discriminate. }
  pose proof (Hvalid v config Eg) as Hp.
  match goal with
  | |- context [AgentExecutor.provider_for env config ?ex1] =>
      pose proof (provider_for_class env config ex1) as Hclass;
      pose proof (provider_for_frame env config ex1) as Hframe;
      destruct (AgentExecutor.provider_for env config ex1)
        as [[provider|e] ex2] eqn:Ep
  end; cbn beta iota.
  2: { cbv zeta in Hframe. cbn [fst snd] in Hframe.
       destruct Hframe as [_ [_ Hsame]]. rewrite (Hsame e eq_refl).
       cbn. split; [exact Hc|].
       unfold AgentExecutor.provider_for in Ep.
       destruct (JsMap.get _ _); [discriminate|].
       unfold AgentExecutor.create in Ep.
       destruct Hp as [Hp|Hp]; rewrite Hp in Ep;
         cbn [String.eqb Ascii.eqb Bool.eqb] in Ep;
         destruct (AgentExecutor.client env _); try discriminate;
         injection Ep as <- _; repeat split; try intros p; discriminate. }
  destruct (Hclass provider ex2 Hc Hp eq_refl) as [Hc2 Hmatch].
  unfold AgentExecutor.complete. rewrite applyTenantOverrides_provider.
  assert (Hguard : match provider with
                   | AgentExecutor.OpenAIProvider =>
                       negb (AgentConfig.provider config =? "openai")%string
                   | AgentExecutor.AnthropicProvider =>
                       negb (AgentConfig.provider config =? "anthropic")%string
                   end = false).
  { destruct provider; rewrite Hmatch; reflexivity. }
  rewrite Hguard.
  destruct (AgentExecutor.request env provider _ _) as [m|llmResult];
    cbn; (split; [exact Hc2|]); repeat split; try intros p; discriminate.
Qed.

Lemma execute_keeps_providers_consistent_witness :
  let env := {| AgentExecutor.startTime := 1000;
                AgentExecutor.endTime := 1250;
                AgentExecutor.timestamp := 1250;
                AgentExecutor.entryTime := 1251;
                AgentExecutor.random := "k3j9x0qzp";
                AgentExecutor.client := fun _ => None;
                AgentExecutor.request := fun _ config input =>
                  inr {| AgentExecutor.text := "Paris.";
                         AgentExecutor.cost :=
                           {| ExecutionCost.amount := Finite (3 # 10000);
                              ExecutionCost.inputTokens := number_of_Z 12;
                              ExecutionCost.outputTokens := number_of_Z 2;
                              ExecutionCost.model := "gpt-4";
                              ExecutionCost.provider := "openai" |};
                         AgentExecutor.rawResponse := JsNull |} |} in
  let router := Sample.router_after
                  [Sample.register "v1.0";
                   VersionRouter.PinUser 10 "alice" "v1.0" None] in
  let req := {| ExecuteRequest.context := Sample.context "alice" None None;
                ExecuteRequest.routingStrategy := None;
                ExecuteRequest.forceVersion := None |} in
  let out := AgentExecutor.execute env router req AgentExecutor.new in
  cache_consistent (AgentExecutor.providers AgentExecutor.new) = true
  /\ JsMap.keys (AgentExecutor.providers (snd out)) = ["openai-gpt-4"]
  /\ cache_consistent (AgentExecutor.providers (snd out)) = true.
Proof.
  intros env router req out.
  split; [reflexivity|]. split; [reflexivity|].
  apply (execute_keeps_providers_consistent env router req AgentExecutor.new
           eq_refl).
  intros v config Hg.
  apply get_in in Hg. destruct Hg as [[= _ <-]|[]]. left. reflexivity.
Defined.

(* ================================================================== *)
(** * The builder *)

(** A call on the builder is a call on the router or on its registry. *)
Lemma step_is_call s :
  ConfigBuilder.step s
  = VersionRouter.call
      match s with
      | ConfigBuilder.WithGlobalDefaults config =>
          VersionRouter.SetGlobalConfig config
      | ConfigBuilder.RegisterAgent config =>
          VersionRouter.OnRegistry (AgentRegistry.Register config)
      | ConfigBuilder.ApplyTenantOverrides tenantId config =>
          VersionRouter.SetTenantConfig tenantId config
      | ConfigBuilder.PinUser now userId version reason =>
          VersionRouter.PinUser now userId version reason
      end.
Proof.
  destruct s; reflexivity.
Qed.

(** A builder call that returns keeps the invariant of the router. *)
Lemma step_router_invariant s r :
  router_invariant r = true ->
  fst (ConfigBuilder.step s r) = Ok tt ->
  router_invariant (snd (ConfigBuilder.step s r)) = true.
Proof.
  intros Hinv Hok. rewrite step_is_call in *.
  apply (exec_router_invariant _ r Hinv).
  destruct s; cbn [keeps_references]; try reflexivity;
    unfold VersionRouter.throws; now rewrite Hok.
Qed.

(** No builder call removes a version, and [registerAgent] that returns
    has registered its configuration's version. *)
Lemma step_keeps_versions s r v :
  AgentRegistry.has v (VersionRouter.registry r) = true ->
  AgentRegistry.has v (VersionRouter.registry (snd (ConfigBuilder.step s r))) = true.
Proof.
  intros Hh. destruct s as [g|config|tenantId tc|now userId version reason];
    cbn [ConfigBuilder.step].
  - unfold ConfigBuilder.withGlobalDefaults. rewrite setGlobalConfig_eq.
    now destruct (AgentRegistry.has (GlobalConfig.defaultVersion g) _).
  - unfold ConfigBuilder.registerAgent, VersionRouter.on_registry.
    rewrite register_eq.
    destruct (AgentConfigSchema_issues config); cbn; [|exact Hh].
    unfold AgentRegistry.has in *. cbn. now rewrite has_set, Hh, orb_true_r.
  - unfold ConfigBuilder.applyTenantOverrides. now rewrite setTenantConfig_eq.
  - unfold ConfigBuilder.pinUser. rewrite pinUser_eq.
    now destruct (AgentRegistry.has version _).
Qed.

Lemma chain_keeps_versions steps :
  forall r v,
    AgentRegistry.has v (VersionRouter.registry r) = true ->
    AgentRegistry.has v (VersionRouter.registry (snd (ConfigBuilder.chain steps r)))
    = true.
Proof.
  induction steps as [|s steps IH]; intros r v Hh; cbn [ConfigBuilder.chain];
    [exact Hh|].
  unfold bind. pose proof (step_keeps_versions s r v Hh) as Hs.
  destruct (ConfigBuilder.step s r) as [[[]|e] r1]; cbn [snd] in *;
    [now apply IH | exact Hs].
Qed.

Lemma chain_router_invariant steps :
  forall r,
    router_invariant r = true ->
    fst (ConfigBuilder.chain steps r) = Ok tt ->
    router_invariant (snd (ConfigBuilder.chain steps r)) = true
    /\ forall config,
         In (ConfigBuilder.RegisterAgent config) steps ->
         AgentRegistry.has (AgentConfig.version config)
           (VersionRouter.registry (snd (ConfigBuilder.chain steps r))) = true.
Proof.
  induction steps as [|s steps IH]; intros r Hinv Hok;
    cbn [ConfigBuilder.chain] in *; [split; [exact Hinv | intros config []]|].
  unfold bind in *.
  pose proof (step_router_invariant s r Hinv) as Hs.
  destruct (ConfigBuilder.step s r) as [[[]|e] r1] eqn:Es; cbn [fst snd] in *;
    [|discriminate].
  destruct (IH r1 (Hs eq_refl) Hok) as [Hinv' Hreg]. split; [exact Hinv'|].
  intros config [->|Hin]; [|now apply Hreg].
  apply chain_keeps_versions.
  cbn [ConfigBuilder.step] in Es.
  unfold ConfigBuilder.registerAgent, VersionRouter.on_registry in Es.
  rewrite register_eq in Es.
  destruct (AgentConfigSchema_issues config); [|discriminate].
  injection Es as <-. unfold AgentRegistry.has. cbn.
  now rewrite has_set, String.eqb_refl.
Qed.

(** X23. A system configured through the builder is consistent when
    every call of the chain returned: the builder has no method that
    removes a version, so every version that the router names in a pin,
    a tenant default or the global default is registered, every version
    passed to [registerAgent] is still registered in the registry that
    [build()] returns, and whatever [resolveVersion] returns on the built
    router is registered there. *)
Theorem builder_chain_is_consistent :
  forall steps : list ConfigBuilder.Step,
    fst (ConfigBuilder.chain steps ConfigBuilder.createAgentSystem) = Ok tt ->
    let built := ConfigBuilder.build
                   (snd (ConfigBuilder.chain steps ConfigBuilder.createAgentSystem)) in
    router_invariant (snd built) = true
    /\ (forall config,
          In (ConfigBuilder.RegisterAgent config) steps ->
          AgentRegistry.has (AgentConfig.version config) (fst built) = true)
    /\ forall context strategy v,
         VersionRouter.resolveVersion context strategy (snd built) = Ok v ->
         AgentRegistry.has v (fst built) = true.
Proof.
  intros steps Hok. cbv zeta. unfold ConfigBuilder.build. cbn [fst snd].
  destruct (chain_router_invariant steps ConfigBuilder.createAgentSystem
              eq_refl Hok) as [Hinv Hreg].
  split; [exact Hinv|]. split; [exact Hreg|].
  intros context strategy v. now apply resolveVersion_registered.
Qed.

Lemma builder_chain_is_consistent_witness :
  let config := {| AgentConfig.version := "v1.0";
                   AgentConfig.prompt := "Test";
                   AgentConfig.provider := "openai";
                   AgentConfig.model := "gpt-3.5-turbo";
                   AgentConfig.temperature := Finite (7 # 10);
                   AgentConfig.maxTokens := None;
                   AgentConfig.parameters := None;
                   AgentConfig.metadata := None |} in
  let steps := [ConfigBuilder.RegisterAgent config;
                ConfigBuilder.WithGlobalDefaults (Sample.global "v1.0" ["v1.0"]);
                ConfigBuilder.PinUser 10 "user1" "v1.0" None;
                ConfigBuilder.ApplyTenantOverrides "tenant1"
                  (Sample.tenant "tenant1" (Some "v1.0"))] in
  let built := ConfigBuilder.build
                 (snd (ConfigBuilder.chain steps ConfigBuilder.createAgentSystem)) in
  fst (ConfigBuilder.chain steps ConfigBuilder.createAgentSystem) = Ok tt
  /\ AgentRegistry.has "v1.0" (fst built) = true.
Proof.
  intros config steps built. split; [reflexivity|].
  destruct (builder_chain_is_consistent steps eq_refl) as [_ [Hreg _]].
  apply (Hreg config). left. reflexivity.
Defined.
